(** * ActivityStatsJJ: the playtime bot's store, queries and presence tracker

    A shallow embedding of [discord-playtime-bot.py]: the SQLite-backed
    [Store] ([add_time], [top_activities], [leaderboard]), the in-memory
    [PresenceTracker] ([start], [stop], one heartbeat tick) and the
    [on_presence_update] handler, followed by the properties the
    specification states about them.

    Conventions of the embedding.
    - A [datetime] is the number of microseconds since the Unix epoch (the
      resolution of Python's [datetime]); a [date] is its proleptic
      Gregorian ordinal, as [date.toordinal()] gives it.  The [day] column
      holds [date.isoformat()] strings; for the years 0001..9999 these have
      a fixed width and compare, as TEXT, the way the ordinals compare, so
      the column is kept as the ordinal.
    - SQLite INTEGER columns and Python [int]s are [Z].
    - A table is the list of its rows in the order in which they were
      inserted: a row inserted by an upsert is appended, a row updated by it
      keeps its place.  That order does not reach a result.  Every table
      has a PRIMARY KEY, and SQLite answers the queries of the program by
      walking the index of that key: rows and groups reach [ORDER BY] in
      ascending order of their key ([activity], compared byte by byte, for
      [top_activities]; [user_id] for [leaderboard]), and the sort for
      [ORDER BY seconds DESC LIMIT ?] keeps rows with equal seconds in the
      order in which they reached it.
    - A Python [dict] is an association list in insertion order.
    - Every call of [now_utc()] is one reading of the clock; the readings
      the program will obtain are part of the [world]. *)

From Stdlib Require Import ZArith List String Bool Lia Permutation Sorted.
Import ListNotations.
Open Scope Z_scope.

(* ------------------------------------------------------------------ *)
(** ** Keys *)

(** Types usable as a dict key or as a primary key: equality is decided. *)
Class Key (K : Type) := { key_eqb : K -> K -> bool }.

#[export] Instance Key_Z : Key Z := {| key_eqb := Z.eqb |}.

#[export] Instance Key_string : Key string := {| key_eqb := String.eqb |}.

#[export] Instance Key_pair {A B} `{Key A} `{Key B} : Key (A * B) :=
  {| key_eqb := fun x y => key_eqb (fst x) (fst y) && key_eqb (snd x) (snd y) |}.

(** The decided equality is equality. *)
Class KeyOk (K : Type) `{Key K} :=
  { key_eqb_spec : forall a b : K, reflect (a = b) (key_eqb a b) }.
Arguments KeyOk K {_}.

(** The order in which an index holds its keys: INTEGER columns by value,
    TEXT columns byte by byte (the BINARY collation), several columns
    lexicographically. *)
Class KeyOrder (K : Type) := { key_leb : K -> K -> bool }.

#[export] Instance KeyOrder_Z : KeyOrder Z := {| key_leb := Z.leb |}.

#[export] Instance KeyOrder_string : KeyOrder string :=
  {| key_leb := String.leb |}.

#[export] Instance KeyOrder_pair {A B} `{KeyOrder A} `{KeyOrder B}
  : KeyOrder (A * B) :=
  {| key_leb := fun x y =>
       key_leb (fst x) (fst y)
       && (negb (key_leb (fst y) (fst x)) || key_leb (snd x) (snd y)) |}.

(** The order is total. *)
Class KeyOrderOk (K : Type) `{KeyOrder K} := {
  key_leb_total : forall a b : K, key_leb a b = true \/ key_leb b a = true;
  key_leb_trans : forall a b c : K,
    key_leb a b = true -> key_leb b c = true -> key_leb a c = true;
  key_leb_antisym : forall a b : K,
    key_leb a b = true -> key_leb b a = true -> a = b
}.
Arguments KeyOrderOk K {_}.

(* ------------------------------------------------------------------ *)
(** ** Python dicts *)

Module Dict.

Definition dict (K V : Type) := list (K * V).

Section Ops.
Context {K V : Type} `{Key K}.

(** [d.get(k)] *)
Fixpoint get (k : K) (d : dict K V) : option V :=
  match d with
  | [] => None
  | (k', v) :: tl => if key_eqb k' k then Some v else get k tl
  end.

(** [k in d] *)
Definition contains (k : K) (d : dict K V) : bool :=
  match get k d with Some _ => true | None => false end.

(** [d[k] = v]: an existing key keeps its position, a new one goes last. *)
Fixpoint setitem (k : K) (v : V) (d : dict K V) : dict K V :=
  match d with
  | [] => [(k, v)]
  | (k', v') :: tl =>
      if key_eqb k' k then (k', v) :: tl else (k', v') :: setitem k v tl
  end.

(** [d.setdefault(k, v)], for its effect on [d]. *)
Definition setdefault (k : K) (v : V) (d : dict K V) : dict K V :=
  if contains k d then d else d ++ [(k, v)].

(** The dict left by [d.pop(k, None)]. *)
Definition remove (k : K) (d : dict K V) : dict K V :=
  filter (fun kv => negb (key_eqb (fst kv) k)) d.

(** [d.pop(k, None)]: the value, if any, and the dict without the key. *)
Definition pop (k : K) (d : dict K V) : option V * dict K V :=
  (get k d, remove k d).

Definition keys (d : dict K V) : list K := map fst d.

(** Keys are unique in a Python dict. *)
Definition wf (d : dict K V) : Prop := NoDup (keys d).

End Ops.
End Dict.

(* ------------------------------------------------------------------ *)
(** ** SQL building blocks *)

(** A keyed counter table: rows [(key, seconds)]. *)
Definition rows (K : Type) := list (K * Z).

Section Sql.
Context {K : Type} `{Key K}.

(** [INSERT INTO t(key, seconds) VALUES(k, v)
     ON CONFLICT(key) DO UPDATE SET seconds = seconds + excluded.seconds] *)
Fixpoint upsert_add (k : K) (v : Z) (t : rows K) : rows K :=
  match t with
  | [] => [(k, v)]
  | (k', v') :: tl =>
      if key_eqb k' k then (k', v' + v) :: tl else (k', v') :: upsert_add k v tl
  end.

(** The [seconds] stored under a key; 0 when the key has no row. *)
Fixpoint seconds_of (k : K) (t : rows K) : Z :=
  match t with
  | [] => 0
  | (k', v) :: tl => if key_eqb k' k then v else seconds_of k tl
  end.

(** [SUM(seconds)] over the rows carrying key [k]. *)
Fixpoint key_sum (k : K) (t : rows K) : Z :=
  match t with
  | [] => 0
  | (k', v) :: tl => (if key_eqb k' k then v else 0) + key_sum k tl
  end.

(** [SELECT key, SUM(seconds) ... GROUP BY key]: one row per key, the groups
    in the order in which their first row is met. *)
Definition group_sum (t : rows K) : rows K :=
  fold_left (fun acc kv => upsert_add (fst kv) (snd kv) acc) t [].

End Sql.

Section Ranking.
Context {A : Type} `{KeyOrder A}.

Fixpoint insert_key (x : A * Z) (l : list (A * Z)) : list (A * Z) :=
  match l with
  | [] => [x]
  | y :: tl =>
      if key_leb (fst x) (fst y) then x :: l else y :: insert_key x tl
  end.

(** The rows in the order in which the index of their key yields them:
    ascending by key. *)
Definition index_order (l : list (A * Z)) : list (A * Z) :=
  fold_right insert_key [] l.

Fixpoint insert_desc (x : A * Z) (l : list (A * Z)) : list (A * Z) :=
  match l with
  | [] => [x]
  | y :: tl => if snd y <=? snd x then x :: l else y :: insert_desc x tl
  end.

(** [ORDER BY seconds DESC].  The queries give no other sort key; rows
    with equal seconds stay in the order in which they reach the sort. *)
Definition order_by_seconds_desc (l : list (A * Z)) : list (A * Z) :=
  fold_right insert_desc [] l.

(** [LIMIT n]: SQLite puts no bound on the number of rows when [n] is
    negative. *)
Definition sql_limit (n : Z) (l : list (A * Z)) : list (A * Z) :=
  if n <? 0 then l else firstn (Z.to_nat n) l.

(** [... ORDER BY seconds DESC LIMIT ?] over rows or groups [l] with their
    key: they reach the sort in the order of the index. *)
Definition ranked (limit : Z) (l : list (A * Z)) : list (A * Z) :=
  sql_limit limit (order_by_seconds_desc (index_order l)).

End Ranking.

(* ------------------------------------------------------------------ *)
(** ** Time *)

(** A [datetime]: microseconds since the Unix epoch. *)
Definition time := Z.

(** A [date]: proleptic Gregorian ordinal, 1 for 0001-01-01. *)
Definition day := Z.

Definition MAXORDINAL : day := 3652059.   (* 9999-12-31 *)
Definition EPOCH_ORDINAL : day := 719163. (* 1970-01-01 *)
Definition MICROS_PER_DAY : Z := 86400000000.
Definition MICROS_PER_SECOND : Z := 1000000.

(** The literal "0000-01-01" of the queries.  It is not a [date] (years
    start at 1); as TEXT it sorts before every ISO date, and it is placed
    where year 0 would be, 366 days before 0001-01-01. *)
Definition FALLBACK_START : day := -365.

Inductive exn := OverflowError.

(** What a call gives back: a value or a raised exception. *)
Inductive outcome (A : Type) :=
| Returns (a : A)
| Raises (e : exn).
Arguments Returns {A} a.
Arguments Raises {A} e.

(** [d - timedelta(days=n)]: Python raises OverflowError when the result
    leaves the range of [date]. *)
Definition date_sub (d : day) (n : Z) : outcome day :=
  let o := d - n in
  if (0 <? o) && (o <=? MAXORDINAL) then Returns o else Raises OverflowError.

(** [int(delta.total_seconds())] for a difference of two datetimes: whole
    seconds, rounded towards zero. *)
Definition whole_seconds (delta : Z) : Z := Z.quot delta MICROS_PER_SECOND.

(* ------------------------------------------------------------------ *)
(** ** Configuration *)

Definition HEARTBEAT_SECONDS : Z := 60.

Inductive ActivityType :=
| unknown | playing | streaming | listening | watching | custom | competing.

Definition ActivityType_eqb (a b : ActivityType) : bool :=
  match a, b with
  | unknown, unknown | playing, playing | streaming, streaming
  | listening, listening | watching, watching | custom, custom
  | competing, competing => true
  | _, _ => false
  end.

Definition TRACK_ACTIVITY_TYPES : list ActivityType := [playing].

(* ------------------------------------------------------------------ *)
(** ** The store and the world *)

(** Key columns are grouped on the left, [seconds] is on the right. *)
Record Store := mkStore {
  totals : rows (Z * string);                 (* (user_id, activity) *)
  daily_totals : rows (Z * string * day);     (* (user_id, activity, day) *)
  guild_usernames : Dict.dict Z (string * time) (* user_id -> username, updated_at *)
}.

(** The tables [_init_db] creates in a new database. *)
Definition empty_store : Store := mkStore [] [] [].

(** The state the program runs against: the clock (the readings [now_utc]
    will return, and how many were taken), the database behind [store], and
    [tracker.active]. *)
Record world := mkWorld {
  clock : nat -> time;
  taken : nat;
  store : Store;
  active : Dict.dict Z (Dict.dict string time)
}.

Definition M (A : Type) := world -> A * world.

Definition ret {A} (a : A) : M A := fun w => (a, w).

Definition bind {A B} (m : M A) (k : A -> M B) : M B :=
  fun w => let (a, w') := m w in k a w'.

Notation "x <- m ;; k" := (bind m (fun x => k))
  (at level 61, m at next level, right associativity).
Notation "m ;; k" := (bind m (fun _ => k))
  (at level 61, right associativity).

Definition exec {A} (m : M A) (w : world) : world := snd (m w).
Definition eval {A} (m : M A) (w : world) : A := fst (m w).

Definition get_store : M Store := fun w => (store w, w).
Definition get_active : M (Dict.dict Z (Dict.dict string time)) :=
  fun w => (active w, w).
Definition put_store (s : Store) : M unit :=
  fun w => (tt, mkWorld (clock w) (taken w) s (active w)).
Definition put_active (a : Dict.dict Z (Dict.dict string time)) : M unit :=
  fun w => (tt, mkWorld (clock w) (taken w) (store w) a).

(** [for x in l: body(x)] *)
Fixpoint for_each {A} (l : list A) (body : A -> M unit) : M unit :=
  match l with
  | [] => ret tt
  | x :: tl => body x ;; for_each tl body
  end.

(* ------------------------------------------------------------------ *)
(** ** Helpers *)

Definition now_utc : M time :=
  fun w => (clock w (taken w),
            mkWorld (clock w) (S (taken w)) (store w) (active w)).

Section Program.

(** The UTC offset, in microseconds, of the zone named by [TIMEZONE] at a
    given instant; constantly 0 for "UTC" and when [zoneinfo] is missing. *)
Variable utcoffset : time -> Z.

(** [to_local(d)]: the same instant on the local wall clock. *)
Definition to_local (d : time) : time := d + utcoffset d.

(** [d.date()] of a wall-clock reading. *)
Definition date_of (wall : time) : day := EPOCH_ORDINAL + wall / MICROS_PER_DAY.

Inductive date_arg :=
| a_datetime (d : time)
| a_date (d : day)
| a_None.

Definition iso_date_local (d : date_arg) : M day :=
  match d with
  | a_None => t <- now_utc ;; ret (date_of (to_local t))
  | a_datetime t => ret (date_of (to_local t))
  | a_date d => ret d
  end.

(* ------------------------------------------------------------------ *)
(** ** Store *)

Definition add_time (user_id : Z) (username activity : string) (seconds : Z)
  (when : option time) : M unit :=
  if seconds <=? 0 then ret tt
  else
    when' <- match when with Some t => ret t | None => now_utc end ;;
    day <- iso_date_local (a_datetime when') ;;
    updated_at <- now_utc ;;
    s <- get_store ;;
    put_store
      (mkStore
         (upsert_add (user_id, activity) seconds (totals s))
         (upsert_add (user_id, activity, day) seconds (daily_totals s))
         (Dict.setitem user_id (username, updated_at) (guild_usernames s))).

(** The start of the date window: the [if]/[elif] chain on [period] that
    [top_activities] and [leaderboard] both carry, with [end_] the value of
    [iso_date_local()] read just before. *)
Definition window_start (period : string) (end_ : day) : M (outcome day) :=
  if String.eqb period "today" then ret (Returns end_)
  else if String.eqb period "week" then
    t <- now_utc ;; ret (date_sub (date_of (to_local t)) 6)
  else if String.eqb period "month" then
    t <- now_utc ;; ret (date_sub (date_of (to_local t)) 29)
  else ret (Returns FALLBACK_START).

(** [day BETWEEN start AND end] *)
Definition between (start end_ d : day) : bool := (start <=? d) && (d <=? end_).

(** [SELECT activity, seconds FROM totals WHERE user_id=?] *)
Definition totals_of_user (user_id : Z) (s : Store) : rows string :=
  map (fun r => (snd (fst r), snd r))
      (filter (fun r => Z.eqb (fst (fst r)) user_id) (totals s)).

(** The rows [FROM daily_totals WHERE user_id=? AND day BETWEEN ? AND ?],
    by activity. *)
Definition daily_of_user (user_id : Z) (start end_ : day) (s : Store)
  : rows string :=
  map (fun r => (snd (fst (fst r)), snd r))
      (filter (fun r => Z.eqb (fst (fst (fst r))) user_id
                        && between start end_ (snd (fst r)))
              (daily_totals s)).

(** The query of the [period == "all"] branch of [top_activities]. *)
Definition top_all (user_id : Z) (limit : Z) (s : Store) : list (string * Z) :=
  ranked limit (totals_of_user user_id s).

(** The query of its other branch: [SELECT activity, SUM(seconds) ...
    GROUP BY activity ORDER BY seconds DESC LIMIT ?]. *)
Definition top_window (user_id : Z) (start end_ : day) (limit : Z) (s : Store)
  : list (string * Z) :=
  ranked limit (group_sum (daily_of_user user_id start end_ s)).

(** Rows are [(activity, seconds)].  The source gives [period] the default
    "week" and [limit] the default 10. *)
Definition top_activities (user_id : Z) (period : string) (limit : Z)
  : M (outcome (list (string * Z))) :=
  if String.eqb period "all" then
    s <- get_store ;;
    ret (Returns (top_all user_id limit s))
  else
    end_ <- iso_date_local a_None ;;
    start <- window_start period end_ ;;
    match start with
    | Raises e => ret (Raises e)
    | Returns start =>
        s <- get_store ;;
        ret (Returns (top_window user_id start end_ limit s))
    end.

(** Python truthiness of a [str | None] value. *)
Definition truthy (s : option string) : bool :=
  match s with
  | Some s => negb (String.eqb s EmptyString)
  | None => false
  end.

(** [user_id IN (?, ..., ?)] *)
Definition in_ids (ids : list Z) (user_id : Z) : bool :=
  existsb (Z.eqb user_id) ids.

(** [FROM totals t JOIN guild_usernames gu ON gu.user_id = t.user_id
     WHERE t.user_id IN (...)], with a further test on [t.activity].
    [user_id] is the primary key of [guild_usernames]: a row of [totals]
    joins with the one row holding its user's name, or with none.  The
    result is keyed by [(user_id, username)]. *)
Definition joined_totals (ids : list Z) (keep : string -> bool) (s : Store)
  : rows (Z * string) :=
  flat_map
    (fun r =>
       let user_id := fst (fst r) in
       match Dict.get user_id (guild_usernames s) with
       | Some gu =>
           if in_ids ids user_id && keep (snd (fst r))
           then [((user_id, fst gu), snd r)] else []
       | None => []
       end)
    (totals s).

(** [FROM daily_totals d JOIN guild_usernames gu ON gu.user_id = d.user_id
     WHERE d.user_id IN (...) AND d.day BETWEEN ? AND ?], with a further
    test on [d.activity]. *)
Definition joined_daily (ids : list Z) (keep : string -> bool)
  (start end_ : day) (s : Store) : rows (Z * string) :=
  flat_map
    (fun r =>
       let user_id := fst (fst (fst r)) in
       match Dict.get user_id (guild_usernames s) with
       | Some gu =>
           if in_ids ids user_id && keep (snd (fst (fst r)))
              && between start end_ (snd (fst r))
           then [((user_id, fst gu), snd r)] else []
       | None => []
       end)
    (daily_totals s).

Definition any_activity : string -> bool := fun _ => true.

(** The query [leaderboard] builds when [period == "all"]: with a truthy
    [activity] the rows of that activity, one per user; otherwise the sum
    per user.  Rows are [((user_id, username), seconds)]; [GROUP BY user_id]
    is grouping by the pair, the name being a function of the user id. *)
Definition leaderboard_all (ids : list Z) (activity : option string)
  (limit : Z) (s : Store) : list (Z * string * Z) :=
  match activity with
  | Some a =>
      if truthy activity
      then ranked limit (joined_totals ids (String.eqb a) s)
      else ranked limit (group_sum (joined_totals ids any_activity s))
  | None => ranked limit (group_sum (joined_totals ids any_activity s))
  end.

(** The query it builds otherwise, over the window of days. *)
Definition leaderboard_window (ids : list Z) (activity : option string)
  (start end_ : day) (limit : Z) (s : Store) : list (Z * string * Z) :=
  match activity with
  | Some a =>
      if truthy activity
      then ranked limit (group_sum (joined_daily ids (String.eqb a) start end_ s))
      else ranked limit (group_sum (joined_daily ids any_activity start end_ s))
  | None => ranked limit (group_sum (joined_daily ids any_activity start end_ s))
  end.

(** The source gives [period] the default "week" and [limit] the default
    10. *)
Definition leaderboard (guild_user_ids : list Z) (activity : option string)
  (period : string) (limit : Z) : M (outcome (list (Z * string * Z))) :=
  match guild_user_ids with
  | [] => ret (Returns [])
  | _ =>
    if String.eqb period "all" then
      s <- get_store ;;
      ret (Returns (leaderboard_all guild_user_ids activity limit s))
    else
      end_ <- iso_date_local a_None ;;
      start <- window_start period end_ ;;
      match start with
      | Raises e => ret (Raises e)
      | Returns start =>
          s <- get_store ;;
          ret (Returns (leaderboard_window guild_user_ids activity start end_
                          limit s))
      end
  end.

(* ------------------------------------------------------------------ *)
(** ** Presence tracker *)

(** An entry of [member.activities]: whether it is an instance of
    [discord.Activity], its [type], and its [name] if it has one. *)
Record PresenceActivity := mkActivity {
  is_Activity : bool;
  act_type : ActivityType;
  act_name : option string
}.

Record Member := mkMember {
  member_id : Z;
  member_str : string;                       (* [str(member)] *)
  member_activities : list PresenceActivity
}.

(** [guild.members] *)
Definition Guild := list Member.

Fixpoint get_playing_name_in (acts : list PresenceActivity) : option string :=
  match acts with
  | [] => None
  | act :: tl =>
      if is_Activity act
         && existsb (ActivityType_eqb (act_type act)) TRACK_ACTIVITY_TYPES
         && truthy (act_name act)
      then act_name act
      else get_playing_name_in tl
  end.

Definition get_playing_name (member : Member) : option string :=
  get_playing_name_in (member_activities member).

Definition start (user_id : Z) (activity : string) : M unit :=
  a <- get_active ;;
  put_active (Dict.setdefault user_id [] a) ;;
  a <- get_active ;;
  match Dict.get user_id a with
  | Some sessions =>
      if Dict.contains activity sessions then ret tt
      else
        t <- now_utc ;;
        a <- get_active ;;
        put_active (Dict.setitem user_id (Dict.setitem activity t sessions) a)
  | None => ret tt   (* not reached: [setdefault] has put the key *)
  end.

(** [self.active.get(user_id, {}).pop(activity, None)] pops from the dict
    stored under [user_id], which stays in [active] (also when it becomes
    empty); with no such dict the pop is from a temporary. *)
Definition stop (user_id : Z) (activity : string) : M Z :=
  a <- get_active ;;
  started <-
    match Dict.get user_id a with
    | Some sessions =>
        let (started, sessions') := Dict.pop activity sessions in
        put_active (Dict.setitem user_id sessions' a) ;;
        ret started
    | None => ret None
    end ;;
  match started with
  | None => ret 0
  | Some start =>
      t <- now_utc ;;
      ret (whole_seconds (t - start))
  end.

(** The body of the heartbeat's [for member in guild.members] loop. *)
Definition credit_member (member : Member) : M unit :=
  a <- get_active ;;
  match Dict.get (member_id member) a with
  | None | Some [] => ret tt                       (* [continue] *)
  | Some sessions =>
      for_each sessions
        (fun session =>
           add_time (member_id member) (member_str member) (fst session)
                    HEARTBEAT_SECONDS None)
  end.

(** One pass of the heartbeat loop over [bot.guilds]. *)
Definition heartbeat_tick (guilds : list Guild) : M unit :=
  for_each guilds (fun guild => for_each guild credit_member).

(** [heartbeat]: one tick per turn of the [while] loop, [bot.guilds] being
    what it is at that turn; the list ends when the bot is closed.  The
    sleep between two ticks changes nothing but the readings of the clock. *)
Definition heartbeat (turns : list (list Guild)) : M unit :=
  for_each turns heartbeat_tick.

(* ------------------------------------------------------------------ *)
(** ** Bot *)

Definition option_string_eqb (a b : option string) : bool :=
  match a, b with
  | Some x, Some y => String.eqb x y
  | None, None => true
  | _, _ => false
  end.

Definition on_presence_update (before after : Member) : M unit :=
  let before_name := get_playing_name before in
  let after_name := get_playing_name after in
  let user_id := member_id after in
  let username := member_str after in
  if option_string_eqb before_name after_name then ret tt
  else
    match before_name with
    | Some b =>
        if truthy before_name then
          elapsed <- stop user_id b ;;
          if 0 <? elapsed then add_time user_id username b elapsed None
          else ret tt
        else ret tt
    | None => ret tt
    end ;;
    match after_name with
    | Some a => if truthy after_name then start user_id a else ret tt
    | None => ret tt
    end.

End Program.

(** [started_at u a w]: the timestamp [tracker.active] holds for the session
    of user [u] in activity [a], if there is one. *)
Definition started_at (user_id : Z) (activity : string) (w : world)
  : option time :=
  match Dict.get user_id (active w) with
  | Some sessions => Dict.get activity sessions
  | None => None
  end.

(** The seconds [totals] holds for a user and an activity. *)
Definition total_seconds (s : Store) (user_id : Z) (activity : string) : Z :=
  seconds_of (user_id, activity) s.(totals).

(** The seconds [daily_totals] holds for a user, an activity and a day. *)
Definition day_seconds (s : Store) (user_id : Z) (activity : string) (d : day)
  : Z :=
  seconds_of (user_id, activity, d) s.(daily_totals).

(** The sum, over all days, of the seconds [daily_totals] holds for a user
    and an activity. *)
Definition daily_sum (s : Store) (user_id : Z) (activity : string) : Z :=
  key_sum (user_id, activity)
          (map (fun r => (fst (fst r), snd r)) s.(daily_totals)).

(* ================================================================== *)
(** * Properties *)

(* ------------------------------------------------------------------ *)
(** ** Keys *)

#[export] Instance KeyOk_Z : KeyOk Z.
Proof. constructor. exact Z.eqb_spec. Qed.

#[export] Instance KeyOk_string : KeyOk string.
Proof. constructor. exact String.eqb_spec. Qed.

#[export] Instance KeyOk_pair {A B} `{KeyOk A} `{KeyOk B} : KeyOk (A * B).
Proof.
  constructor. intros [a b] [a' b']. simpl.
  destruct (key_eqb_spec a a'), (key_eqb_spec b b'); simpl;
    constructor; congruence.
Qed.

Lemma key_eqb_refl {K} `{KeyOk K} (k : K) : key_eqb k k = true.
Proof. destruct (key_eqb_spec k k); congruence. Qed.

Lemma key_eqb_eq {K} `{KeyOk K} (a b : K) : key_eqb a b = true <-> a = b.
Proof. destruct (key_eqb_spec a b); split; congruence. Qed.

Lemma key_eqb_neq {K} `{KeyOk K} (a b : K) : key_eqb a b = false <-> a <> b.
Proof. destruct (key_eqb_spec a b); split; congruence. Qed.

(* ------------------------------------------------------------------ *)
(** ** Dicts *)

Section DictFacts.
Context {K V : Type} `{KeyOk K}.
Implicit Types (k : K) (v : V) (d : Dict.dict K V).

Lemma get_setitem_same k v d : Dict.get k (Dict.setitem k v d) = Some v.
Proof.
  induction d as [|[k' v'] tl IH]; simpl.
  - now rewrite key_eqb_refl.
  - destruct (key_eqb k' k) eqn:E; simpl; rewrite E; auto.
Qed.

Lemma get_setitem_other k k' v d :
  k' <> k -> Dict.get k (Dict.setitem k' v d) = Dict.get k d.
Proof.
  intros Hne. induction d as [|[k0 v0] tl IH]; simpl.
  - apply key_eqb_neq in Hne. now rewrite Hne.
  - destruct (key_eqb k0 k') eqn:E; simpl.
    + apply key_eqb_eq in E. subst k0.
      apply key_eqb_neq in Hne. now rewrite Hne.
    + now rewrite IH.
Qed.

Lemma setitem_get_id k v d : Dict.get k d = Some v -> Dict.setitem k v d = d.
Proof.
  induction d as [|[k' v'] tl IH]; simpl; [discriminate|].
  destruct (key_eqb k' k); intros E.
  - congruence.
  - now rewrite IH.
Qed.

Lemma remove_absent k d : Dict.get k d = None -> Dict.remove k d = d.
Proof.
  unfold Dict.remove.
  induction d as [|[k' v'] tl IH]; simpl; [reflexivity|].
  destruct (key_eqb k' k); simpl; [discriminate|].
  intros E. now rewrite IH.
Qed.

Lemma get_remove_same k d : Dict.get k (Dict.remove k d) = None.
Proof.
  unfold Dict.remove.
  induction d as [|[k' v'] tl IH]; simpl; [reflexivity|].
  destruct (key_eqb k' k) eqn:E; simpl; [assumption|].
  now rewrite E.
Qed.

Lemma get_remove_other k k' d :
  k' <> k -> Dict.get k (Dict.remove k' d) = Dict.get k d.
Proof.
  intros Hne. unfold Dict.remove.
  induction d as [|[k0 v0] tl IH]; simpl; [reflexivity|].
  destruct (key_eqb k0 k') eqn:E; simpl.
  - apply key_eqb_eq in E. subst k0.
    apply key_eqb_neq in Hne. now rewrite Hne.
  - now rewrite IH.
Qed.

Lemma get_app_absent k d d' :
  Dict.get k d = None -> Dict.get k (d ++ d') = Dict.get k d'.
Proof.
  induction d as [|[k' v'] tl IH]; simpl; [reflexivity|].
  destruct (key_eqb k' k); [discriminate|assumption].
Qed.

Lemma get_app_present k v d d' :
  Dict.get k d = Some v -> Dict.get k (d ++ d') = Some v.
Proof.
  induction d as [|[k' v'] tl IH]; simpl; [discriminate|].
  destruct (key_eqb k' k); [trivial|assumption].
Qed.

Lemma get_setdefault_same k v d :
  Dict.get k (Dict.setdefault k v d) =
  Some (match Dict.get k d with Some v' => v' | None => v end).
Proof.
  unfold Dict.setdefault, Dict.contains.
  destruct (Dict.get k d) eqn:E.
  - exact E.
  - rewrite get_app_absent by exact E. simpl. now rewrite key_eqb_refl.
Qed.

Lemma get_setdefault_other k k' v d :
  k' <> k -> Dict.get k (Dict.setdefault k' v d) = Dict.get k d.
Proof.
  intros Hne. unfold Dict.setdefault, Dict.contains.
  destruct (Dict.get k' d); [reflexivity|].
  destruct (Dict.get k d) eqn:E.
  - now apply get_app_present.
  - rewrite get_app_absent by exact E. simpl.
    apply key_eqb_neq in Hne. now rewrite Hne.
Qed.

Lemma setdefault_present k v v' d :
  Dict.get k d = Some v' -> Dict.setdefault k v d = d.
Proof. unfold Dict.setdefault, Dict.contains. now intros ->. Qed.

End DictFacts.

(* ------------------------------------------------------------------ *)
(** ** The monad *)

Ltac unfold_m :=
  unfold exec, eval, bind, ret, get_active, put_active, get_store, put_store,
    now_utc in *; simpl in *.

Lemma world_eta (w : world) :
  mkWorld (clock w) (taken w) (store w) (active w) = w.
Proof. now destruct w. Qed.

(** A loop keeps what each of its turns keeps. *)
Lemma for_each_keeps {A X} (f : world -> X) (l : list A) (body : A -> M unit) :
  (forall x w, f (exec (body x) w) = f w) ->
  forall w, f (exec (for_each l body) w) = f w.
Proof.
  intros Hbody. induction l as [|x tl IH]; intros w; [reflexivity|].
  specialize (Hbody x w). unfold exec in *. simpl. unfold bind.
  destruct (body x w) as [[] w1]. simpl in *. now rewrite IH.
Qed.

Lemma exec_bind {A B} (m : M A) (k : A -> M B) (w : world) :
  exec (bind m k) w = exec (k (eval m w)) (exec m w).
Proof. unfold exec, eval, bind. now destruct (m w). Qed.

Lemma eval_bind {A B} (m : M A) (k : A -> M B) (w : world) :
  eval (bind m k) w = eval (k (eval m w)) (exec m w).
Proof. unfold exec, eval, bind. now destruct (m w). Qed.

Lemma for_each_cons {A} (x : A) (l : list A) (body : A -> M unit) (w : world) :
  exec (for_each (x :: l) body) w = exec (for_each l body) (exec (body x) w).
Proof. simpl. now rewrite exec_bind. Qed.

Lemma for_each_app {A} (l l' : list A) (body : A -> M unit) (w : world) :
  exec (for_each (l ++ l') body) w =
  exec (for_each l' body) (exec (for_each l body) w).
Proof.
  revert w. induction l as [|x tl IH]; intros w; [reflexivity|].
  simpl app. now rewrite !for_each_cons, IH.
Qed.

(* ------------------------------------------------------------------ *)
(** ** Presence tracker: [start] and [stop] *)

Lemma start_present u a t w :
  started_at u a w = Some t -> start u a w = (tt, w).
Proof.
  unfold started_at, start. intros Hs.
  destruct (Dict.get u (active w)) as [sessions|] eqn:Hu; [|discriminate].
  unfold_m. rewrite (setdefault_present _ _ _ _ Hu), Hu.
  unfold Dict.contains. rewrite Hs. now rewrite world_eta.
Qed.

Lemma exec_start_present u a t w :
  started_at u a w = Some t -> exec (start u a) w = w.
Proof. intros Hs. unfold exec. now rewrite (start_present _ _ _ _ Hs). Qed.

(** What [start] leaves in [active] for its own key: the timestamp already
    there, or else the reading it takes. *)
Lemma started_at_start u a w :
  started_at u a (exec (start u a) w) =
  Some (match started_at u a w with
        | Some t => t
        | None => clock w (taken w)
        end).
Proof.
  destruct (started_at u a w) as [t|] eqn:Hs.
  - unfold exec. now rewrite (start_present _ _ _ _ Hs).
  - unfold started_at in *. unfold start. unfold_m.
    rewrite get_setdefault_same.
    destruct (Dict.get u (active w)) as [sessions|] eqn:Hu.
    + unfold Dict.contains. rewrite Hs. simpl.
      now rewrite !get_setitem_same.
    + unfold Dict.contains. simpl. rewrite get_setitem_same.
      apply (get_setitem_same a _ []).
Qed.

Lemma started_at_start_other u a u' a' w :
  (u', a') <> (u, a) ->
  started_at u a (exec (start u' a') w) = started_at u a w.
Proof.
  intros Hne. unfold started_at, start. unfold_m.
  rewrite get_setdefault_same.
  set (sessions := match Dict.get u' (active w) with
                   | Some v' => v' | None => [] end).
  assert (Hsess : forall x, u = u' ->
            match Dict.get u (active w) with
            | Some s => Dict.get x s | None => None end = Dict.get x sessions).
  { intros x ->. subst sessions. now destruct (Dict.get u' (active w)). }
  destruct (Z.eq_dec u' u) as [->|Hu].
  - destruct (Dict.contains a' sessions); simpl.
    + rewrite get_setdefault_same. now rewrite Hsess.
    + rewrite get_setitem_same, get_setitem_other by congruence.
      now rewrite Hsess.
  - destruct (Dict.contains a' sessions); simpl.
    + now rewrite get_setdefault_other.
    + now rewrite get_setitem_other, get_setdefault_other.
Qed.

Lemma store_start u a w : store (exec (start u a) w) = store w.
Proof.
  unfold start. unfold_m.
  match goal with
  | |- context [match ?x with Some _ => _ | None => _ end] =>
      destruct x as [d|]; [|reflexivity]
  end.
  now destruct (Dict.contains a d).
Qed.

Lemma stop_absent u a w : started_at u a w = None -> stop u a w = (0, w).
Proof.
  unfold started_at, stop. unfold_m.
  destruct (Dict.get u (active w)) as [sessions|] eqn:Hu; intros Hs.
  - rewrite Hs, (remove_absent _ _ Hs), (setitem_get_id _ _ _ Hu).
    now rewrite world_eta.
  - reflexivity.
Qed.

(** [stop] on an active session returns the whole seconds between the
    stored timestamp and the reading it takes. *)
Lemma stop_present u a t w :
  started_at u a w = Some t ->
  eval (stop u a) w = whole_seconds (clock w (taken w) - t).
Proof.
  unfold started_at, stop. unfold_m.
  destruct (Dict.get u (active w)) as [sessions|] eqn:Hu; [|discriminate].
  now intros ->.
Qed.

Lemma started_at_stop u a w : started_at u a (exec (stop u a) w) = None.
Proof.
  unfold started_at, stop. unfold_m.
  destruct (Dict.get u (active w)) as [sessions|] eqn:Hu.
  - destruct (Dict.get a sessions); simpl;
      now rewrite get_setitem_same, get_remove_same.
  - simpl. now rewrite Hu.
Qed.

Lemma started_at_stop_other u a u' a' w :
  (u', a') <> (u, a) ->
  started_at u a (exec (stop u' a') w) = started_at u a w.
Proof.
  intros Hne. unfold started_at, stop. unfold_m.
  destruct (Dict.get u' (active w)) as [sessions|] eqn:Hu'.
  - assert (Hact : match Dict.get u (Dict.setitem u' (Dict.remove a' sessions) (active w)) with
                   | Some s => Dict.get a s | None => None end =
                   match Dict.get u (active w) with
                   | Some s => Dict.get a s | None => None end).
    { destruct (Z.eq_dec u' u) as [->|Hu].
      - rewrite get_setitem_same, Hu'.
        apply get_remove_other. congruence.
      - now rewrite get_setitem_other. }
    now destruct (Dict.get a' sessions); simpl.
  - reflexivity.
Qed.

Lemma store_stop u a w : store (exec (stop u a) w) = store w.
Proof.
  unfold stop. unfold_m.
  destruct (Dict.get u (active w)) as [d|]; [|reflexivity].
  now destruct (Dict.get a d).
Qed.

(* ------------------------------------------------------------------ *)
(** ** Counter tables *)

Definition sumZ (l : list Z) : Z := fold_right Z.add 0 l.

Lemma sumZ_app l l' : sumZ (l ++ l') = sumZ l + sumZ l'.
Proof. induction l; simpl; lia. Qed.

Section CounterFacts.
Context {K : Type} `{KeyOk K}.
Implicit Types (k : K) (v : Z) (t : rows K).

Lemma seconds_of_upsert_add k k' v t :
  seconds_of k (upsert_add k' v t) =
  seconds_of k t + (if key_eqb k' k then v else 0).
Proof.
  induction t as [|[k0 v0] tl IH]; simpl.
  - now destruct (key_eqb k' k).
  - destruct (key_eqb k0 k') eqn:E; simpl.
    + apply key_eqb_eq in E. subst k0.
      destruct (key_eqb k' k); lia.
    + rewrite IH. destruct (key_eqb k0 k) eqn:E0; [|reflexivity].
      apply key_eqb_eq in E0. subst k0.
      destruct (key_eqb k' k) eqn:E1; [|lia].
      apply key_eqb_eq in E1. subst k'. rewrite key_eqb_refl in E.
      discriminate.
Qed.

Lemma key_sum_upsert_add k k' v t :
  key_sum k (upsert_add k' v t) =
  key_sum k t + (if key_eqb k' k then v else 0).
Proof.
  induction t as [|[k0 v0] tl IH]; simpl.
  - lia.
  - destruct (key_eqb k0 k') eqn:E; simpl.
    + apply key_eqb_eq in E. subst k0.
      destruct (key_eqb k' k); lia.
    + rewrite IH. lia.
Qed.

Lemma key_sum_app k t t' : key_sum k (t ++ t') = key_sum k t + key_sum k t'.
Proof. induction t as [|[k0 v0] tl IH]; simpl; lia. Qed.

(** An upsert seen through a projection of the key: the sum of the rows
    that project on [k] grows by [v] exactly when the new key does. *)
Lemma key_sum_map_upsert_add {K'} `{KeyOk K'} (p : K' -> K) k (k' : K') v
  (t : rows K') :
  key_sum k (map (fun r => (p (fst r), snd r)) (upsert_add k' v t)) =
  key_sum k (map (fun r => (p (fst r), snd r)) t)
  + (if key_eqb (p k') k then v else 0).
Proof.
  induction t as [|[k0 v0] tl IH]; simpl.
  - lia.
  - destruct (key_eqb k0 k') eqn:E; simpl.
    + apply key_eqb_eq in E. subst k0.
      destruct (key_eqb (p k') k); lia.
    + rewrite IH. lia.
Qed.

End CounterFacts.

(* ------------------------------------------------------------------ *)
(** ** [add_time] *)

(** The arguments of one call of [add_time]. *)
Record credit := mkCredit {
  c_user : Z;
  c_name : string;
  c_activity : string;
  c_seconds : Z;
  c_when : option time
}.

(** The seconds a list of calls passes for one user and activity. *)
Definition credited (user_id : Z) (activity : string) (calls : list credit) : Z :=
  sumZ (map c_seconds
          (filter (fun c => key_eqb (c_user c, c_activity c) (user_id, activity))
                  calls)).

Lemma credited_cons u a c calls :
  credited u a (c :: calls) =
  (if key_eqb (c_user c, c_activity c) (u, a) then c_seconds c else 0)
  + credited u a calls.
Proof.
  unfold credited. cbn [filter].
  destruct (key_eqb (c_user c, c_activity c) (u, a)); reflexivity.
Qed.

Section AddTime.
Variable utcoffset : time -> Z.

(** A sequence of calls of [add_time], in order. *)
Definition add_times (calls : list credit) : M unit :=
  for_each calls
    (fun c => add_time utcoffset (c_user c) (c_name c) (c_activity c)
                (c_seconds c) (c_when c)).

Lemma add_time_nonpositive user_id username activity seconds when w :
  seconds <= 0 ->
  add_time utcoffset user_id username activity seconds when w = (tt, w).
Proof.
  intros Hle. unfold add_time.
  destruct (Z.leb_spec seconds 0); [reflexivity|lia].
Qed.

(** The store a crediting call leaves: the three upserts, on the day of
    [when] or of the first reading. *)
Lemma store_add_time user_id username activity seconds when w :
  0 < seconds ->
  exists d updated_at,
    store (exec (add_time utcoffset user_id username activity seconds when) w) =
    mkStore
      (upsert_add (user_id, activity) seconds (totals (store w)))
      (upsert_add (user_id, activity, d) seconds (daily_totals (store w)))
      (Dict.setitem user_id (username, updated_at) (guild_usernames (store w))).
Proof.
  intros Hpos. unfold add_time.
  destruct (Z.leb_spec seconds 0); [lia|].
  destruct when as [t|]; unfold iso_date_local; unfold_m; eauto.
Qed.

Lemma active_add_time user_id username activity seconds when w :
  active (exec (add_time utcoffset user_id username activity seconds when) w) =
  active w.
Proof.
  unfold add_time. destruct (seconds <=? 0); [reflexivity|].
  destruct when; reflexivity.
Qed.

Lemma clock_add_time user_id username activity seconds when w :
  clock (exec (add_time utcoffset user_id username activity seconds when) w) =
  clock w.
Proof.
  unfold add_time. destruct (seconds <=? 0); [reflexivity|].
  destruct when; reflexivity.
Qed.

(** What one call does to the two counters of a user and an activity: both
    grow by [seconds] when the call is for them and [seconds] is positive,
    and neither moves otherwise. *)
Lemma add_time_counters user_id username activity seconds when w u a :
  let s' := store (exec (add_time utcoffset user_id username activity seconds when) w) in
  let delta :=
    if (0 <? seconds) && key_eqb (user_id, activity) (u, a) then seconds else 0 in
  total_seconds s' u a = total_seconds (store w) u a + delta /\
  daily_sum s' u a = daily_sum (store w) u a + delta.
Proof.
  intros s' delta. subst s' delta.
  destruct (Z.ltb_spec 0 seconds) as [Hpos|Hle]; simpl andb.
  - destruct (store_add_time user_id username activity seconds when w Hpos)
      as (d & upd & ->).
    unfold total_seconds, daily_sum. simpl totals. simpl daily_totals.
    rewrite seconds_of_upsert_add.
    rewrite (key_sum_map_upsert_add (fun k : Z * string * day => fst k)).
    split; reflexivity.
  - unfold exec. rewrite add_time_nonpositive by lia. simpl. lia.
Qed.

Lemma add_time_day_seconds user_id username activity seconds when w u a d :
  day_seconds (store w) u a d <=
  day_seconds
    (store (exec (add_time utcoffset user_id username activity seconds when) w))
    u a d.
Proof.
  destruct (Z.ltb_spec 0 seconds) as [Hpos|Hle].
  - destruct (store_add_time user_id username activity seconds when w Hpos)
      as (d' & upd & ->).
    unfold day_seconds. simpl daily_totals.
    rewrite seconds_of_upsert_add.
    destruct (key_eqb _ _); lia.
  - unfold exec. rewrite add_time_nonpositive by lia. simpl. lia.
Qed.

Lemma add_times_counters calls w u a :
  (forall c, In c calls -> c_user c = u -> c_activity c = a -> 0 < c_seconds c) ->
  total_seconds (store (exec (add_times calls) w)) u a =
    total_seconds (store w) u a + credited u a calls /\
  daily_sum (store (exec (add_times calls) w)) u a =
    daily_sum (store w) u a + credited u a calls.
Proof.
  revert w. induction calls as [|c tl IH]; intros w Hpos.
  - unfold credited, add_times, exec. simpl. split; lia.
  - unfold add_times in *. rewrite for_each_cons.
    destruct (IH (exec (add_time utcoffset (c_user c) (c_name c) (c_activity c)
                          (c_seconds c) (c_when c)) w)) as [IHt IHd].
    { intros c' Hin. apply Hpos. now right. }
    rewrite IHt, IHd.
    destruct (add_time_counters (c_user c) (c_name c) (c_activity c)
                (c_seconds c) (c_when c) w u a) as [Ht Hd].
    rewrite Ht, Hd, credited_cons.
    destruct (key_eqb (c_user c, c_activity c) (u, a)) eqn:E.
    + assert (Hc : 0 < c_seconds c).
      { apply key_eqb_eq in E. inversion E. apply Hpos; auto. now left. }
      destruct (Z.ltb_spec 0 (c_seconds c)); [|lia].
      simpl. split; lia.
    + rewrite andb_false_r. split; lia.
Qed.

End AddTime.

(** C3.  Additivity of [add_time].  Take any sequence of [add_time] calls in
    which every call for the user [u] and the activity [a] passes a positive
    number of seconds (calls for other users or activities may be mixed in
    and are unconstrained).  Then the [totals] counter of [(u, a)] grows by
    the sum of the seconds passed for [(u, a)], and so does the sum over all
    days of the [daily_totals] counters of [(u, a)]; starting from the empty
    store, the total equals that sum and the daily counters add up to it as
    well. *)
Theorem add_time_additivity (utcoffset : time -> Z) (w : world)
  (calls : list credit) (u : Z) (a : string) :
  (forall c, In c calls -> c_user c = u -> c_activity c = a -> 0 < c_seconds c) ->
  let s' := store (exec (add_times utcoffset calls) w) in
  (total_seconds s' u a = total_seconds (store w) u a + credited u a calls /\
   daily_sum s' u a = daily_sum (store w) u a + credited u a calls) /\
  (store w = empty_store ->
   total_seconds s' u a = credited u a calls /\
   daily_sum s' u a = credited u a calls).
Proof.
  intros Hpos s'. subst s'.
  destruct (add_times_counters utcoffset calls w u a Hpos) as [Ht Hd].
  split; [now split|].
  intros He. rewrite Ht, Hd, He. now split.
Qed.

(** C4.  [add_time] with [seconds <= 0] returns at once and leaves the world
    as it was: no row of [totals], [daily_totals] or [guild_usernames] is
    created or changed (and the clock is not even read).  Whatever the
    seconds passed, no stored counter ever goes down: every [totals] and
    every [daily_totals] value after a call is at least what it was. *)
Theorem add_time_nonpositive_noop (utcoffset : time -> Z) (w : world)
  (user_id : Z) (display_name activity : string) (seconds : Z)
  (when : option time) :
  let w' := exec (add_time utcoffset user_id display_name activity seconds when) w in
  (seconds <= 0 -> w' = w) /\
  (forall u a, total_seconds (store w) u a <= total_seconds (store w') u a) /\
  (forall u a d, day_seconds (store w) u a d <= day_seconds (store w') u a d).
Proof.
  intros w'. subst w'. split; [|split].
  - intros Hle. unfold exec. now rewrite add_time_nonpositive.
  - intros u a.
    destruct (add_time_counters utcoffset user_id display_name activity
                seconds when w u a) as [-> _].
    destruct (Z.ltb_spec 0 seconds); cbn [andb]; [|lia].
    destruct (key_eqb (user_id, activity) (u, a)); lia.
  - intros u a d. apply add_time_day_seconds.
Qed.

(* ------------------------------------------------------------------ *)
(** ** The heartbeat leaves the tracker alone *)

Section TrackerUntouched.
Variable utcoffset : time -> Z.

Lemma active_credit_member member w :
  active (exec (credit_member utcoffset member) w) = active w.
Proof.
  unfold credit_member. rewrite exec_bind. unfold_m.
  destruct (Dict.get (member_id member) (active w)) as [[|s tl]|];
    try reflexivity.
  apply (for_each_keeps active). intros x w'. apply active_add_time.
Qed.

Lemma active_heartbeat_tick guilds w :
  active (exec (heartbeat_tick utcoffset guilds) w) = active w.
Proof.
  apply (for_each_keeps active). intros guild w'.
  apply (for_each_keeps active). intros member w''.
  apply active_credit_member.
Qed.

Lemma active_heartbeat turns w :
  active (exec (heartbeat utcoffset turns) w) = active w.
Proof.
  apply (for_each_keeps active). intros guilds w'.
  apply active_heartbeat_tick.
Qed.

Lemma clock_credit_member member w :
  clock (exec (credit_member utcoffset member) w) = clock w.
Proof.
  unfold credit_member. rewrite exec_bind. unfold_m.
  destruct (Dict.get (member_id member) (active w)) as [[|s tl]|];
    try reflexivity.
  apply (for_each_keeps clock). intros x w'. apply clock_add_time.
Qed.

Lemma clock_heartbeat turns w :
  clock (exec (heartbeat utcoffset turns) w) = clock w.
Proof.
  apply (for_each_keeps clock). intros guilds w'.
  apply (for_each_keeps clock). intros guild w''.
  apply (for_each_keeps clock). intros member w3.
  apply clock_credit_member.
Qed.

End TrackerUntouched.

(* ------------------------------------------------------------------ *)
(** ** Calls that may come between two calls of the tracker *)

Inductive call :=
| call_start (user_id : Z) (activity : string)
| call_stop (user_id : Z) (activity : string)
| call_add_time (c : credit)
| call_tick (guilds : list Guild)
| call_presence (before after : Member).

(** Whether a call stops the session of user [u] in activity [a]: a direct
    [stop(u, a)], or a presence update of [u] whose previous activity is
    [a] and whose current one differs. *)
Definition stops (u : Z) (a : string) (c : call) : bool :=
  match c with
  | call_stop u' a' => key_eqb (u', a') (u, a)
  | call_presence before after =>
      key_eqb (member_id after) u
      && option_string_eqb (get_playing_name before) (Some a)
      && negb (option_string_eqb (get_playing_name before)
                                 (get_playing_name after))
  | _ => false
  end.

Section Calls.
Variable utcoffset : time -> Z.

Definition run_call (c : call) : M unit :=
  match c with
  | call_start u a => start u a
  | call_stop u a => stop u a ;; ret tt
  | call_add_time c =>
      add_time utcoffset (c_user c) (c_name c) (c_activity c) (c_seconds c)
               (c_when c)
  | call_tick guilds => heartbeat_tick utcoffset guilds
  | call_presence before after => on_presence_update utcoffset before after
  end.

Definition run_calls (l : list call) : M unit := for_each l run_call.

Lemma option_string_eqb_eq a b : option_string_eqb a b = true <-> a = b.
Proof.
  destruct a as [x|], b as [y|]; simpl; try (split; congruence).
  rewrite String.eqb_eq. split; congruence.
Qed.

(** The part of [on_presence_update] that closes the previous activity. *)
Definition close_previous (user_id : Z) (username : string)
  (before_name : option string) : M unit :=
  match before_name with
  | Some b =>
      if truthy before_name then
        elapsed <- stop user_id b ;;
        if 0 <? elapsed then add_time utcoffset user_id username b elapsed None
        else ret tt
      else ret tt
  | None => ret tt
  end.

(** The part of [on_presence_update] that opens the current activity. *)
Definition open_current (user_id : Z) (after_name : option string) : M unit :=
  match after_name with
  | Some a => if truthy after_name then start user_id a else ret tt
  | None => ret tt
  end.

Lemma on_presence_update_unfold before after w :
  exec (on_presence_update utcoffset before after) w =
  if option_string_eqb (get_playing_name before) (get_playing_name after)
  then w
  else exec (open_current (member_id after) (get_playing_name after))
         (exec (close_previous (member_id after) (member_str after)
                  (get_playing_name before)) w).
Proof.
  unfold on_presence_update.
  destruct (option_string_eqb _ _); [reflexivity|].
  now rewrite exec_bind.
Qed.

Lemma started_at_add_time u a c w :
  started_at u a
    (exec (add_time utcoffset (c_user c) (c_name c) (c_activity c)
             (c_seconds c) (c_when c)) w) = started_at u a w.
Proof. unfold started_at. now rewrite active_add_time. Qed.

Lemma started_at_close_previous u a user_id username before_name w :
  (user_id, before_name) <> (u, Some a) ->
  started_at u a (exec (close_previous user_id username before_name) w) =
  started_at u a w.
Proof.
  intros Hne. unfold close_previous.
  destruct before_name as [b|]; [|reflexivity].
  destruct (truthy (Some b)); [|reflexivity].
  rewrite exec_bind.
  assert (Hstop : started_at u a (exec (stop user_id b) w) = started_at u a w).
  { apply started_at_stop_other. congruence. }
  destruct (0 <? eval (stop user_id b) w); [|exact Hstop].
  unfold started_at in *. now rewrite active_add_time.
Qed.

Lemma started_at_open_current u a t user_id after_name w :
  started_at u a w = Some t ->
  started_at u a (exec (open_current user_id after_name) w) = Some t.
Proof.
  intros Hs. unfold open_current.
  destruct after_name as [x|]; [|exact Hs].
  destruct (truthy (Some x)); [|exact Hs].
  destruct (key_eqb_spec (user_id, x) (u, a)) as [E|E].
  - inversion E. subst. unfold exec. now rewrite (start_present _ _ _ _ Hs).
  - now rewrite started_at_start_other.
Qed.

(** A call that does not stop a session leaves its timestamp as it is. *)
Lemma started_at_run_call u a t c w :
  stops u a c = false ->
  started_at u a w = Some t ->
  started_at u a (exec (run_call c) w) = Some t.
Proof.
  intros Hc Hs. destruct c as [u' a'|u' a'|c|guilds|before after]; simpl in *.
  - destruct (key_eqb_spec (u', a') (u, a)) as [E|E].
    + inversion E. subst. unfold exec. now rewrite (start_present _ _ _ _ Hs).
    + now rewrite started_at_start_other.
  - rewrite exec_bind. unfold ret, exec at 1. simpl.
    rewrite started_at_stop_other; [exact Hs|].
    now apply (key_eqb_neq (u', a') (u, a)).
  - now rewrite started_at_add_time.
  - unfold started_at in *. now rewrite active_heartbeat_tick.
  - rewrite on_presence_update_unfold.
    destruct (option_string_eqb (get_playing_name before)
                                (get_playing_name after)) eqn:Esame;
      [exact Hs|].
    apply started_at_open_current.
    rewrite started_at_close_previous; [exact Hs|].
    intros E. inversion E as [[Eu Eb]]. subst.
    rewrite Eb in Hc. simpl in Hc.
    rewrite Z.eqb_refl, String.eqb_refl in Hc. discriminate.
Qed.

Lemma started_at_run_calls u a t l w :
  Forall (fun c => stops u a c = false) l ->
  started_at u a w = Some t ->
  started_at u a (exec (run_calls l) w) = Some t.
Proof.
  intros Hl. revert w. induction Hl as [|c tl Hc _ IH]; intros w Hs.
  - exact Hs.
  - unfold run_calls in *. rewrite for_each_cons.
    apply IH. now apply started_at_run_call.
Qed.

End Calls.

(** C5.  [start] is idempotent.  After [start(u, a)], let any calls follow
    that do not stop the session of [u] in [a] (other starts and stops,
    credits, heartbeat ticks, presence updates, or nothing at all).  The
    session then still carries the timestamp the first [start] gave it, and
    a second [start(u, a)] changes nothing whatsoever: neither the
    timestamp, nor any other session, nor the store, nor does it read the
    clock.  In particular two [start]s in a row leave the state of one. *)
Theorem start_idempotent (utcoffset : time -> Z) (w : world) (u : Z)
  (a : string) (others : list call) :
  Forall (fun c => stops u a c = false) others ->
  let w1 := exec (start u a) w in
  let w2 := exec (run_calls utcoffset others) w1 in
  started_at u a w2 = started_at u a w1 /\
  exec (start u a) w2 = w2 /\
  exec (start u a) w1 = w1.
Proof.
  intros Hothers w1 w2. subst w1 w2.
  pose proof (started_at_start u a w) as Hs.
  set (t := match started_at u a w with
            | Some t => t | None => clock w (taken w) end) in *.
  pose proof (started_at_run_calls utcoffset u a t others _ Hothers Hs) as Hs2.
  split; [congruence|]. split.
  - exact (exec_start_present _ _ _ _ Hs2).
  - exact (exec_start_present _ _ _ _ Hs).
Qed.

Lemma store_open_current user_id after_name w :
  store (exec (open_current user_id after_name) w) = store w.
Proof.
  unfold open_current. destruct after_name as [x|]; [|reflexivity].
  destruct (truthy (Some x)); [apply store_start|reflexivity].
Qed.

Lemma close_previous_no_session utcoffset user_id username b w :
  started_at user_id b w = None ->
  exec (close_previous utcoffset user_id username (Some b)) w = w.
Proof.
  intros Hs. unfold close_previous.
  destruct (truthy (Some b)); [|reflexivity].
  unfold exec, bind. now rewrite (stop_absent _ _ _ Hs).
Qed.

(** C6.  [stop] without an active session.  When [tracker.active] holds no
    session for [(u, a)], [stop(u, a)] returns 0 and leaves the world as it
    was: the session map is unchanged and so is the store.  A second
    [stop(u, a)] right after a first one is such a call, whatever the first
    one found.  The handler that calls [stop], [on_presence_update], then
    credits nothing: with no session for the activity it closes, it leaves
    the store as it was. *)
Theorem stop_without_session_noop (utcoffset : time -> Z) (w : world) (u : Z)
  (a : string) :
  (started_at u a w = None -> stop u a w = (0, w)) /\
  stop u a (exec (stop u a) w) = (0, exec (stop u a) w) /\
  (forall before after,
     member_id after = u ->
     get_playing_name before = Some a ->
     started_at u a w = None ->
     store (exec (on_presence_update utcoffset before after) w) = store w).
Proof.
  split; [apply stop_absent|]. split.
  - apply stop_absent, started_at_stop.
  - intros before after Hu Hb Hs.
    rewrite on_presence_update_unfold.
    destruct (option_string_eqb _ _); [reflexivity|].
    rewrite Hb, Hu, store_open_current.
    now rewrite close_previous_no_session.
Qed.

(* ------------------------------------------------------------------ *)
(** ** One heartbeat tick, as a list of credits *)

(** How many times a key occurs in a list. *)
Definition occurrences {K} `{Key K} (k : K) (l : list K) : Z :=
  sumZ (map (fun k' => if key_eqb k' k then 1 else 0) l).

(** The sessions [active] holds for a user ([{}] when it holds none). *)
Definition sessions_of (act : Dict.dict Z (Dict.dict string time)) (u : Z)
  : Dict.dict string time :=
  match Dict.get u act with Some s => s | None => [] end.

(** How many times a user is met when the members of all guilds are
    walked, one guild after the other. *)
Definition visits (u : Z) (guilds : list Guild) : Z :=
  occurrences u (map member_id (List.concat guilds)).

(** The [(user_id, activity)] keys one member's turn credits. *)
Definition member_keys (act : Dict.dict Z (Dict.dict string time))
  (member : Member) : list (Z * string) :=
  map (fun session => (member_id member, fst session))
      (sessions_of act (member_id member)).

(** The keys a whole tick credits, in order. *)
Definition tick_keys (guilds : list Guild)
  (act : Dict.dict Z (Dict.dict string time)) : list (Z * string) :=
  flat_map (member_keys act) (List.concat guilds).

(** Crediting [HEARTBEAT_SECONDS] to each key of a list, in order. *)
Definition credit_keys (keys : list (Z * string)) (t : rows (Z * string))
  : rows (Z * string) :=
  fold_left (fun t k => upsert_add k HEARTBEAT_SECONDS t) keys t.

(** The users of [active] with the activities of their sessions: [active]
    without its timestamps. *)
Definition session_keys (act : Dict.dict Z (Dict.dict string time))
  : list (Z * list string) :=
  map (fun us => (fst us, Dict.keys (snd us))) act.

Lemma occurrences_app {K} `{Key K} (k : K) l l' :
  occurrences k (l ++ l') = occurrences k l + occurrences k l'.
Proof. unfold occurrences. now rewrite map_app, sumZ_app. Qed.

Lemma occurrences_absent {K} `{KeyOk K} (k : K) l :
  ~ In k l -> occurrences k l = 0.
Proof.
  unfold occurrences. induction l as [|x tl IH]; simpl; intros Hn; [reflexivity|].
  destruct (key_eqb_spec x k) as [->|_]; [tauto|].
  rewrite IH; tauto.
Qed.

Lemma occurrences_NoDup {K} `{KeyOk K} (k : K) l :
  NoDup l -> In k l -> occurrences k l = 1.
Proof.
  induction 1 as [|x tl Hx Hnd IH]; simpl; intros Hin; [tauto|].
  change (occurrences k (x :: tl))
    with ((if key_eqb x k then 1 else 0) + occurrences k tl).
  destruct (key_eqb_spec x k) as [->|Hne].
  - rewrite occurrences_absent by assumption. reflexivity.
  - rewrite IH; [reflexivity|]. destruct Hin; congruence.
Qed.

Lemma get_In_keys {K V} `{KeyOk K} (k : K) (v : V) (d : Dict.dict K V) :
  Dict.get k d = Some v -> In k (Dict.keys d).
Proof.
  induction d as [|[k' v'] tl IH]; simpl; [discriminate|].
  destruct (key_eqb_spec k' k); [now left|]. intros E. right. auto.
Qed.

Lemma seconds_of_credit_keys k keys t :
  seconds_of k (credit_keys keys t) =
  seconds_of k t + HEARTBEAT_SECONDS * occurrences k keys.
Proof.
  unfold credit_keys. revert t.
  induction keys as [|k' tl IH]; intros t; cbn [fold_left].
  - change (occurrences k []) with 0. lia.
  - rewrite IH, seconds_of_upsert_add.
    change (occurrences k (k' :: tl))
      with ((if key_eqb k' k then 1 else 0) + occurrences k tl).
    destruct (key_eqb k' k); lia.
Qed.

Lemma occurrences_member_keys u a act member :
  occurrences (u, a) (member_keys act member) =
  if Z.eqb (member_id member) u
  then occurrences a (Dict.keys (sessions_of act u)) else 0.
Proof.
  unfold member_keys.
  destruct (Z.eqb_spec (member_id member) u) as [->|Hne].
  - induction (sessions_of act u) as [|[a' t'] tl IH]; [reflexivity|].
    simpl map.
    change (occurrences (u, a) ((u, a') :: map (fun s => (u, fst s)) tl))
      with ((if key_eqb (u, a') (u, a) then 1 else 0)
            + occurrences (u, a) (map (fun s => (u, fst s)) tl)).
    change (occurrences a (Dict.keys ((a', t') :: tl)))
      with ((if key_eqb a' a then 1 else 0) + occurrences a (Dict.keys tl)).
    rewrite IH. simpl. now rewrite Z.eqb_refl.
  - apply occurrences_absent. rewrite in_map_iff.
    intros (s & E & _). congruence.
Qed.

Lemma occurrences_tick_keys u a guilds act :
  occurrences (u, a) (tick_keys guilds act) =
  visits u guilds * occurrences a (Dict.keys (sessions_of act u)).
Proof.
  unfold tick_keys, visits.
  induction (List.concat guilds) as [|member tl IH]; [reflexivity|].
  simpl flat_map. simpl map.
  rewrite occurrences_app, IH, occurrences_member_keys.
  change (occurrences u (member_id member :: map member_id tl))
    with ((if key_eqb (member_id member) u then 1 else 0)
          + occurrences u (map member_id tl)).
  simpl key_eqb. destruct (member_id member =? u); lia.
Qed.

Lemma keys_sessions_of act act' u :
  session_keys act = session_keys act' ->
  Dict.keys (sessions_of act u) = Dict.keys (sessions_of act' u).
Proof.
  unfold session_keys, sessions_of.
  revert act'. induction act as [|[u0 s0] tl IH]; intros [|[u1 s1] tl'];
    simpl; try discriminate; [reflexivity|].
  intros E. inversion E as [[Eu Es Etl]]. subst u1.
  destruct (u0 =? u); [exact Es|]. now apply IH.
Qed.

Lemma tick_keys_session_keys guilds act act' :
  session_keys act = session_keys act' ->
  tick_keys guilds act = tick_keys guilds act'.
Proof.
  intros E. unfold tick_keys.
  induction (List.concat guilds) as [|member tl IH]; [reflexivity|].
  simpl. rewrite IH. f_equal.
  unfold member_keys.
  pose proof (keys_sessions_of act act' (member_id member) E) as Hk.
  unfold Dict.keys in Hk.
  rewrite <- (map_map fst (fun a => (member_id member, a))).
  rewrite <- (map_map fst (fun a => (member_id member, a))
                (sessions_of act' (member_id member))).
  now rewrite Hk.
Qed.

Section Heartbeat.
Variable utcoffset : time -> Z.

Lemma for_each_concat {A} (ll : list (list A)) (body : A -> M unit) w :
  exec (for_each ll (fun l => for_each l body)) w =
  exec (for_each (List.concat ll) body) w.
Proof.
  revert w. induction ll as [|l tl IH]; intros w; [reflexivity|].
  simpl List.concat. now rewrite for_each_cons, for_each_app, IH.
Qed.

Lemma totals_for_each_add_time user_id username
  (sessions : Dict.dict string time) w :
  totals (store (exec (for_each sessions
            (fun session => add_time utcoffset user_id username (fst session)
                              HEARTBEAT_SECONDS None)) w)) =
  credit_keys (map (fun session => (user_id, fst session)) sessions)
              (totals (store w)).
Proof.
  revert w. induction sessions as [|s tl IH]; intros w; [reflexivity|].
  rewrite for_each_cons, IH.
  destruct (store_add_time utcoffset user_id username (fst s)
              HEARTBEAT_SECONDS None w) as (d & upd & ->); [reflexivity|].
  reflexivity.
Qed.

Lemma totals_credit_member member w :
  totals (store (exec (credit_member utcoffset member) w)) =
  credit_keys (member_keys (active w) member) (totals (store w)).
Proof.
  unfold credit_member, member_keys, sessions_of.
  rewrite exec_bind. unfold get_active at 1 2. unfold eval, exec at 2. simpl.
  destruct (Dict.get (member_id member) (active w)) as [[|s tl]|];
    try reflexivity.
  apply totals_for_each_add_time.
Qed.

Lemma totals_for_each_credit_member members w :
  totals (store (exec (for_each members (credit_member utcoffset)) w)) =
  credit_keys (flat_map (member_keys (active w)) members) (totals (store w)).
Proof.
  revert w. induction members as [|m tl IH]; intros w; [reflexivity|].
  rewrite for_each_cons, IH, active_credit_member, totals_credit_member.
  simpl flat_map. unfold credit_keys. now rewrite fold_left_app.
Qed.

(** The [totals] table after a tick: [HEARTBEAT_SECONDS] credited to each
    key the tick meets, in order. *)
Lemma totals_heartbeat_tick guilds w :
  totals (store (exec (heartbeat_tick utcoffset guilds) w)) =
  credit_keys (tick_keys guilds (active w)) (totals (store w)).
Proof.
  unfold heartbeat_tick.
  rewrite (for_each_concat (guilds : list (list Member))
             (credit_member utcoffset)).
  apply totals_for_each_credit_member.
Qed.

(** What a tick adds to one counter. *)
Lemma total_seconds_heartbeat_tick guilds w u a :
  total_seconds (store (exec (heartbeat_tick utcoffset guilds) w)) u a =
  total_seconds (store w) u a
  + HEARTBEAT_SECONDS
    * (visits u guilds * occurrences a (Dict.keys (sessions_of (active w) u))).
Proof.
  unfold total_seconds.
  now rewrite totals_heartbeat_tick, seconds_of_credit_keys,
    occurrences_tick_keys.
Qed.

End Heartbeat.

(* ------------------------------------------------------------------ *)
(** ** A session from [start] to [stop] *)

Lemma keys_setitem_absent {K V} `{KeyOk K} (k : K) (v : V) (d : Dict.dict K V) :
  Dict.get k d = None -> Dict.keys (Dict.setitem k v d) = Dict.keys d ++ [k].
Proof.
  induction d as [|[k' v'] tl IH]; simpl; [reflexivity|].
  destruct (key_eqb k' k); [discriminate|].
  intros E. simpl. now rewrite IH.
Qed.

Lemma get_None_not_In {K V} `{KeyOk K} (k : K) (d : Dict.dict K V) :
  Dict.get k d = None -> ~ In k (Dict.keys d).
Proof.
  induction d as [|[k' v'] tl IH]; simpl; [tauto|].
  destruct (key_eqb_spec k' k); [discriminate|].
  intros E [->|Hin]; [congruence|]. now apply IH.
Qed.

Lemma sessions_of_start_new u a w :
  started_at u a w = None ->
  sessions_of (active (exec (start u a) w)) u =
  Dict.setitem a (clock w (taken w)) (sessions_of (active w) u).
Proof.
  unfold started_at, sessions_of, start. unfold_m.
  rewrite get_setdefault_same.
  destruct (Dict.get u (active w)) as [s|] eqn:Hu; intros Hs.
  - unfold Dict.contains. rewrite Hs. simpl. now rewrite get_setitem_same.
  - unfold Dict.contains. simpl. now rewrite get_setitem_same.
Qed.

Lemma clock_start u a w : clock (exec (start u a) w) = clock w.
Proof.
  unfold start. unfold_m.
  match goal with
  | |- context [match ?x with Some _ => _ | None => _ end] =>
      destruct x as [d|]; [|reflexivity]
  end.
  now destruct (Dict.contains a d).
Qed.

(** A session just opened is one entry of its user's sessions. *)
Lemma occurrences_after_start u a w :
  started_at u a w = None ->
  occurrences a (Dict.keys (sessions_of (active (exec (start u a) w)) u)) = 1.
Proof.
  intros Hs. rewrite (sessions_of_start_new _ _ _ Hs).
  unfold started_at, sessions_of in *.
  assert (Ha : Dict.get a (match Dict.get u (active w) with
                           | Some s => s | None => [] end) = None).
  { now destruct (Dict.get u (active w)). }
  rewrite keys_setitem_absent by exact Ha.
  rewrite occurrences_app, occurrences_absent by now apply get_None_not_In.
  unfold occurrences. simpl. now rewrite String.eqb_refl.
Qed.

Lemma get_playing_name_truthy member a :
  get_playing_name member = Some a -> truthy (Some a) = true.
Proof.
  unfold get_playing_name.
  induction (member_activities member) as [|act tl IH];
    cbn [get_playing_name_in]; [discriminate|].
  destruct (is_Activity act
            && existsb (ActivityType_eqb (act_type act)) TRACK_ACTIVITY_TYPES
            && truthy (act_name act)) eqn:E; [|exact IH].
  intros Ea. rewrite Ea in E.
  now apply andb_prop in E as [_ E].
Qed.

Section Session.
Variable utcoffset : time -> Z.

Lemma total_seconds_heartbeat turns w u a :
  Forall (fun guilds => visits u guilds = 1) turns ->
  occurrences a (Dict.keys (sessions_of (active w) u)) = 1 ->
  total_seconds (store (exec (heartbeat utcoffset turns) w)) u a =
  total_seconds (store w) u a
  + HEARTBEAT_SECONDS * Z.of_nat (List.length turns).
Proof.
  intros Hturns. revert w.
  induction Hturns as [|guilds tl Hv _ IH]; intros w Hocc.
  - unfold exec. simpl. lia.
  - unfold heartbeat in *. rewrite for_each_cons, IH.
    + rewrite total_seconds_heartbeat_tick, Hv, Hocc.
      simpl List.length. lia.
    + now rewrite active_heartbeat_tick.
Qed.

(** What [on_presence_update] adds to the counter of the activity it
    closes, when a session is active: the seconds [stop] returns, if
    positive. *)
Lemma total_seconds_close u a t before after w :
  member_id after = u ->
  get_playing_name before = Some a ->
  get_playing_name after <> Some a ->
  started_at u a w = Some t ->
  total_seconds (store (exec (on_presence_update utcoffset before after) w)) u a =
  total_seconds (store w) u a + Z.max 0 (eval (stop u a) w).
Proof.
  intros Hu Hb Ha Hs.
  rewrite on_presence_update_unfold, Hb, Hu.
  destruct (option_string_eqb (Some a) (get_playing_name after)) eqn:E.
  { apply option_string_eqb_eq in E. congruence. }
  rewrite store_open_current. unfold close_previous.
  rewrite (get_playing_name_truthy before a Hb), exec_bind.
  destruct (Z.ltb_spec 0 (eval (stop u a) w)) as [Hpos|Hle].
  - destruct (add_time_counters utcoffset u (member_str after) a
                (eval (stop u a) w) None (exec (stop u a) w) u a) as [-> _].
    rewrite store_stop.
    destruct (Z.ltb_spec 0 (eval (stop u a) w)); [|lia].
    rewrite key_eqb_refl. simpl. lia.
  - unfold exec at 1. simpl. rewrite store_stop. lia.
Qed.

End Session.

(** C1, as the code has it.  Let a session of user [u] in activity [a] be
    opened by [start] (no session being active before), let any number of
    heartbeat ticks follow, each meeting [u] once in the guild rosters, and
    let [on_presence_update] then close the session.  The value [stop]
    returns is the whole seconds between the reading of the clock at
    [start] and the reading at [stop]: it is counted from the original
    session start, and the heartbeat credits in between do not move the
    stored timestamp.  The counter of [(u, a)] has then received
    [HEARTBEAT_SECONDS] per tick and, on top, the full elapsed time of the
    session (if positive).  For a start at t=0, one tick at t=60 and a stop
    at t=90 that is 60 + 90 = 150 seconds. *)
Theorem stop_elapsed_counts_from_session_start (utcoffset : time -> Z)
  (w : world) (u : Z) (a : string) (turns : list (list Guild))
  (before after : Member) :
  started_at u a w = None ->
  Forall (fun guilds => visits u guilds = 1) turns ->
  member_id after = u ->
  get_playing_name before = Some a ->
  get_playing_name after <> Some a ->
  let w1 := exec (start u a) w in
  let w2 := exec (heartbeat utcoffset turns) w1 in
  let w3 := exec (on_presence_update utcoffset before after) w2 in
  let elapsed := whole_seconds (clock w (taken w2) - clock w (taken w)) in
  eval (stop u a) w2 = elapsed /\
  total_seconds (store w2) u a =
    total_seconds (store w) u a
    + HEARTBEAT_SECONDS * Z.of_nat (List.length turns) /\
  total_seconds (store w3) u a =
    total_seconds (store w) u a
    + HEARTBEAT_SECONDS * Z.of_nat (List.length turns) + Z.max 0 elapsed.
Proof.
  intros Hnone Hturns Hu Hb Ha w1 w2 w3 elapsed.
  assert (Hs1 : started_at u a w1 = Some (clock w (taken w))).
  { subst w1. rewrite started_at_start. now rewrite Hnone. }
  assert (Hs2 : started_at u a w2 = Some (clock w (taken w))).
  { subst w2. unfold started_at in *. now rewrite active_heartbeat. }
  assert (Hstop : eval (stop u a) w2 = elapsed).
  { rewrite (stop_present _ _ _ _ Hs2). subst elapsed w2 w1.
    now rewrite clock_heartbeat, clock_start. }
  assert (Ht2 : total_seconds (store w2) u a =
                total_seconds (store w) u a
                + HEARTBEAT_SECONDS * Z.of_nat (List.length turns)).
  { subst w2. rewrite total_seconds_heartbeat; trivial.
    - subst w1. now rewrite store_start.
    - subst w1. now apply occurrences_after_start. }
  split; [exact Hstop|]. split; [exact Ht2|].
  subst w3.
  rewrite (total_seconds_close utcoffset u a _ before after w2 Hu Hb Ha Hs2).
  now rewrite Ht2, Hstop.
Qed.

(** C10, as the code has it.  A heartbeat tick walks the members of the
    guilds, one guild after the other, and for each member met credits
    [HEARTBEAT_SECONDS] to each of that member's active sessions: the
    [totals] table after the tick is the table before it with
    [HEARTBEAT_SECONDS] credited to each key so met.  Neither the clock nor
    the timestamps of the sessions enter the amounts: two worlds whose
    session maps agree up to the timestamps, and whose [totals] agree, have
    the same [totals] after the tick.  An active session whose user is met
    exactly once is credited exactly [HEARTBEAT_SECONDS]; the sessions of a
    user who is not met are not credited. *)
Theorem heartbeat_credits_fixed_amount (utcoffset : time -> Z) (w : world)
  (guilds : list Guild) :
  totals (store (exec (heartbeat_tick utcoffset guilds) w)) =
    credit_keys (tick_keys guilds (active w)) (totals (store w)) /\
  (forall w',
     session_keys (active w') = session_keys (active w) ->
     totals (store w') = totals (store w) ->
     totals (store (exec (heartbeat_tick utcoffset guilds) w')) =
     totals (store (exec (heartbeat_tick utcoffset guilds) w))) /\
  (forall u a t,
     started_at u a w = Some t ->
     Dict.wf (sessions_of (active w) u) ->
     visits u guilds = 1 ->
     total_seconds (store (exec (heartbeat_tick utcoffset guilds) w)) u a =
     total_seconds (store w) u a + HEARTBEAT_SECONDS) /\
  (forall u a,
     visits u guilds = 0 ->
     total_seconds (store (exec (heartbeat_tick utcoffset guilds) w)) u a =
     total_seconds (store w) u a).
Proof.
  split; [apply totals_heartbeat_tick|]. split; [|split].
  - intros w' Hk Ht. rewrite !totals_heartbeat_tick, Ht.
    now rewrite (tick_keys_session_keys guilds _ _ Hk).
  - intros u a t Hs Hwf Hv.
    rewrite total_seconds_heartbeat_tick, Hv.
    rewrite occurrences_NoDup; [lia|exact Hwf|].
    unfold started_at, sessions_of in *.
    destruct (Dict.get u (active w)); [|discriminate].
    now apply get_In_keys with t.
  - intros u a Hv. rewrite total_seconds_heartbeat_tick, Hv. lia.
Qed.

(* ------------------------------------------------------------------ *)
(** ** Grouping *)

Section GroupFacts.
Context {K : Type} `{KeyOk K}.
Implicit Types (k : K) (v : Z) (t l : rows K).

Definition grouping_step (acc : rows K) (kv : K * Z) : rows K :=
  upsert_add (fst kv) (snd kv) acc.

Lemma In_keys_upsert_add k k' v t :
  In k' (map fst (upsert_add k v t)) <-> In k' (map fst t) \/ k' = k.
Proof.
  induction t as [|[k0 v0] tl IH]; simpl.
  - split; intros [E|E]; auto; tauto.
  - destruct (key_eqb_spec k0 k) as [->|Hne]; simpl.
    + split; [tauto|]. intros [E|E]; auto.
    + rewrite IH. tauto.
Qed.

Lemma NoDup_keys_upsert_add k v t :
  NoDup (map fst t) -> NoDup (map fst (upsert_add k v t)).
Proof.
  induction t as [|[k0 v0] tl IH]; simpl; intros Hnd.
  - constructor; [tauto|constructor].
  - inversion Hnd as [|x xs Hx Hnd']; subst.
    destruct (key_eqb_spec k0 k) as [->|Hne]; simpl.
    + now constructor.
    + constructor; [|auto].
      rewrite In_keys_upsert_add. intros [E|E]; [tauto|congruence].
Qed.

Lemma In_keys_fold k l acc :
  In k (map fst (fold_left grouping_step l acc)) <->
  In k (map fst acc) \/ In k (map fst l).
Proof.
  revert acc. induction l as [|[k0 v0] tl IH]; intros acc; simpl.
  - tauto.
  - rewrite IH. unfold grouping_step. simpl.
    rewrite In_keys_upsert_add. split; intros; intuition congruence.
Qed.

Lemma NoDup_keys_fold l acc :
  NoDup (map fst acc) -> NoDup (map fst (fold_left grouping_step l acc)).
Proof.
  revert acc. induction l as [|[k0 v0] tl IH]; intros acc Hnd; simpl; auto.
  apply IH. now apply NoDup_keys_upsert_add.
Qed.

Lemma seconds_of_fold k l acc :
  seconds_of k (fold_left grouping_step l acc) =
  seconds_of k acc + key_sum k l.
Proof.
  revert acc. induction l as [|[k0 v0] tl IH]; intros acc; simpl.
  - lia.
  - rewrite IH. unfold grouping_step. simpl.
    rewrite seconds_of_upsert_add. lia.
Qed.

Lemma key_sum_fold k l acc :
  key_sum k (fold_left grouping_step l acc) = key_sum k acc + key_sum k l.
Proof.
  revert acc. induction l as [|[k0 v0] tl IH]; intros acc; simpl.
  - lia.
  - rewrite IH. unfold grouping_step. simpl.
    rewrite key_sum_upsert_add. lia.
Qed.

(** In a table with one row per key, a row is its key and what
    [seconds_of] finds for it. *)
Lemma In_NoDup_keys k v t :
  NoDup (map fst t) ->
  (In (k, v) t <-> In k (map fst t) /\ v = seconds_of k t).
Proof.
  induction t as [|[k0 v0] tl IH]; simpl; intros Hnd.
  - tauto.
  - inversion Hnd as [|x xs Hx Hnd']; subst.
    specialize (IH Hnd').
    destruct (key_eqb_spec k0 k) as [->|Hne].
    + split.
      * intros [E|Hin]; [inversion E; auto|].
        exfalso. apply Hx. apply IH in Hin. tauto.
      * intros [_ ->]. now left.
    + split.
      * intros [E|Hin]; [congruence|]. apply IH in Hin. tauto.
      * intros [[E|Hin] Hv]; [congruence|]. right. apply IH. tauto.
Qed.

Lemma group_sum_keys k l : In k (map fst (group_sum l)) <-> In k (map fst l).
Proof.
  unfold group_sum. change (fun acc kv => upsert_add (fst kv) (snd kv) acc)
    with grouping_step.
  rewrite In_keys_fold. simpl. tauto.
Qed.

Lemma group_sum_NoDup l : NoDup (map fst (group_sum l)).
Proof. apply NoDup_keys_fold. constructor. Qed.

Lemma seconds_of_group_sum k l : seconds_of k (group_sum l) = key_sum k l.
Proof. apply seconds_of_fold. Qed.

(** Grouping keeps, for every key, the sum of its rows. *)
Lemma key_sum_group_sum k l : key_sum k (group_sum l) = key_sum k l.
Proof. apply key_sum_fold. Qed.

Lemma key_sum_Permutation k l l' :
  Permutation l l' -> key_sum k l = key_sum k l'.
Proof.
  induction 1 as [|[k0 v0] l l' _ IH|[k0 v0] [k1 v1] l|l l' l'' _ IH1 _ IH2];
    simpl; lia.
Qed.


End GroupFacts.

(* ------------------------------------------------------------------ *)
(** ** Ranking *)

(** Non-increasing by seconds. *)
Definition by_seconds_desc {A} (x y : A * Z) : Prop := snd y <= snd x.

Lemma In_firstn {A} (x : A) n (l : list A) : In x (firstn n l) -> In x l.
Proof.
  revert n. induction l as [|y tl IH]; intros [|n]; simpl; try tauto.
  intros [E|Hin]; [now left|right; eauto].
Qed.

Section RankingFacts.
Context {A : Type} `{KeyOrder A}.
Implicit Types (x : A * Z) (l : list (A * Z)).

Lemma insert_key_Permutation x l : Permutation (insert_key x l) (x :: l).
Proof.
  induction l as [|y tl IH]; simpl; [reflexivity|].
  destruct (key_leb (fst x) (fst y)); [reflexivity|].
  rewrite IH. apply perm_swap.
Qed.

Lemma index_order_Permutation l : Permutation (index_order l) l.
Proof.
  induction l as [|x tl IH]; simpl; [reflexivity|].
  rewrite insert_key_Permutation. now constructor.
Qed.

Lemma insert_desc_Permutation x l : Permutation (insert_desc x l) (x :: l).
Proof.
  induction l as [|y tl IH]; simpl; [reflexivity|].
  destruct (snd y <=? snd x); [reflexivity|].
  rewrite IH. apply perm_swap.
Qed.

Lemma order_by_seconds_desc_Permutation l :
  Permutation (order_by_seconds_desc l) l.
Proof.
  induction l as [|x tl IH]; simpl; [reflexivity|].
  rewrite insert_desc_Permutation. now constructor.
Qed.

Lemma insert_desc_sorted x l :
  StronglySorted by_seconds_desc l ->
  StronglySorted by_seconds_desc (insert_desc x l).
Proof.
  induction 1 as [|y tl Hs IH Hy]; simpl.
  - constructor; constructor.
  - destruct (Z.leb_spec (snd y) (snd x)) as [Hle|Hgt].
    + constructor; [now constructor|].
      constructor; [exact Hle|].
      rewrite Forall_forall in *. intros z Hz. specialize (Hy z Hz).
      unfold by_seconds_desc in *. lia.
    + constructor; [exact IH|].
      rewrite Forall_forall in *. intros z Hz.
      apply (Permutation_in _ (insert_desc_Permutation x tl)) in Hz.
      destruct Hz as [<-|Hz]; [unfold by_seconds_desc; lia|auto].
Qed.

Lemma order_by_seconds_desc_sorted l :
  StronglySorted by_seconds_desc (order_by_seconds_desc l).
Proof.
  induction l as [|x tl IH]; simpl; [constructor|].
  now apply insert_desc_sorted.
Qed.

Lemma firstn_sorted n l :
  StronglySorted by_seconds_desc l ->
  StronglySorted by_seconds_desc (firstn n l).
Proof.
  intros Hs. revert n. induction Hs as [|y tl Hs IH Hy]; intros [|n]; simpl;
    try constructor; auto.
  rewrite Forall_forall in *. intros z Hz. apply Hy.
  revert Hz. apply In_firstn.
Qed.

Lemma ranked_sorted limit l : StronglySorted by_seconds_desc (ranked limit l).
Proof.
  unfold ranked, sql_limit. destruct (limit <? 0).
  - apply order_by_seconds_desc_sorted.
  - apply firstn_sorted, order_by_seconds_desc_sorted.
Qed.

Lemma ranked_In limit l x : In x (ranked limit l) -> In x l.
Proof.
  unfold ranked, sql_limit. intros Hin.
  apply (Permutation_in _ (index_order_Permutation l)).
  apply (Permutation_in _ (order_by_seconds_desc_Permutation _)).
  destruct (limit <? 0); [exact Hin|]. revert Hin. apply In_firstn.
Qed.

Lemma ranked_length limit l :
  0 <= limit -> Z.of_nat (List.length (ranked limit l)) <= limit.
Proof.
  intros Hl. unfold ranked, sql_limit.
  destruct (Z.ltb_spec limit 0); [lia|].
  pose proof (firstn_le_length (Z.to_nat limit)
                (order_by_seconds_desc (index_order l))).
  lia.
Qed.

(** With a negative limit every row comes back. *)
Lemma ranked_unlimited limit l :
  limit < 0 -> Permutation (ranked limit l) l.
Proof.
  intros Hl. unfold ranked, sql_limit.
  destruct (Z.ltb_spec limit 0); [|lia].
  rewrite order_by_seconds_desc_Permutation. apply index_order_Permutation.
Qed.

(** A limit cuts the rows off the result without one. *)
Lemma ranked_limit limit l : ranked limit l = sql_limit limit (ranked (-1) l).
Proof. reflexivity. Qed.

End RankingFacts.

(* ------------------------------------------------------------------ *)
(** ** The queries, evaluated *)

Definition outcome_map {A B} (f : A -> B) (o : outcome A) : outcome B :=
  match o with
  | Returns a => Returns (f a)
  | Raises e => Raises e
  end.

Section Queries.
Variable utcoffset : time -> Z.

(** The local date of the [n]-th reading of the clock from now. *)
Definition reading_date (w : world) (n : nat) : day :=
  date_of (to_local utcoffset (clock w (taken w + n)%nat)).

(** The window of days a query uses for a period other than "all": its end
    is the date of the first reading; for "week" and "month" its start
    comes from a second reading. *)
Definition query_window (period : string) (w : world) : outcome (day * day) :=
  let end_ := reading_date w 0 in
  if String.eqb period "today" then Returns (end_, end_)
  else if String.eqb period "week" then
    outcome_map (fun start => (start, end_)) (date_sub (reading_date w 1) 6)
  else if String.eqb period "month" then
    outcome_map (fun start => (start, end_)) (date_sub (reading_date w 1) 29)
  else Returns (FALLBACK_START, end_).

Lemma eval_top_activities_all user_id limit w :
  eval (top_activities utcoffset user_id "all" limit) w =
  Returns (top_all user_id limit (store w)).
Proof. reflexivity. Qed.

Lemma eval_top_activities_window user_id period limit w :
  period <> "all"%string ->
  eval (top_activities utcoffset user_id period limit) w =
  outcome_map
    (fun win => top_window user_id (fst win) (snd win) limit (store w))
    (query_window period w).
Proof.
  intros Hp. unfold top_activities, query_window, window_start, reading_date.
  apply String.eqb_neq in Hp. rewrite Hp.
  rewrite Nat.add_0_r, Nat.add_1_r.
  destruct (String.eqb period "today"); [reflexivity|].
  destruct (String.eqb period "week").
  { unfold iso_date_local. unfold_m. now destruct (date_sub _ 6). }
  destruct (String.eqb period "month").
  { unfold iso_date_local. unfold_m. now destruct (date_sub _ 29). }
  reflexivity.
Qed.

Lemma eval_leaderboard_empty activity period limit w :
  eval (leaderboard utcoffset [] activity period limit) w = Returns [].
Proof. reflexivity. Qed.

Lemma eval_leaderboard_all ids activity limit w :
  ids <> [] ->
  eval (leaderboard utcoffset ids activity "all" limit) w =
  Returns (leaderboard_all ids activity limit (store w)).
Proof. destruct ids; [congruence|reflexivity]. Qed.

Lemma eval_leaderboard_window ids activity period limit w :
  ids <> [] ->
  period <> "all"%string ->
  eval (leaderboard utcoffset ids activity period limit) w =
  outcome_map
    (fun win => leaderboard_window ids activity (fst win) (snd win) limit
                  (store w))
    (query_window period w).
Proof.
  intros Hids Hp. destruct ids as [|id ids]; [congruence|].
  unfold leaderboard, query_window, window_start, reading_date.
  apply String.eqb_neq in Hp. rewrite Hp.
  rewrite Nat.add_0_r, Nat.add_1_r.
  destruct (String.eqb period "today"); [reflexivity|].
  destruct (String.eqb period "week").
  { unfold iso_date_local. unfold_m. now destruct (date_sub _ 6). }
  destruct (String.eqb period "month").
  { unfold iso_date_local. unfold_m. now destruct (date_sub _ 29). }
  reflexivity.
Qed.

End Queries.

(* ------------------------------------------------------------------ *)
(** ** The leaderboard *)

Lemma in_ids_In ids u : in_ids ids u = true -> In u ids.
Proof.
  unfold in_ids. rewrite existsb_exists.
  intros (x & Hin & E). apply Z.eqb_eq in E. now subst.
Qed.

Lemma joined_totals_user ids keep s row :
  In row (joined_totals ids keep s) -> In (fst (fst row)) ids.
Proof.
  unfold joined_totals. rewrite in_flat_map. intros (r & _ & Hin).
  destruct (Dict.get (fst (fst r)) (guild_usernames s)); [|destruct Hin].
  destruct (in_ids ids (fst (fst r))) eqn:E; simpl in Hin; [|destruct Hin].
  destruct (keep (snd (fst r))); simpl in Hin; [|destruct Hin].
  destruct Hin as [<-|[]]. simpl. now apply in_ids_In.
Qed.

Lemma joined_daily_user ids keep start end_ s row :
  In row (joined_daily ids keep start end_ s) -> In (fst (fst row)) ids.
Proof.
  unfold joined_daily. rewrite in_flat_map. intros (r & _ & Hin).
  destruct (Dict.get (fst (fst (fst r))) (guild_usernames s)); [|destruct Hin].
  destruct (in_ids ids (fst (fst (fst r)))) eqn:E; simpl in Hin;
    [|destruct Hin].
  destruct (keep (snd (fst (fst r))) && between start end_ (snd (fst r)));
    simpl in Hin; [|destruct Hin].
  destruct Hin as [<-|[]]. simpl. now apply in_ids_In.
Qed.

(** The user of a group is the user of one of the grouped rows. *)
Lemma group_sum_user (l : rows (Z * string)) (ids : list Z) row :
  (forall r, In r l -> In (fst (fst r)) ids) ->
  In row (group_sum l) -> In (fst (fst row)) ids.
Proof.
  intros Hl Hin.
  assert (Hk : In (fst row) (map fst (group_sum l))) by now apply in_map.
  apply (proj1 (group_sum_keys _ _)) in Hk.
  apply in_map_iff in Hk as (r & <- & Hr).
  now apply Hl.
Qed.

Lemma leaderboard_all_user ids activity limit s row :
  In row (leaderboard_all ids activity limit s) -> In (fst (fst row)) ids.
Proof.
  unfold leaderboard_all. intros Hin.
  destruct activity as [a|]; [destruct (truthy (Some a))|];
    apply ranked_In in Hin.
  - now apply joined_totals_user in Hin.
  - revert Hin. apply group_sum_user. apply joined_totals_user.
  - revert Hin. apply group_sum_user. apply joined_totals_user.
Qed.

Lemma leaderboard_window_user ids activity start end_ limit s row :
  In row (leaderboard_window ids activity start end_ limit s) ->
  In (fst (fst row)) ids.
Proof.
  unfold leaderboard_window. intros Hin.
  destruct activity as [a|]; [destruct (truthy (Some a))|];
    apply ranked_In in Hin; revert Hin; apply group_sum_user;
    apply joined_daily_user.
Qed.

Lemma leaderboard_all_ranked ids activity limit s :
  exists l, leaderboard_all ids activity limit s = ranked limit l.
Proof.
  unfold leaderboard_all.
  destruct activity as [a|]; [destruct (truthy (Some a))|]; eauto.
Qed.

Lemma leaderboard_window_ranked ids activity start end_ limit s :
  exists l, leaderboard_window ids activity start end_ limit s = ranked limit l.
Proof.
  unfold leaderboard_window.
  destruct activity as [a|]; [destruct (truthy (Some a))|]; eauto.
Qed.

(** C8, as the code has it.  Whenever [leaderboard] returns, its rows are
    ordered non-increasing by seconds and every user id in them is one of the
    ids supplied; with no id supplied the result is empty.  The number of
    rows does not exceed [limit] when [limit] is not negative: the code
    hands [limit] to [LIMIT ?] as it is, and a negative [LIMIT] bounds
    nothing. *)
Theorem leaderboard_sorted_bounded_restricted (utcoffset : time -> Z)
  (w : world) (user_ids : list Z) (activity : option string) (period : string)
  (limit : Z) (result : list (Z * string * Z)) :
  eval (leaderboard utcoffset user_ids activity period limit) w = Returns result ->
  StronglySorted by_seconds_desc result /\
  (0 <= limit -> Z.of_nat (List.length result) <= limit) /\
  (forall row, In row result -> In (fst (fst row)) user_ids) /\
  (user_ids = [] -> result = []).
Proof.
  intros Hres.
  destruct user_ids as [|id ids].
  { rewrite eval_leaderboard_empty in Hres. inversion Hres. subst.
    repeat split; try constructor; simpl; intros; try lia; tauto. }
  assert (Hne : id :: ids <> []) by discriminate.
  assert (Hshape : (exists l, result = ranked limit l) /\
                   forall row, In row result -> In (fst (fst row)) (id :: ids)).
  { destruct (String.eqb_spec period "all") as [->|Hp].
    - rewrite eval_leaderboard_all in Hres by exact Hne.
      inversion Hres. split.
      + apply leaderboard_all_ranked.
      + intros row. apply leaderboard_all_user.
    - rewrite eval_leaderboard_window in Hres by assumption.
      destruct (query_window utcoffset period w) as [[start end_]|e];
        simpl in Hres; [|discriminate].
      inversion Hres. split.
      + apply leaderboard_window_ranked.
      + intros row. apply leaderboard_window_user. }
  destruct Hshape as [[l ->] Husers].
  split; [apply ranked_sorted|]. split; [apply ranked_length|].
  split; [exact Husers|discriminate].
Qed.

(* ------------------------------------------------------------------ *)
(** ** The window of days *)

(** The world with other rows in [daily_totals]. *)
Definition with_daily (w : world) (daily : rows (Z * string * day)) : world :=
  mkWorld (clock w) (taken w)
          (mkStore (totals (store w)) daily (guild_usernames (store w)))
          (active w).

(** The test on [activity] a [leaderboard] query carries. *)
Definition keep_of (activity : option string) : string -> bool :=
  match activity with
  | Some a => if truthy activity then String.eqb a else any_activity
  | None => any_activity
  end.

Lemma leaderboard_window_keep_of ids activity start end_ limit s :
  leaderboard_window ids activity start end_ limit s =
  ranked limit (group_sum (joined_daily ids (keep_of activity) start end_ s)).
Proof.
  unfold leaderboard_window, keep_of.
  destruct activity as [a|]; [destruct (truthy (Some a))|]; reflexivity.
Qed.

Lemma key_sum_ranked_group {K} `{KeyOk K} `{KeyOrder K} (k : K) limit
  (l : rows K) :
  limit < 0 -> key_sum k (ranked limit (group_sum l)) = key_sum k l.
Proof.
  intros Hl.
  rewrite (key_sum_Permutation k _ _ (ranked_unlimited limit _ Hl)).
  apply key_sum_group_sum.
Qed.

Lemma filter_skip {A} (f : A -> bool) (l1 l2 : list A) (x : A) :
  f x = false -> filter f (l1 ++ x :: l2) = filter f (l1 ++ l2).
Proof. intros E. rewrite !filter_app. simpl. now rewrite E. Qed.

Lemma flat_map_skip {A B} (g : A -> list B) (l1 l2 : list A) (x : A) :
  g x = [] -> flat_map g (l1 ++ x :: l2) = flat_map g (l1 ++ l2).
Proof. intros E. rewrite !flat_map_app. simpl. now rewrite E. Qed.

Section Window.
Variable utcoffset : time -> Z.

(** Deleting a row outside the window changes no windowed query. *)
Lemma top_window_skip user_id start end_ limit w rows1 rows2 r :
  between start end_ (snd (fst r)) = false ->
  top_window user_id start end_ limit (store (with_daily w (rows1 ++ r :: rows2))) =
  top_window user_id start end_ limit (store (with_daily w (rows1 ++ rows2))).
Proof.
  intros Hout. unfold top_window, daily_of_user. simpl daily_totals.
  rewrite filter_skip; [reflexivity|].
  rewrite Hout. apply andb_false_r.
Qed.

Lemma leaderboard_window_skip ids activity start end_ limit w rows1 rows2 r :
  between start end_ (snd (fst r)) = false ->
  leaderboard_window ids activity start end_ limit
    (store (with_daily w (rows1 ++ r :: rows2))) =
  leaderboard_window ids activity start end_ limit
    (store (with_daily w (rows1 ++ rows2))).
Proof.
  intros Hout. rewrite !leaderboard_window_keep_of.
  unfold joined_daily. simpl daily_totals. simpl guild_usernames.
  rewrite flat_map_skip; [reflexivity|].
  destruct (Dict.get _ _); [|reflexivity].
  rewrite Hout. now rewrite andb_false_r.
Qed.

(** A row inside the window adds its seconds to what the query reports
    for its activity. *)
Lemma top_window_counts user_id activity d seconds start end_ limit w
  rows1 rows2 :
  between start end_ d = true ->
  limit < 0 ->
  key_sum activity
    (top_window user_id start end_ limit
       (store (with_daily w (rows1 ++ ((user_id, activity, d), seconds) :: rows2)))) =
  key_sum activity
    (top_window user_id start end_ limit (store (with_daily w (rows1 ++ rows2))))
  + seconds.
Proof.
  intros Hin Hl. unfold top_window.
  rewrite !key_sum_ranked_group by exact Hl.
  unfold daily_of_user. simpl daily_totals.
  rewrite !filter_app, !map_app, !key_sum_app. simpl filter.
  rewrite Z.eqb_refl, Hin. simpl. rewrite String.eqb_refl. lia.
Qed.

Lemma leaderboard_window_counts ids activity_opt user_id name updated_at
  activity d seconds start end_ limit w rows1 rows2 :
  between start end_ d = true ->
  limit < 0 ->
  In user_id ids ->
  Dict.get user_id (guild_usernames (store w)) = Some (name, updated_at) ->
  keep_of activity_opt activity = true ->
  key_sum (user_id, name)
    (leaderboard_window ids activity_opt start end_ limit
       (store (with_daily w (rows1 ++ ((user_id, activity, d), seconds) :: rows2)))) =
  key_sum (user_id, name)
    (leaderboard_window ids activity_opt start end_ limit
       (store (with_daily w (rows1 ++ rows2))))
  + seconds.
Proof.
  intros Hin Hl Hids Hname Hkeep. rewrite !leaderboard_window_keep_of.
  rewrite !key_sum_ranked_group by exact Hl.
  unfold joined_daily. simpl daily_totals. simpl guild_usernames.
  rewrite !flat_map_app, !key_sum_app. simpl flat_map.
  rewrite Hname, Hkeep, Hin.
  assert (Hi : in_ids ids user_id = true).
  { unfold in_ids. apply existsb_exists. exists user_id.
    split; [exact Hids|apply Z.eqb_refl]. }
  rewrite Hi. simpl. rewrite Z.eqb_refl, String.eqb_refl. simpl. lia.
Qed.

(** The window depends on the clock only. *)
Lemma query_window_with_daily period w daily :
  query_window utcoffset period (with_daily w daily) =
  query_window utcoffset period w.
Proof. reflexivity. Qed.

(** The two readings of a "week" query: the first dates the end of the
    window, the second, six days back, its start. *)
Lemma query_window_week_readings w :
  6 < reading_date utcoffset w 1 <= MAXORDINAL ->
  query_window utcoffset "week" w =
  Returns (reading_date utcoffset w 1 - 6, reading_date utcoffset w 0).
Proof.
  intros Hr. unfold query_window. simpl String.eqb. cbv iota. unfold date_sub.
  destruct (Z.ltb_spec 0 (reading_date utcoffset w 1 - 6)); [|lia].
  destruct (Z.leb_spec (reading_date utcoffset w 1 - 6) MAXORDINAL);
    [reflexivity|lia].
Qed.

Lemma between_outside start end_ d :
  d < start \/ end_ < d -> between start end_ d = false.
Proof.
  intros Hd. unfold between.
  destruct (Z.leb_spec start d), (Z.leb_spec d end_); simpl; try reflexivity.
  lia.
Qed.

Lemma between_inside start end_ d :
  start <= d <= end_ -> between start end_ d = true.
Proof.
  intros Hd. unfold between. apply andb_true_iff. rewrite !Z.leb_le. lia.
Qed.

(** A limit cuts the rows off the result without one. *)
Lemma top_window_limit user_id start end_ limit s :
  top_window user_id start end_ limit s =
  sql_limit limit (top_window user_id start end_ (-1) s).
Proof. apply ranked_limit. Qed.

Lemma leaderboard_window_limit ids activity start end_ limit s :
  leaderboard_window ids activity start end_ limit s =
  sql_limit limit (leaderboard_window ids activity start end_ (-1) s).
Proof. rewrite !leaderboard_window_keep_of. apply ranked_limit. Qed.

(** A row inside the window puts its activity in the ranking, and what the
    ranking shows for the activity counts the seconds of the row. *)
Lemma top_window_lists user_id activity d seconds start end_ w rows1 rows2 :
  between start end_ d = true ->
  In activity
    (map fst
       (top_window user_id start end_ (-1)
          (store (with_daily w
                    (rows1 ++ ((user_id, activity, d), seconds) :: rows2))))) /\
  forall v,
    In (activity, v)
      (top_window user_id start end_ (-1)
         (store (with_daily w
                   (rows1 ++ ((user_id, activity, d), seconds) :: rows2)))) ->
    v = key_sum activity
          (top_window user_id start end_ (-1)
             (store (with_daily w (rows1 ++ rows2))))
        + seconds.
Proof.
  intros Hin. assert (Hl : -1 < 0) by lia. split.
  - unfold top_window.
    eapply Permutation_in;
      [apply Permutation_map, Permutation_sym, ranked_unlimited, Hl|].
    apply group_sum_keys. unfold daily_of_user. simpl daily_totals.
    apply in_map_iff. exists (activity, seconds). split; [reflexivity|].
    apply in_map_iff. exists ((user_id, activity, d), seconds).
    split; [reflexivity|].
    apply filter_In. split; [apply in_elt|]. simpl.
    now rewrite Z.eqb_refl, Hin.
  - intros v Hv.
    rewrite <- (top_window_counts user_id activity d seconds start end_ (-1) w
                  rows1 rows2 Hin Hl).
    unfold top_window in *. rewrite key_sum_ranked_group by exact Hl.
    apply ranked_In in Hv.
    apply In_NoDup_keys in Hv as [_ ->]; [|apply group_sum_NoDup].
    apply seconds_of_group_sum.
Qed.

Lemma leaderboard_window_lists ids activity_opt user_id name updated_at
  activity d seconds start end_ w rows1 rows2 :
  between start end_ d = true ->
  In user_id ids ->
  Dict.get user_id (guild_usernames (store w)) = Some (name, updated_at) ->
  keep_of activity_opt activity = true ->
  In (user_id, name)
    (map fst
       (leaderboard_window ids activity_opt start end_ (-1)
          (store (with_daily w
                    (rows1 ++ ((user_id, activity, d), seconds) :: rows2))))) /\
  forall v,
    In ((user_id, name), v)
      (leaderboard_window ids activity_opt start end_ (-1)
         (store (with_daily w
                   (rows1 ++ ((user_id, activity, d), seconds) :: rows2)))) ->
    v = key_sum (user_id, name)
          (leaderboard_window ids activity_opt start end_ (-1)
             (store (with_daily w (rows1 ++ rows2))))
        + seconds.
Proof.
  intros Hin Hids Hname Hkeep. assert (Hl : -1 < 0) by lia. split.
  - rewrite leaderboard_window_keep_of.
    eapply Permutation_in;
      [apply Permutation_map, Permutation_sym, ranked_unlimited, Hl|].
    apply group_sum_keys.
    apply in_map_iff. exists ((user_id, name), seconds). split; [reflexivity|].
    unfold joined_daily. simpl daily_totals. simpl guild_usernames.
    apply in_flat_map. exists ((user_id, activity, d), seconds).
    split; [apply in_elt|]. cbn [fst snd]. rewrite Hname, Hkeep, Hin.
    assert (Hi : in_ids ids user_id = true).
    { unfold in_ids. apply existsb_exists. exists user_id.
      split; [exact Hids|apply Z.eqb_refl]. }
    rewrite Hi. now left.
  - intros v Hv.
    rewrite <- (leaderboard_window_counts ids activity_opt user_id name
                  updated_at activity d seconds start end_ (-1) w rows1 rows2
                  Hin Hl Hids Hname Hkeep).
    rewrite leaderboard_window_keep_of in *.
    rewrite key_sum_ranked_group by exact Hl.
    apply ranked_In in Hv.
    apply In_NoDup_keys in Hv as [_ ->]; [|apply group_sum_NoDup].
    apply seconds_of_group_sum.
Qed.

(** What a row of [daily_totals] does to the results of a period with the
    window from [start] to [end_]. *)
Lemma window_row_outside period start end_ w user_id activity d seconds
  rows1 rows2 :
  period <> "all"%string ->
  query_window utcoffset period w = Returns (start, end_) ->
  between start end_ d = false ->
  (forall u limit,
     eval (top_activities utcoffset u period limit)
          (with_daily w (rows1 ++ ((user_id, activity, d), seconds) :: rows2)) =
     eval (top_activities utcoffset u period limit)
          (with_daily w (rows1 ++ rows2))) /\
  (forall ids activity_opt limit,
     eval (leaderboard utcoffset ids activity_opt period limit)
          (with_daily w (rows1 ++ ((user_id, activity, d), seconds) :: rows2)) =
     eval (leaderboard utcoffset ids activity_opt period limit)
          (with_daily w (rows1 ++ rows2))).
Proof.
  intros Hp Hwin Hout. split.
  - intros u limit.
    rewrite !eval_top_activities_window, !query_window_with_daily, Hwin
      by exact Hp.
    simpl. f_equal. now apply top_window_skip.
  - intros [|id ids] activity_opt limit; [reflexivity|].
    rewrite !eval_leaderboard_window, !query_window_with_daily, Hwin
      by (exact Hp || discriminate).
    simpl. f_equal. now apply leaderboard_window_skip.
Qed.

Lemma window_row_inside_top period start end_ w user_id activity d seconds
  rows1 rows2 :
  period <> "all"%string ->
  query_window utcoffset period w = Returns (start, end_) ->
  between start end_ d = true ->
  exists full full0,
    (forall limit,
       eval (top_activities utcoffset user_id period limit)
            (with_daily w (rows1 ++ ((user_id, activity, d), seconds) :: rows2)) =
       Returns (sql_limit limit full)) /\
    (forall limit,
       eval (top_activities utcoffset user_id period limit)
            (with_daily w (rows1 ++ rows2)) =
       Returns (sql_limit limit full0)) /\
    In activity (map fst full) /\
    (forall v, In (activity, v) full ->
               v = key_sum activity full0 + seconds).
Proof.
  intros Hp Hwin Hin.
  destruct (top_window_lists user_id activity d seconds start end_ w rows1
              rows2 Hin) as [Hlisted Hcounts].
  eexists. eexists. split; [|split; [|split; [exact Hlisted|exact Hcounts]]];
    intros limit;
    rewrite eval_top_activities_window, query_window_with_daily, Hwin
      by exact Hp;
    simpl; f_equal; apply top_window_limit.
Qed.

Lemma window_row_inside_leaderboard period start end_ w ids activity_opt
  user_id name updated_at activity d seconds rows1 rows2 :
  period <> "all"%string ->
  query_window utcoffset period w = Returns (start, end_) ->
  between start end_ d = true ->
  In user_id ids ->
  Dict.get user_id (guild_usernames (store w)) = Some (name, updated_at) ->
  keep_of activity_opt activity = true ->
  exists full full0,
    (forall limit,
       eval (leaderboard utcoffset ids activity_opt period limit)
            (with_daily w (rows1 ++ ((user_id, activity, d), seconds) :: rows2)) =
       Returns (sql_limit limit full)) /\
    (forall limit,
       eval (leaderboard utcoffset ids activity_opt period limit)
            (with_daily w (rows1 ++ rows2)) =
       Returns (sql_limit limit full0)) /\
    In (user_id, name) (map fst full) /\
    (forall v, In ((user_id, name), v) full ->
               v = key_sum (user_id, name) full0 + seconds).
Proof.
  intros Hp Hwin Hin Hids Hname Hkeep.
  assert (Hne : ids <> []) by (destruct ids; [destruct Hids|discriminate]).
  destruct (leaderboard_window_lists ids activity_opt user_id name updated_at
              activity d seconds start end_ w rows1 rows2 Hin Hids Hname Hkeep)
    as [Hlisted Hcounts].
  eexists. eexists. split; [|split; [|split; [exact Hlisted|exact Hcounts]]];
    intros limit;
    rewrite eval_leaderboard_window, query_window_with_daily, Hwin
      by assumption;
    simpl; f_equal; apply leaderboard_window_limit.
Qed.

End Window.


(** C2, as the code has it.  A period string that is none of "today",
    "week", "month" and "all" is not rejected: [top_activities] and
    [leaderboard] return, and what they return is the query over the
    window of days from "0000-01-01" to the local date of the call.  No
    date lies before that start, so the window takes in every day up to
    today: whatever its date [d] up to today, a row of [daily_totals] adds
    its seconds to what the results report (with no bound on the number of
    rows) for its activity and for its user. *)
Theorem unknown_period_window_from_year_zero (utcoffset : time -> Z)
  (w : world) (period : string) :
  period <> "today"%string -> period <> "week"%string ->
  period <> "month"%string -> period <> "all"%string ->
  let today := date_of (to_local utcoffset (clock w (taken w))) in
  (forall user_id limit,
     eval (top_activities utcoffset user_id period limit) w =
     Returns (top_window user_id FALLBACK_START today limit (store w))) /\
  (forall user_ids activity limit,
     user_ids <> [] ->
     eval (leaderboard utcoffset user_ids activity period limit) w =
     Returns (leaderboard_window user_ids activity FALLBACK_START today limit
                (store w))) /\
  (forall d : day, 0 < d -> between FALLBACK_START today d = (d <=? today)) /\
  (forall user_id activity d seconds rows1 rows2 limit,
     0 < d <= today -> limit < 0 ->
     exists res res0,
       eval (top_activities utcoffset user_id period limit)
            (with_daily w (rows1 ++ ((user_id, activity, d), seconds) :: rows2)) =
         Returns res /\
       eval (top_activities utcoffset user_id period limit)
            (with_daily w (rows1 ++ rows2)) = Returns res0 /\
       key_sum activity res = key_sum activity res0 + seconds) /\
  (forall user_ids activity_opt user_id name updated_at activity d seconds
          rows1 rows2 limit,
     0 < d <= today -> limit < 0 ->
     In user_id user_ids ->
     Dict.get user_id (guild_usernames (store w)) = Some (name, updated_at) ->
     keep_of activity_opt activity = true ->
     exists res res0,
       eval (leaderboard utcoffset user_ids activity_opt period limit)
            (with_daily w (rows1 ++ ((user_id, activity, d), seconds) :: rows2)) =
         Returns res /\
       eval (leaderboard utcoffset user_ids activity_opt period limit)
            (with_daily w (rows1 ++ rows2)) = Returns res0 /\
       key_sum (user_id, name) res = key_sum (user_id, name) res0 + seconds).
Proof.
  intros Ht Hw Hm Ha today.
  assert (Hwin : forall daily,
            query_window utcoffset period (with_daily w daily) =
            Returns (FALLBACK_START, today)).
  { intros daily. unfold query_window, reading_date.
    apply String.eqb_neq in Ht, Hw, Hm. rewrite Ht, Hw, Hm.
    subst today. simpl. now rewrite Nat.add_0_r. }
  assert (Hwin0 : query_window utcoffset period w =
                  Returns (FALLBACK_START, today)) by apply (Hwin []).
  assert (Hbetween : forall d : day,
            0 < d -> between FALLBACK_START today d = (d <=? today)).
  { intros d Hd. unfold between, FALLBACK_START.
    destruct (Z.leb_spec (-365) d); [reflexivity|lia]. }
  split; [|split; [|split; [|split]]].
  - intros user_id limit.
    rewrite eval_top_activities_window by exact Ha. now rewrite Hwin0.
  - intros user_ids activity limit Hids.
    rewrite eval_leaderboard_window by assumption. now rewrite Hwin0.
  - exact Hbetween.
  - intros user_id activity d seconds rows1 rows2 limit Hd Hl.
    rewrite !eval_top_activities_window, !Hwin by exact Ha.
    simpl. eexists. eexists. split; [reflexivity|]. split; [reflexivity|].
    apply top_window_counts; [|exact Hl].
    rewrite Hbetween by lia. apply Z.leb_le. lia.
  - intros user_ids activity_opt user_id name updated_at activity d seconds
      rows1 rows2 limit Hd Hl Hids Hname Hkeep.
    assert (Hne : user_ids <> [])
      by (destruct user_ids; [destruct Hids|discriminate]).
    rewrite !eval_leaderboard_window, !Hwin by assumption.
    simpl. eexists. eexists. split; [reflexivity|]. split; [reflexivity|].
    apply leaderboard_window_counts with updated_at; trivial.
    rewrite Hbetween by lia. apply Z.leb_le. lia.
Qed.

(* ------------------------------------------------------------------ *)
(** ** A ranking is a function of the counters *)






#[export] Instance KeyOrderOk_Z : KeyOrderOk Z.
Proof.
  constructor; cbn [key_leb KeyOrder_Z]; intros.
  - destruct (Z.leb_spec a b); [now left|right; apply Z.leb_le; lia].
  - apply Z.leb_le. apply Z.leb_le in H, H0. lia.
  - apply Z.leb_le in H, H0. lia.
Qed.

Lemma ascii_compare_refl a : Ascii.compare a a = Eq.
Proof. unfold Ascii.compare. apply N.compare_refl. Qed.

Lemma string_leb_trans (a b c : string) :
  String.leb a b = true -> String.leb b c = true -> String.leb a c = true.
Proof.
  unfold String.leb. revert b c.
  induction a as [|x a IH]; intros [|y b] [|z c]; simpl; try easy.
  destruct (Ascii.compare x y) eqn:Exy; try easy;
    destruct (Ascii.compare y z) eqn:Eyz; try easy.
  - apply Ascii.compare_eq_iff in Exy, Eyz. subst.
    rewrite ascii_compare_refl. apply IH.
  - apply Ascii.compare_eq_iff in Exy. subst. now rewrite Eyz.
  - apply Ascii.compare_eq_iff in Eyz. subst. now rewrite Exy.
  - unfold Ascii.compare in *.
    rewrite N.compare_lt_iff in Exy, Eyz.
    assert (E : (Ascii.N_of_ascii x ?= Ascii.N_of_ascii z)%N = Lt)
      by (apply N.compare_lt_iff; lia).
    now rewrite E.
Qed.

#[export] Instance KeyOrderOk_string : KeyOrderOk string.
Proof.
  constructor; cbn [key_leb KeyOrder_string].
  - apply String.leb_total.
  - apply string_leb_trans.
  - apply String.leb_antisym.
Qed.

#[export] Instance KeyOrderOk_pair {A B} `{KeyOrderOk A} `{KeyOrderOk B}
  : KeyOrderOk (A * B).
Proof.
  constructor; cbn [key_leb KeyOrder_pair].
  - intros [a b] [c d]. cbn [fst snd].
    destruct (key_leb a c) eqn:Eac, (key_leb c a) eqn:Eca; cbn; auto.
    + apply key_leb_total.
    + destruct (key_leb_total a c); congruence.
  - intros [a b] [c d] [e f]. cbn [fst snd].
    rewrite !andb_true_iff, !orb_true_iff, !negb_true_iff.
    intros [Hac Hbd] [Hce Hdf]. split; [now apply key_leb_trans with c|].
    destruct (key_leb e a) eqn:Eea; [right|now left].
    assert (Hca : key_leb c a = true) by now apply key_leb_trans with e.
    assert (Hec : key_leb e c = true) by now apply key_leb_trans with a.
    destruct Hbd as [Hbd|Hbd]; [congruence|].
    destruct Hdf as [Hdf|Hdf]; [congruence|].
    now apply key_leb_trans with d.
  - intros [a b] [c d]. cbn [fst snd].
    rewrite !andb_true_iff, !orb_true_iff, !negb_true_iff.
    intros [Hac Hbd] [Hca Hdb].
    destruct Hbd as [Hbd|Hbd]; [congruence|].
    destruct Hdb as [Hdb|Hdb]; [congruence|].
    f_equal; now apply key_leb_antisym.
Qed.




Section RankingOrder.
Context {K : Type} `{KeyOrderOk K}.
Implicit Types (x : K * Z) (l : list (K * Z)).








End RankingOrder.








Lemma top_activities_sorted utcoffset user_id period limit w res :
  eval (top_activities utcoffset user_id period limit) w = Returns res ->
  StronglySorted by_seconds_desc res.
Proof.
  destruct (String.eqb_spec period "all") as [->|Hp].
  - rewrite eval_top_activities_all. intros E. inversion E.
    apply ranked_sorted.
  - rewrite eval_top_activities_window by exact Hp.
    destruct (query_window utcoffset period w) as [win|e]; simpl;
      intros E; inversion E.
    apply ranked_sorted.
Qed.



(* ================================================================== *)
(** * Concrete runs *)

Module Run.

Local Open Scope string_scope.

(** The zone is UTC. *)
Definition utc : time -> Z := fun _ => 0.

(** A clock giving the listed readings in turn, then the last one again. *)
Definition clock_of (readings : list time) : nat -> time :=
  fun i => nth i readings (last readings 0).

Definition seconds (n : Z) : time := n * MICROS_PER_SECOND.
Definition days (n : Z) : time := n * MICROS_PER_DAY.

(** A new database, nobody tracked, and the given readings to come. *)
Definition fresh (readings : list time) : world :=
  mkWorld (clock_of readings) 0 empty_store [].

Definition alice : Member := mkMember 1 "alice#0001" [].
Definition bob : Member := mkMember 2 "bob#0002" [].

Definition alice_playing (game : string) : Member :=
  mkMember 1 "alice#0001" [mkActivity true playing (Some game)].

(** Start at t=0, one heartbeat tick at t=60, the game closed at t=90. *)
Definition session_readings : list time :=
  [seconds 0; seconds 60; seconds 60; seconds 90; seconds 90; seconds 90].

Definition after_tick : world :=
  exec (start 1 "Chess" ;; heartbeat utc [[[alice]]]) (fresh session_readings).

Definition after_close : world :=
  exec (on_presence_update utc (alice_playing "Chess") alice) after_tick.

(** 2024-10-04, local date 739163. *)
Definition a_day : time := days 20000.

(** Credits for Chess today, for Go seven days ago and for bob's Go six
    days ago. *)
Definition played : world :=
  exec (add_time utc 1 "alice#0001" "Chess" 60 (Some a_day) ;;
        add_time utc 1 "alice#0001" "Go" 60 (Some (a_day - days 7)) ;;
        add_time utc 2 "bob#0002" "Go" 60 (Some (a_day - days 6)))
       (fresh [a_day]).

(** One credit dated 1970-01-01, read back in 2024. *)
Definition long_ago : world :=
  exec (add_time utc 1 "alice#0001" "Chess" 60 (Some 0)) (fresh [a_day]).





(** Alice is playing Chess and bob Go; the bot shares two guilds with
    alice and, by now, none with bob. *)
Definition two_playing : world :=
  exec (start 1 "Chess" ;; start 2 "Go") (fresh [seconds 0]).

Definition two_guilds_of_alice : list Guild := [[alice]; [alice]].

Definition some_calls : list credit :=
  [mkCredit 1 "alice#0001" "Chess" 60 None;
   mkCredit 2 "bob#0002" "Go" (-5) None;
   mkCredit 1 "alice#0001" "Chess" 30 (Some a_day)].

Definition other_calls : list call :=
  [call_start 2 "Go"; call_tick [[alice; bob]]; call_stop 1 "Go";
   call_presence bob (mkMember 2 "bob#0002" [mkActivity true playing (Some "Go")])].

End Run.

(** C1: a start at t=0, one tick at t=60, the game closed at t=90.  [stop]
    returns 90, not 30, and the counter ends at 150, not at 90. *)
Lemma no_double_counting_fails :
  eval (stop 1 "Chess") Run.after_tick = 90 /\
  total_seconds (store Run.after_tick) 1 "Chess" = 60 /\
  total_seconds (store Run.after_close) 1 "Chess" = 150 /\
  total_seconds (store Run.after_close) 1 "Chess" <> 90.
Proof. repeat split; try reflexivity. discriminate. Qed.

(** The same run, through the theorem: 60 for the tick and 90 at the close. *)
Lemma stop_elapsed_counts_from_session_start_witness :
  started_at 1 "Chess" (Run.fresh Run.session_readings) = None /\
  total_seconds (store Run.after_close) 1 "Chess" = 150.
Proof.
  split; [reflexivity|].
  refine (eq_trans
    (proj2 (proj2
      (stop_elapsed_counts_from_session_start Run.utc
         (Run.fresh Run.session_readings) 1 "Chess" [[[Run.alice]]]
         (Run.alice_playing "Chess") Run.alice _ _ _ _ _)))
    _).
  - reflexivity.
  - repeat constructor.
  - reflexivity.
  - reflexivity.
  - discriminate.
  - reflexivity.
Defined.

(** C2: a period the code does not know.  Both queries return, and the
    row of 1970 is in what they return. *)
Lemma unknown_period_not_rejected :
  eval (top_activities Run.utc 1 "year" 10) Run.long_ago =
    Returns [("Chess"%string, 60)] /\
  eval (leaderboard Run.utc [1] None "year" 10) Run.long_ago =
    Returns [(1, "alice#0001"%string, 60)] /\
  eval (top_activities Run.utc 1 "month" 10) Run.long_ago = Returns [].
Proof. repeat split; reflexivity. Qed.

(** The period "year", read in 2024: the window starts at "0000-01-01". *)
Lemma unknown_period_window_from_year_zero_witness :
  eval (top_activities Run.utc 1 "year" 10) Run.long_ago =
  Returns (top_window 1 FALLBACK_START 739163 10 (store Run.long_ago)).
Proof.
  refine (proj1 (unknown_period_window_from_year_zero Run.utc Run.long_ago
                   "year" _ _ _ _) 1 10); discriminate.
Defined.

(** Credits of 60 and 30 for alice's Chess, with one of -5 for bob between
    them, on a new database: total and daily sum are both 90. *)
Lemma add_time_additivity_witness :
  total_seconds
    (store (exec (add_times Run.utc Run.some_calls) (Run.fresh [Run.a_day])))
    1 "Chess" = 90 /\
  daily_sum
    (store (exec (add_times Run.utc Run.some_calls) (Run.fresh [Run.a_day])))
    1 "Chess" = 90.
Proof.
  refine (proj2 (add_time_additivity Run.utc (Run.fresh [Run.a_day])
                   Run.some_calls 1 "Chess" _) eq_refl).
  intros c [<-|[<-|[<-|[]]]]; simpl; intros; try lia; discriminate.
Defined.

(** A credit of -5 seconds changes nothing. *)
Lemma add_time_nonpositive_noop_witness :
  -5 <= 0 /\
  exec (add_time Run.utc 1 "alice#0001" "Chess" (-5) None) Run.played = Run.played.
Proof.
  assert (H : -5 <= 0) by lia.
  split; [exact H|].
  exact (proj1 (add_time_nonpositive_noop Run.utc Run.played 1 "alice#0001"
                  "Chess" (-5) None) H).
Defined.

(** A second [start] for alice's Chess, after calls that concern other
    sessions, changes nothing. *)
Lemma start_idempotent_witness :
  Forall (fun c => stops 1 "Chess" c = false) Run.other_calls /\
  exec (start 1 "Chess")
       (exec (run_calls Run.utc Run.other_calls)
             (exec (start 1 "Chess") (Run.fresh [Run.a_day]))) =
  exec (run_calls Run.utc Run.other_calls)
       (exec (start 1 "Chess") (Run.fresh [Run.a_day])).
Proof.
  assert (H : Forall (fun c => stops 1 "Chess" c = false) Run.other_calls)
    by (repeat constructor).
  split; [exact H|].
  exact (proj1 (proj2 (start_idempotent Run.utc (Run.fresh [Run.a_day]) 1
                         "Chess" Run.other_calls H))).
Defined.

(** Alice plays Chess, not Go: stopping her Go returns 0 and changes
    nothing. *)
Lemma stop_without_session_noop_witness :
  started_at 1 "Go" Run.two_playing = None /\
  stop 1 "Go" Run.two_playing = (0, Run.two_playing).
Proof.
  assert (H : started_at 1 "Go" Run.two_playing = None) by reflexivity.
  split; [exact H|].
  exact (proj1 (stop_without_session_noop Run.utc Run.two_playing 1 "Go") H).
Defined.

(** The week asked for across local midnight: the first reading falls on
    2024-10-04, a microsecond before midnight, the second on 2024-10-05. *)
Definition across_midnight : list time :=
  [Run.a_day + Run.days 1 - 1; Run.a_day + Run.days 1].






(** C8: a negative limit.  Two rows come back for [limit = -1]. *)
Lemma leaderboard_negative_limit_unbounded :
  exists result,
    eval (leaderboard Run.utc [1; 2] None "all" (-1)) Run.played =
      Returns result /\
    ~ Z.of_nat (List.length result) <= -1.
Proof.
  exists [(1, "alice#0001"%string, 120); (2, "bob#0002"%string, 60)].
  split; [reflexivity|]. simpl. lia.
Qed.

(** The week's leaderboard of alice and bob, cut to one row. *)
Lemma leaderboard_sorted_bounded_restricted_witness :
  eval (leaderboard Run.utc [1; 2] None "week" 1) Run.played =
    Returns [(1, "alice#0001"%string, 60)] /\
  StronglySorted by_seconds_desc [(1, "alice#0001"%string, 60)] /\
  (0 <= 1 -> Z.of_nat (List.length [(1, "alice#0001"%string, 60)]) <= 1) /\
  (forall row, In row [(1, "alice#0001"%string, 60)] ->
               In (fst (fst row)) [1; 2]).
Proof.
  assert (H : eval (leaderboard Run.utc [1; 2] None "week" 1) Run.played =
              Returns [(1, "alice#0001"%string, 60)]) by reflexivity.
  split; [exact H|].
  pose proof (leaderboard_sorted_bounded_restricted Run.utc Run.played [1; 2]
                None "week" 1 _ H) as (Hs & Hl & Hu & _).
  split; [exact Hs|]. split; [exact Hl|exact Hu].
Defined.


(** C10: who is met, and how often.  Both sessions are active; after one
    tick alice's counter, met in two guilds, stands at 120 and bob's, met
    in none, at 0. *)
Lemma heartbeat_credit_per_roster_entry :
  started_at 1 "Chess" Run.two_playing = Some 0 /\
  started_at 2 "Go" Run.two_playing = Some 0 /\
  total_seconds
    (store (exec (heartbeat_tick Run.utc Run.two_guilds_of_alice) Run.two_playing))
    1 "Chess" = 120 /\
  total_seconds
    (store (exec (heartbeat_tick Run.utc Run.two_guilds_of_alice) Run.two_playing))
    2 "Go" = 0 /\
  ~ (forall u a t,
       started_at u a Run.two_playing = Some t ->
       total_seconds
         (store (exec (heartbeat_tick Run.utc Run.two_guilds_of_alice)
                      Run.two_playing)) u a =
       total_seconds (store Run.two_playing) u a + HEARTBEAT_SECONDS).
Proof.
  repeat split; try reflexivity.
  intros H. specialize (H 2 "Go"%string 0 eq_refl). discriminate H.
Qed.

(** Alice, met once, is credited 60 seconds for her Chess. *)
Lemma heartbeat_credits_fixed_amount_witness :
  started_at 1 "Chess" Run.two_playing = Some 0 /\
  Dict.wf (sessions_of (active Run.two_playing) 1) /\
  visits 1 [[Run.alice; Run.bob]] = 1 /\
  total_seconds
    (store (exec (heartbeat_tick Run.utc [[Run.alice; Run.bob]]) Run.two_playing))
    1 "Chess" =
  total_seconds (store Run.two_playing) 1 "Chess" + HEARTBEAT_SECONDS.
Proof.
  assert (Hs : started_at 1 "Chess" Run.two_playing = Some 0) by reflexivity.
  assert (Hwf : Dict.wf (sessions_of (active Run.two_playing) 1)).
  { unfold Dict.wf. simpl. constructor; [simpl; tauto|constructor]. }
  assert (Hv : visits 1 [[Run.alice; Run.bob]] = 1) by reflexivity.
  split; [exact Hs|]. split; [exact Hwf|]. split; [exact Hv|].
  exact (proj1 (proj2 (proj2 (heartbeat_credits_fixed_amount Run.utc
                                Run.two_playing [[Run.alice; Run.bob]])))
           1 "Chess"%string 0 Hs Hwf Hv).
Defined.

(* ================================================================== *)
(** * Further properties: what a credit writes *)

Section CreditFrame.
Variable utcoffset : time -> Z.

(** The local date a call of [add_time] credits: that of [when], or of the
    first reading of the clock when [when] is [None]. *)
Definition credit_date (when : option time) (w : world) : day :=
  date_of (to_local utcoffset
             (match when with Some t => t | None => clock w (taken w) end)).

(** The reading it stores as [updated_at]. *)
Definition credit_stamp (when : option time) (w : world) : time :=
  clock w (match when with Some _ => taken w | None => S (taken w) end).

Lemma store_add_time_at user_id username activity seconds when w :
  0 < seconds ->
  store (exec (add_time utcoffset user_id username activity seconds when) w) =
  mkStore
    (upsert_add (user_id, activity) seconds (totals (store w)))
    (upsert_add (user_id, activity, credit_date when w) seconds
                (daily_totals (store w)))
    (Dict.setitem user_id (username, credit_stamp when w)
                  (guild_usernames (store w))).
Proof.
  intros Hpos. unfold add_time.
  destruct (Z.leb_spec seconds 0); [lia|].
  destruct when; reflexivity.
Qed.

(** The rows of a leaderboard carry the names [guild_usernames] holds. *)
Lemma joined_totals_name ids keep s r :
  In r (joined_totals ids keep s) ->
  exists updated_at,
    Dict.get (fst (fst r)) (guild_usernames s) = Some (snd (fst r), updated_at).
Proof.
  unfold joined_totals. rewrite in_flat_map. intros (r0 & _ & Hin).
  destruct (Dict.get (fst (fst r0)) (guild_usernames s)) as [[name upd]|] eqn:E;
    [|destruct Hin].
  destruct (in_ids ids (fst (fst r0)) && keep (snd (fst r0)));
    [|destruct Hin].
  destruct Hin as [<-|[]]. simpl. eauto.
Qed.

Lemma joined_daily_name ids keep start end_ s r :
  In r (joined_daily ids keep start end_ s) ->
  exists updated_at,
    Dict.get (fst (fst r)) (guild_usernames s) = Some (snd (fst r), updated_at).
Proof.
  unfold joined_daily. rewrite in_flat_map. intros (r0 & _ & Hin).
  destruct (Dict.get (fst (fst (fst r0))) (guild_usernames s))
    as [[name upd]|] eqn:E; [|destruct Hin].
  destruct (in_ids ids (fst (fst (fst r0))) && keep (snd (fst (fst r0)))
            && between start end_ (snd (fst r0))); [|destruct Hin].
  destruct Hin as [<-|[]]. simpl. eauto.
Qed.

Lemma group_sum_key_from {K} `{KeyOk K} (l : rows K) (row : K * Z) :
  In row (group_sum l) -> exists r, In r l /\ fst r = fst row.
Proof.
  intros Hin.
  assert (Hk : In (fst row) (map fst (group_sum l))) by now apply in_map.
  apply (proj1 (group_sum_keys _ _)) in Hk.
  apply in_map_iff in Hk as (r & E & Hr). eauto.
Qed.

Lemma leaderboard_all_name ids activity limit s row :
  In row (leaderboard_all ids activity limit s) ->
  exists updated_at,
    Dict.get (fst (fst row)) (guild_usernames s) =
    Some (snd (fst row), updated_at).
Proof.
  unfold leaderboard_all. intros Hin.
  destruct activity as [a|]; [destruct (truthy (Some a))|];
    apply ranked_In in Hin.
  - now apply joined_totals_name in Hin.
  - apply group_sum_key_from in Hin as (r & Hr & <-).
    now apply joined_totals_name in Hr.
  - apply group_sum_key_from in Hin as (r & Hr & <-).
    now apply joined_totals_name in Hr.
Qed.

Lemma leaderboard_window_name ids activity start end_ limit s row :
  In row (leaderboard_window ids activity start end_ limit s) ->
  exists updated_at,
    Dict.get (fst (fst row)) (guild_usernames s) =
    Some (snd (fst row), updated_at).
Proof.
  rewrite leaderboard_window_keep_of. intros Hin.
  apply ranked_In in Hin.
  apply group_sum_key_from in Hin as (r & Hr & <-).
  now apply joined_daily_name in Hr.
Qed.

(** Every row [leaderboard] returns carries the name stored for its user. *)
Lemma leaderboard_name ids activity period limit w res row :
  eval (leaderboard utcoffset ids activity period limit) w = Returns res ->
  In row res ->
  exists updated_at,
    Dict.get (fst (fst row)) (guild_usernames (store w)) =
    Some (snd (fst row), updated_at).
Proof.
  intros Hres Hin. destruct ids as [|id ids].
  { rewrite eval_leaderboard_empty in Hres. inversion Hres. subst.
    destruct Hin. }
  assert (Hne : id :: ids <> []) by discriminate.
  destruct (String.eqb_spec period "all") as [->|Hp].
  - rewrite eval_leaderboard_all in Hres by exact Hne.
    inversion Hres. subst. now apply leaderboard_all_name in Hin.
  - rewrite eval_leaderboard_window in Hres by assumption.
    destruct (query_window utcoffset period w) as [win|e]; simpl in Hres;
      inversion Hres.
    subst. now apply leaderboard_window_name in Hin.
Qed.

End CreditFrame.

(** X1.  What one credit writes.  A call of [add_time] with positive
    [seconds] adds them to the [totals] counter of its user and activity
    and to the [daily_totals] counter of its user, activity and date (the
    local date of [when], or of the moment of the call when [when] is
    omitted); every other counter of either table is left as it was.  It
    stores the name it was given for its user and leaves the names of the
    other users alone. *)
Theorem add_time_writes_its_own_rows (utcoffset : time -> Z) (w : world)
  (user_id : Z) (username activity : string) (seconds : Z)
  (when : option time) :
  0 < seconds ->
  let s := store w in
  let s' := store (exec (add_time utcoffset user_id username activity seconds
                           when) w) in
  let d := credit_date utcoffset when w in
  total_seconds s' user_id activity = total_seconds s user_id activity + seconds /\
  day_seconds s' user_id activity d = day_seconds s user_id activity d + seconds /\
  (forall u a, (u, a) <> (user_id, activity) ->
     total_seconds s' u a = total_seconds s u a) /\
  (forall u a d', (u, a, d') <> (user_id, activity, d) ->
     day_seconds s' u a d' = day_seconds s u a d') /\
  Dict.get user_id (guild_usernames s') = Some (username, credit_stamp when w) /\
  (forall u, u <> user_id ->
     Dict.get u (guild_usernames s') = Dict.get u (guild_usernames s)).
Proof.
  intros Hpos s s' d. subst s s' d.
  rewrite (store_add_time_at utcoffset user_id username activity seconds when w Hpos).
  unfold total_seconds, day_seconds. cbn [totals daily_totals guild_usernames].
  repeat split.
  - rewrite seconds_of_upsert_add. now rewrite key_eqb_refl.
  - rewrite seconds_of_upsert_add. now rewrite key_eqb_refl.
  - intros u a Hne. rewrite seconds_of_upsert_add.
    destruct (key_eqb_spec (user_id, activity) (u, a)); [congruence|lia].
  - intros u a d' Hne. rewrite seconds_of_upsert_add.
    destruct (key_eqb_spec (user_id, activity, credit_date utcoffset when w)
                           (u, a, d')); [congruence|lia].
  - apply get_setitem_same.
  - intros u Hne. now apply get_setitem_other.
Qed.

(** X2.  The name on the leaderboard.  After a call of [add_time] with
    positive [seconds] for a user, every row that [leaderboard] returns for
    that user, whatever the ids, activity, period and limit, shows the name
    that call was given. *)
Theorem leaderboard_shows_latest_name (utcoffset : time -> Z) (w : world)
  (user_id : Z) (username activity : string) (seconds : Z)
  (when : option time) (user_ids : list Z) (filter_activity : option string)
  (period : string) (limit : Z) (result : list (Z * string * Z)) :
  0 < seconds ->
  eval (leaderboard utcoffset user_ids filter_activity period limit)
       (exec (add_time utcoffset user_id username activity seconds when) w) =
    Returns result ->
  forall row, In row result -> fst (fst row) = user_id ->
              snd (fst row) = username.
Proof.
  intros Hpos Hres row Hin Hu.
  destruct (leaderboard_name utcoffset _ _ _ _ _ _ _ Hres Hin) as [upd Hname].
  rewrite (store_add_time_at utcoffset user_id username activity seconds when w Hpos)
    in Hname.
  cbn [guild_usernames] in Hname. rewrite Hu, get_setitem_same in Hname.
  congruence.
Qed.

(* ------------------------------------------------------------------ *)
(** ** What every call keeps true of the store *)

Lemma for_each_preserves {A} (P : world -> Prop) (l : list A)
  (body : A -> M unit) :
  (forall x w, P w -> P (exec (body x) w)) ->
  forall w, P w -> P (exec (for_each l body) w).
Proof.
  intros Hbody. induction l as [|x tl IH]; intros w Hw; [exact Hw|].
  rewrite for_each_cons. apply IH, Hbody, Hw.
Qed.

(** The store changes through [add_time] only: what [add_time] keeps, every
    call keeps. *)
Section StoreInvariant.
Variable utcoffset : time -> Z.
Variable P : Store -> Prop.
Hypothesis P_add_time :
  forall w user_id username activity seconds when,
    P (store w) ->
    P (store (exec (add_time utcoffset user_id username activity seconds when) w)).

Lemma credit_member_keeps member w :
  P (store w) -> P (store (exec (credit_member utcoffset member) w)).
Proof.
  unfold credit_member. rewrite exec_bind. unfold_m.
  destruct (Dict.get (member_id member) (active w)) as [[|s tl]|];
    try (intros Hw; exact Hw).
  apply (for_each_preserves (fun w => P (store w))).
  intros x w'. apply P_add_time.
Qed.

Lemma heartbeat_tick_keeps guilds w :
  P (store w) -> P (store (exec (heartbeat_tick utcoffset guilds) w)).
Proof.
  apply (for_each_preserves (fun w => P (store w))). intros guild w'.
  apply (for_each_preserves (fun w => P (store w))). intros member w''.
  apply credit_member_keeps.
Qed.

Lemma on_presence_update_keeps before after w :
  P (store w) -> P (store (exec (on_presence_update utcoffset before after) w)).
Proof.
  intros Hw. rewrite on_presence_update_unfold.
  destruct (option_string_eqb _ _); [exact Hw|].
  rewrite store_open_current. unfold close_previous.
  destruct (get_playing_name before) as [b|]; [|exact Hw].
  destruct (truthy (Some b)); [|exact Hw].
  rewrite exec_bind.
  destruct (0 <? eval (stop (member_id after) b) w).
  - apply P_add_time. now rewrite store_stop.
  - unfold exec at 1. simpl. now rewrite store_stop.
Qed.

Lemma run_call_keeps c w :
  P (store w) -> P (store (exec (run_call utcoffset c) w)).
Proof.
  intros Hw. destruct c as [u a|u a|c|guilds|before after]; simpl.
  - now rewrite store_start.
  - rewrite exec_bind. unfold ret, exec at 1. simpl. now rewrite store_stop.
  - now apply P_add_time.
  - now apply heartbeat_tick_keeps.
  - now apply on_presence_update_keeps.
Qed.

Lemma run_calls_keeps calls w :
  P (store w) -> P (store (exec (run_calls utcoffset calls) w)).
Proof.
  apply (for_each_preserves (fun w => P (store w))).
  intros c w'. apply run_call_keeps.
Qed.

End StoreInvariant.

(** All seconds of a table are positive. *)
Definition positive_rows {K} (t : rows K) : Prop :=
  Forall (fun r => 0 < snd r) t.

Definition positive_store (s : Store) : Prop :=
  positive_rows (totals s) /\ positive_rows (daily_totals s).

Lemma positive_upsert_add {K} `{Key K} (k : K) v (t : rows K) :
  0 < v -> positive_rows t -> positive_rows (upsert_add k v t).
Proof.
  intros Hv. unfold positive_rows.
  induction 1 as [|[k0 v0] tl Hr Ht IH]; simpl.
  - now repeat constructor.
  - simpl in Hr. destruct (key_eqb k0 k); constructor; simpl; auto; lia.
Qed.

Lemma positive_group_sum {K} `{Key K} (l : rows K) :
  positive_rows l -> positive_rows (group_sum l).
Proof.
  unfold group_sum. generalize (@nil (K * Z)) (Forall_nil (fun r : K * Z => 0 < snd r)).
  induction l as [|[k v] tl IH]; intros acc Hacc Hl; simpl; [exact Hacc|].
  inversion Hl as [|x xs Hx Hxs]; subst.
  apply IH; [|exact Hxs]. now apply positive_upsert_add.
Qed.

Lemma positive_ranked {A} `{KeyOrder A} limit (l : list (A * Z)) :
  Forall (fun r => 0 < snd r) l -> Forall (fun r => 0 < snd r) (ranked limit l).
Proof.
  rewrite !Forall_forall. intros Hl r Hr. apply Hl.
  now apply ranked_In in Hr.
Qed.

Lemma positive_totals_of_user user_id s :
  positive_rows (totals s) -> positive_rows (totals_of_user user_id s).
Proof.
  unfold positive_rows, totals_of_user. rewrite !Forall_forall.
  intros Hs r Hr. apply in_map_iff in Hr as (r0 & <- & Hr0).
  apply filter_In in Hr0 as [Hr0 _]. simpl. now apply Hs.
Qed.

Lemma positive_daily_of_user user_id start end_ s :
  positive_rows (daily_totals s) ->
  positive_rows (daily_of_user user_id start end_ s).
Proof.
  unfold positive_rows, daily_of_user. rewrite !Forall_forall.
  intros Hs r Hr. apply in_map_iff in Hr as (r0 & <- & Hr0).
  apply filter_In in Hr0 as [Hr0 _]. simpl. now apply Hs.
Qed.

Lemma positive_joined_totals ids keep s :
  positive_rows (totals s) -> positive_rows (joined_totals ids keep s).
Proof.
  unfold positive_rows, joined_totals. rewrite !Forall_forall.
  intros Hs r Hr. apply in_flat_map in Hr as (r0 & Hr0 & Hin).
  destruct (Dict.get _ _); [|destruct Hin].
  destruct (_ && _); [|destruct Hin].
  destruct Hin as [<-|[]]. simpl. now apply Hs.
Qed.

Lemma positive_joined_daily ids keep start end_ s :
  positive_rows (daily_totals s) ->
  positive_rows (joined_daily ids keep start end_ s).
Proof.
  unfold positive_rows, joined_daily. rewrite !Forall_forall.
  intros Hs r Hr. apply in_flat_map in Hr as (r0 & Hr0 & Hin).
  destruct (Dict.get _ _); [|destruct Hin].
  destruct (_ && _); [|destruct Hin].
  destruct Hin as [<-|[]]. simpl. now apply Hs.
Qed.

Lemma positive_add_time utcoffset w user_id username activity seconds when :
  positive_store (store w) ->
  positive_store
    (store (exec (add_time utcoffset user_id username activity seconds when) w)).
Proof.
  intros [Ht Hd]. destruct (Z.ltb_spec 0 seconds) as [Hpos|Hle].
  - rewrite (store_add_time_at utcoffset _ _ _ _ _ _ Hpos).
    split; simpl; now apply positive_upsert_add.
  - unfold exec. rewrite add_time_nonpositive by lia. now split.
Qed.

Lemma positive_top_activities utcoffset user_id period limit w res :
  positive_store (store w) ->
  eval (top_activities utcoffset user_id period limit) w = Returns res ->
  Forall (fun r => 0 < snd r) res.
Proof.
  intros [Ht Hd]. destruct (String.eqb_spec period "all") as [->|Hp].
  - rewrite eval_top_activities_all. intros E. inversion E.
    now apply positive_ranked, positive_totals_of_user.
  - rewrite eval_top_activities_window by exact Hp.
    destruct (query_window utcoffset period w) as [win|e]; simpl;
      intros E; inversion E.
    now apply positive_ranked, positive_group_sum, positive_daily_of_user.
Qed.

Lemma positive_leaderboard utcoffset ids activity period limit w res :
  positive_store (store w) ->
  eval (leaderboard utcoffset ids activity period limit) w = Returns res ->
  Forall (fun r => 0 < snd r) res.
Proof.
  intros [Ht Hd] Hres. destruct ids as [|id ids].
  { rewrite eval_leaderboard_empty in Hres. inversion Hres. constructor. }
  assert (Hne : id :: ids <> []) by discriminate.
  destruct (String.eqb_spec period "all") as [->|Hp].
  - rewrite eval_leaderboard_all in Hres by exact Hne. inversion Hres.
    unfold leaderboard_all.
    destruct activity as [a|]; [destruct (truthy (Some a))|];
      apply positive_ranked; try apply positive_group_sum;
      now apply positive_joined_totals.
  - rewrite eval_leaderboard_window in Hres by assumption.
    destruct (query_window utcoffset period w) as [win|e]; simpl in Hres;
      inversion Hres.
    rewrite leaderboard_window_keep_of.
    now apply positive_ranked, positive_group_sum, positive_joined_daily.
Qed.

(** X3.  Nothing is listed with zero seconds.  On a store whose counters
    are positive (a new database has none), let any calls run: starts,
    stops, credits with whatever seconds, heartbeat ticks, presence
    updates.  The counters are positive afterwards, and every row that
    [top_activities] or [leaderboard] then returns has positive seconds. *)
Theorem recorded_seconds_are_positive (utcoffset : time -> Z) (w : world)
  (calls : list call) :
  positive_store (store w) ->
  let w' := exec (run_calls utcoffset calls) w in
  positive_store (store w') /\
  (forall user_id period limit res,
     eval (top_activities utcoffset user_id period limit) w' = Returns res ->
     Forall (fun r => 0 < snd r) res) /\
  (forall user_ids activity period limit res,
     eval (leaderboard utcoffset user_ids activity period limit) w' =
       Returns res ->
     Forall (fun r => 0 < snd r) res).
Proof.
  intros Hw w'.
  assert (Hw' : positive_store (store w')).
  { subst w'. apply (run_calls_keeps utcoffset positive_store); [|exact Hw].
    intros. now apply positive_add_time. }
  split; [exact Hw'|]. split.
  - intros user_id period limit res. now apply positive_top_activities.
  - intros user_ids activity period limit res. now apply positive_leaderboard.
Qed.

(** X4.  Totals and daily counters stay equal under every call.  If for
    every user and activity the [totals] counter equals the sum of the
    [daily_totals] counters over all days, then so it is after any calls:
    starts, stops, credits, heartbeat ticks and presence updates. *)
Theorem totals_match_daily_after_calls (utcoffset : time -> Z) (w : world)
  (calls : list call) :
  (forall u a, total_seconds (store w) u a = daily_sum (store w) u a) ->
  forall u a,
    total_seconds (store (exec (run_calls utcoffset calls) w)) u a =
    daily_sum (store (exec (run_calls utcoffset calls) w)) u a.
Proof.
  apply (run_calls_keeps utcoffset
           (fun s => forall u a, total_seconds s u a = daily_sum s u a)).
  intros w0 user_id username activity seconds when Hinv u a.
  destruct (add_time_counters utcoffset user_id username activity seconds when
              w0 u a) as [-> ->].
  now rewrite Hinv.
Qed.

(* ------------------------------------------------------------------ *)
(** ** The all-time leaderboard and the totals *)

(** All the seconds [totals] holds for a user, over all activities. *)
Definition user_total (u : Z) (s : Store) : Z :=
  key_sum u (map (fun r => (fst (fst r), snd r)) (totals s)).

Lemma in_ids_true ids u : In u ids -> in_ids ids u = true.
Proof.
  intros Hin. unfold in_ids. apply existsb_exists. exists u.
  split; [exact Hin|apply Z.eqb_refl].
Qed.

(** The rows joined for a user add up to the user's total. *)
Lemma key_sum_joined_totals ids s u name updated_at :
  In u ids ->
  Dict.get u (guild_usernames s) = Some (name, updated_at) ->
  key_sum (u, name) (joined_totals ids any_activity s) = user_total u s.
Proof.
  intros Hids Hname. unfold joined_totals, user_total.
  induction (totals s) as [|[[u' a'] v'] tl IH]; [reflexivity|].
  cbn [flat_map map fst snd]. rewrite key_sum_app, IH. f_equal.
  cbn [key_sum fst snd].
  destruct (Z.eqb_spec u' u) as [->|Hne].
  - rewrite Hname, (in_ids_true _ _ Hids). cbn [any_activity andb fst].
    cbn [key_sum]. rewrite key_eqb_refl. cbn [key_eqb Key_Z].
    rewrite Z.eqb_refl. lia.
  - cbn [key_eqb Key_Z]. apply Z.eqb_neq in Hne. rewrite Hne.
    destruct (Dict.get u' (guild_usernames s)) as [gu|]; [|reflexivity].
    destruct (in_ids ids u' && any_activity a'); [|reflexivity].
    cbn [key_sum key_eqb Key_pair fst snd Key_Z]. rewrite Hne. reflexivity.
Qed.

Lemma joined_totals_has_user ids s u name updated_at a v :
  In u ids ->
  Dict.get u (guild_usernames s) = Some (name, updated_at) ->
  In ((u, a), v) (totals s) ->
  In (u, name) (map fst (joined_totals ids any_activity s)).
Proof.
  intros Hids Hname Hrow. apply in_map_iff. exists ((u, name), v).
  split; [reflexivity|]. unfold joined_totals. apply in_flat_map.
  exists ((u, a), v). split; [exact Hrow|].
  cbn [fst snd]. rewrite Hname, (in_ids_true _ _ Hids). now left.
Qed.

(** X5.  Nobody is lost by the join.  Let a user have a stored display
    name and at least one row in [totals], and be among the ids asked
    for.  Then the all-time leaderboard without activity filter and
    without bound on its length lists the user, under that name, with the
    sum of the user's totals over all activities. *)
Theorem leaderboard_all_lists_user_total (utcoffset : time -> Z) (w : world)
  (user_ids : list Z) (limit : Z) (u : Z) (name : string) (updated_at : time)
  (a : string) (v : Z) :
  In u user_ids ->
  Dict.get u (guild_usernames (store w)) = Some (name, updated_at) ->
  In ((u, a), v) (totals (store w)) ->
  limit < 0 ->
  exists res,
    eval (leaderboard utcoffset user_ids None "all" limit) w = Returns res /\
    In ((u, name), user_total u (store w)) res.
Proof.
  intros Hids Hname Hrow Hl.
  assert (Hne : user_ids <> []) by (destruct user_ids; [destruct Hids|discriminate]).
  rewrite eval_leaderboard_all by exact Hne. eexists. split; [reflexivity|].
  unfold leaderboard_all.
  apply (Permutation_in _ (Permutation_sym (ranked_unlimited limit _ Hl))).
  apply In_NoDup_keys; [apply group_sum_NoDup|]. split.
  - apply group_sum_keys. eapply joined_totals_has_user; eassumption.
  - rewrite seconds_of_group_sum. symmetry.
    eapply key_sum_joined_totals; eassumption.
Qed.

(* ------------------------------------------------------------------ *)
(** ** One row per activity, one row per user *)

Lemma NoDup_firstn {A} n (l : list A) : NoDup l -> NoDup (firstn n l).
Proof.
  intros Hnd. revert n. induction Hnd as [|x tl Hx Hnd IH]; intros [|n]; simpl;
    try constructor; auto.
  intros Hin. apply Hx. revert Hin. apply In_firstn.
Qed.

Lemma NoDup_map_ranked {A B} `{KeyOrder A} (f : A * Z -> B) limit
  (l : list (A * Z)) :
  NoDup (map f l) -> NoDup (map f (ranked limit l)).
Proof.
  intros Hnd. unfold ranked, sql_limit.
  assert (Ho : NoDup (map f (order_by_seconds_desc (index_order l)))).
  { eapply Permutation_NoDup; [|exact Hnd].
    apply Permutation_map, Permutation_sym.
    rewrite order_by_seconds_desc_Permutation. apply index_order_Permutation. }
  destruct (limit <? 0); [exact Ho|].
  rewrite <- firstn_map. now apply NoDup_firstn.
Qed.

Lemma NoDup_map_inj_on {A B} (f : A -> B) (l : list A) :
  (forall x y, In x l -> In y l -> f x = f y -> x = y) ->
  NoDup l -> NoDup (map f l).
Proof.
  intros Hinj Hnd. induction Hnd as [|x tl Hx Hnd IH]; simpl; constructor.
  - intros Hin. apply in_map_iff in Hin as (y & E & Hy).
    assert (y = x) by (apply Hinj; simpl; auto). now subst.
  - apply IH. intros a b Ha Hb. apply Hinj; simpl; auto.
Qed.

Lemma totals_of_user_In user_id s a v :
  In (a, v) (totals_of_user user_id s) <-> In ((user_id, a), v) (totals s).
Proof.
  unfold totals_of_user. rewrite in_map_iff. split.
  - intros ([[u' a'] v'] & E & Hin). apply filter_In in Hin as [Hin Hu].
    simpl in *. apply Z.eqb_eq in Hu. inversion E. now subst.
  - intros Hin. exists ((user_id, a), v). split; [reflexivity|].
    apply filter_In. split; [exact Hin|apply Z.eqb_refl].
Qed.

Lemma totals_of_user_NoDup user_id s :
  NoDup (map fst (totals s)) -> NoDup (map fst (totals_of_user user_id s)).
Proof.
  unfold totals_of_user.
  induction (totals s) as [|[[u' a'] v'] tl IH]; simpl; intros Hnd;
    [constructor|].
  inversion Hnd as [|x xs Hx Hnd']; subst.
  destruct (Z.eqb_spec u' user_id) as [->|Hne]; simpl; [|auto].
  constructor; [|auto].
  intros Hin. apply Hx. apply in_map_iff in Hin as ([a v] & E & Hin).
  simpl in E. subst a.
  apply in_map_iff in Hin as ([[u0 a0] v0] & E & Hin).
  apply filter_In in Hin as [Hin Hu]. simpl in *. apply Z.eqb_eq in Hu.
  inversion E. subst.
  apply in_map_iff. now exists ((user_id, a'), v).
Qed.

Lemma daily_of_user_from user_id start end_ s a v :
  In (a, v) (daily_of_user user_id start end_ s) ->
  exists d, In ((user_id, a, d), v) (daily_totals s) /\
            between start end_ d = true.
Proof.
  unfold daily_of_user. rewrite in_map_iff.
  intros ([[[u' a'] d'] v'] & E & Hin). apply filter_In in Hin as [Hin Hf].
  simpl in *. apply andb_prop in Hf as [Hu Hb]. apply Z.eqb_eq in Hu.
  inversion E. subst. eauto.
Qed.

(** X6.  The shape of a [top_activities] result.  With one row per user
    and activity in [totals], whatever [top_activities] returns is ordered
    non-increasing by seconds, has at most [limit] rows when [limit] is not
    negative, and names no activity twice.  For the period "all" its rows
    are rows of [totals] of that user, unchanged; for any other period
    every activity it names has a [daily_totals] row of that user. *)
Theorem top_activities_result_shape (utcoffset : time -> Z) (w : world)
  (user_id : Z) (period : string) (limit : Z) (res : list (string * Z)) :
  NoDup (map fst (totals (store w))) ->
  eval (top_activities utcoffset user_id period limit) w = Returns res ->
  StronglySorted by_seconds_desc res /\
  (0 <= limit -> Z.of_nat (List.length res) <= limit) /\
  NoDup (map fst res) /\
  (period = "all"%string ->
   forall a v, In (a, v) res -> In ((user_id, a), v) (totals (store w))) /\
  (period <> "all"%string ->
   forall a v, In (a, v) res ->
   exists d v0, In ((user_id, a, d), v0) (daily_totals (store w))).
Proof.
  intros Hnd. destruct (String.eqb_spec period "all") as [->|Hp].
  - rewrite eval_top_activities_all. intros E. inversion E. unfold top_all.
    split; [apply ranked_sorted|]. split; [apply ranked_length|].
    split; [now apply NoDup_map_ranked, totals_of_user_NoDup|].
    split; [|congruence].
    intros _ a v Hin. apply ranked_In in Hin. now apply totals_of_user_In.
  - rewrite eval_top_activities_window by exact Hp.
    destruct (query_window utcoffset period w) as [[start end_]|e]; simpl;
      intros E; inversion E.
    unfold top_window.
    split; [apply ranked_sorted|]. split; [apply ranked_length|].
    split; [apply NoDup_map_ranked, group_sum_NoDup|].
    split; [congruence|].
    intros _ a v Hin. apply ranked_In in Hin.
    apply group_sum_key_from in Hin as ([a0 v0] & Hin & Ea).
    simpl in Ea. subst a0.
    apply daily_of_user_from in Hin as (d & Hin & _). eauto.
Qed.

Lemma joined_totals_users_NoDup ids a s :
  NoDup (map fst (totals s)) ->
  NoDup (map (fun r => fst (fst r)) (joined_totals ids (String.eqb a) s)).
Proof.
  unfold joined_totals.
  induction (totals s) as [|[[u' a'] v'] tl IH]; simpl; intros Hnd;
    [constructor|].
  inversion Hnd as [|x xs Hx Hnd']; subst.
  rewrite map_app. specialize (IH Hnd').
  destruct (Dict.get u' (guild_usernames s)) as [gu|]; [|exact IH].
  destruct (in_ids ids u' && String.eqb a a') eqn:E; [|exact IH].
  apply andb_prop in E as [_ Ea]. apply String.eqb_eq in Ea. subst a'.
  simpl. constructor; [|exact IH].
  intros Hin. apply Hx.
  apply in_map_iff in Hin as (r & Er & Hin).
  apply in_flat_map in Hin as ([[u0 a0] v0] & Hin0 & Hin).
  simpl in Hin.
  destruct (Dict.get u0 (guild_usernames s)) as [gu0|]; [|destruct Hin].
  destruct (in_ids ids u0 && String.eqb a a0) eqn:E0; [|destruct Hin].
  apply andb_prop in E0 as [_ Ea0]. apply String.eqb_eq in Ea0. subst a0.
  destruct Hin as [<-|[]]. simpl in Er. subst u0.
  apply in_map_iff. now exists ((u', a), v0).
Qed.

(** Rows keyed by a user and the name stored for the user: one row per key
    is one row per user. *)
Lemma users_NoDup_of_keys s (l : rows (Z * string)) :
  (forall r, In r l ->
     exists updated_at,
       Dict.get (fst (fst r)) (guild_usernames s) = Some (snd (fst r), updated_at)) ->
  NoDup (map fst l) ->
  NoDup (map (fun r => fst (fst r)) l).
Proof.
  intros Hname Hnd.
  rewrite <- (map_map fst fst).
  apply NoDup_map_inj_on; [|exact Hnd].
  intros [u n] [u' n'] Hx Hy E. simpl in E. subst u'.
  apply in_map_iff in Hx as (r & Er & Hr).
  apply in_map_iff in Hy as (r' & Er' & Hr').
  destruct (Hname r Hr) as [upd Hg]. destruct (Hname r' Hr') as [upd' Hg'].
  rewrite Er in Hg. rewrite Er' in Hg'. simpl in *. congruence.
Qed.

Lemma grouped_users_NoDup s (l : rows (Z * string)) :
  (forall r, In r l ->
     exists updated_at,
       Dict.get (fst (fst r)) (guild_usernames s) = Some (snd (fst r), updated_at)) ->
  NoDup (map (fun r => fst (fst r)) (group_sum l)).
Proof.
  intros Hname. apply (users_NoDup_of_keys s); [|apply group_sum_NoDup].
  intros r Hr. apply group_sum_key_from in Hr as (r0 & Hr0 & E).
  rewrite <- E. now apply Hname.
Qed.

(** X7.  One row per user.  With one row per user and activity in
    [totals], no user id occurs twice in what [leaderboard] returns,
    whatever the ids (also when an id is passed twice), activity, period
    and limit. *)
Theorem leaderboard_lists_each_user_once (utcoffset : time -> Z) (w : world)
  (user_ids : list Z) (activity : option string) (period : string)
  (limit : Z) (res : list (Z * string * Z)) :
  NoDup (map fst (totals (store w))) ->
  eval (leaderboard utcoffset user_ids activity period limit) w = Returns res ->
  NoDup (map (fun row => fst (fst row)) res).
Proof.
  intros Hnd Hres. destruct user_ids as [|id ids].
  { rewrite eval_leaderboard_empty in Hres. inversion Hres. constructor. }
  assert (Hne : id :: ids <> []) by discriminate.
  destruct (String.eqb_spec period "all") as [->|Hp].
  - rewrite eval_leaderboard_all in Hres by exact Hne. inversion Hres.
    unfold leaderboard_all.
    destruct activity as [a|]; [destruct (truthy (Some a))|];
      apply NoDup_map_ranked.
    + now apply joined_totals_users_NoDup.
    + apply (grouped_users_NoDup (store w)). intros r.
      apply joined_totals_name.
    + apply (grouped_users_NoDup (store w)). intros r.
      apply joined_totals_name.
  - rewrite eval_leaderboard_window in Hres by assumption.
    destruct (query_window utcoffset period w) as [win|e]; simpl in Hres;
      inversion Hres.
    rewrite leaderboard_window_keep_of. apply NoDup_map_ranked.
    apply (grouped_users_NoDup (store w)). intros r. apply joined_daily_name.
Qed.

(* ------------------------------------------------------------------ *)
(** ** The month, and how the windows nest *)

Section Windows.
Variable utcoffset : time -> Z.

Lemma query_window_today w :
  query_window utcoffset "today" w =
  Returns (reading_date utcoffset w 0, reading_date utcoffset w 0).
Proof. reflexivity. Qed.

(** The two readings of a "month" query: the first dates the end of the
    window, the second, 29 days back, its start. *)
Lemma query_window_month_readings w :
  29 < reading_date utcoffset w 1 <= MAXORDINAL ->
  query_window utcoffset "month" w =
  Returns (reading_date utcoffset w 1 - 29, reading_date utcoffset w 0).
Proof.
  intros Hr. unfold query_window. simpl String.eqb. cbv iota. unfold date_sub.
  destruct (Z.ltb_spec 0 (reading_date utcoffset w 1 - 29)); [|lia].
  destruct (Z.leb_spec (reading_date utcoffset w 1 - 29) MAXORDINAL);
    [reflexivity|lia].
Qed.

End Windows.

(** X8.  The "month" window.  A "month" query reads the clock twice: the
    local date of the first reading is the end of its window, the local
    date of the second, 29 days back, its start (that start being a date).
    A row of [daily_totals] dated before the start or after the end
    changes no "month" result of [top_activities] or of [leaderboard].  A
    row dated from the start to the end, both included, is part of them:
    for every limit the result for its user is the ranking [full] cut to
    the limit, and [full] lists the activity (for [leaderboard], the user)
    with the seconds it has in the ranking without the row plus the
    seconds of the row.  With both readings on the local day [today] the
    window is the 30 days from [today - 29] to [today]. *)
Theorem month_window_boundary (utcoffset : time -> Z) (w : world)
  (user_id : Z) (activity : string) (d : day) (seconds : Z)
  (rows1 rows2 : rows (Z * string * day)) :
  29 < reading_date utcoffset w 1 <= MAXORDINAL ->
  let start := reading_date utcoffset w 1 - 29 in
  let end_ := reading_date utcoffset w 0 in
  let holding :=
    with_daily w (rows1 ++ ((user_id, activity, d), seconds) :: rows2) in
  let without := with_daily w (rows1 ++ rows2) in
  (d < start \/ end_ < d ->
     (forall u limit,
        eval (top_activities utcoffset u "month" limit) holding =
        eval (top_activities utcoffset u "month" limit) without) /\
     (forall ids activity_opt limit,
        eval (leaderboard utcoffset ids activity_opt "month" limit) holding =
        eval (leaderboard utcoffset ids activity_opt "month" limit) without)) /\
  (start <= d <= end_ ->
     (exists full full0,
        (forall limit,
           eval (top_activities utcoffset user_id "month" limit) holding =
           Returns (sql_limit limit full)) /\
        (forall limit,
           eval (top_activities utcoffset user_id "month" limit) without =
           Returns (sql_limit limit full0)) /\
        In activity (map fst full) /\
        (forall v, In (activity, v) full ->
                   v = key_sum activity full0 + seconds)) /\
     (forall ids activity_opt name updated_at,
        In user_id ids ->
        Dict.get user_id (guild_usernames (store w)) = Some (name, updated_at) ->
        keep_of activity_opt activity = true ->
        exists full full0,
          (forall limit,
             eval (leaderboard utcoffset ids activity_opt "month" limit) holding =
             Returns (sql_limit limit full)) /\
          (forall limit,
             eval (leaderboard utcoffset ids activity_opt "month" limit) without =
             Returns (sql_limit limit full0)) /\
          In (user_id, name) (map fst full) /\
          (forall v, In ((user_id, name), v) full ->
                     v = key_sum (user_id, name) full0 + seconds))).
Proof.
  intros Hr start end_ holding without.
  pose proof (query_window_month_readings utcoffset w Hr) as Hwin.
  assert (Hnot_all : "month"%string <> "all"%string) by discriminate.
  split.
  - intros Hd. apply window_row_outside with (start := start) (end_ := end_);
      [exact Hnot_all|exact Hwin|now apply between_outside].
  - intros Hd. apply between_inside in Hd. split.
    + now apply window_row_inside_top with (start := start) (end_ := end_).
    + intros ids activity_opt name updated_at Hids Hname Hkeep.
      now apply window_row_inside_leaderboard
        with (start := start) (end_ := end_) (updated_at := updated_at).
Qed.

Lemma key_sum_seconds_of {K} `{KeyOk K} (k : K) (t : rows K) :
  NoDup (map fst t) -> key_sum k t = seconds_of k t.
Proof.
  induction t as [|[k0 v0] tl IH]; simpl; intros Hnd; [reflexivity|].
  inversion Hnd as [|x xs Hx Hnd']; subst.
  destruct (key_eqb_spec k0 k) as [->|Hne].
  - assert (Hz : key_sum k tl = 0).
    { clear IH Hnd Hnd'. induction tl as [|[k1 v1] tl IH]; [reflexivity|].
      simpl in *. destruct (key_eqb_spec k1 k) as [->|_]; [tauto|].
      rewrite IH; tauto. }
    lia.
  - rewrite IH by exact Hnd'. lia.
Qed.

Lemma key_sum_totals_of_user user_id a s :
  key_sum a (totals_of_user user_id s) = key_sum (user_id, a) (totals s).
Proof.
  unfold totals_of_user.
  induction (totals s) as [|[[u' a'] v'] tl IH]; [reflexivity|].
  cbn [filter map key_sum fst snd]. cbn [key_eqb Key_pair Key_Z Key_string fst snd].
  destruct (u' =? user_id); cbn [map key_sum fst snd andb]; rewrite IH;
    [reflexivity|lia].
Qed.

(** A wider window reports at least as much, the counters not being
    negative. *)
Lemma key_sum_daily_of_user_wider user_id a start start' end_ s :
  Forall (fun r => 0 <= snd r) (daily_totals s) ->
  start' <= start ->
  key_sum a (daily_of_user user_id start end_ s) <=
  key_sum a (daily_of_user user_id start' end_ s).
Proof.
  intros Hnn Hle. unfold daily_of_user.
  induction Hnn as [|[[[u' a'] d'] v'] tl Hv _ IH]; [reflexivity|].
  simpl in Hv. cbn [filter fst snd].
  assert (Himp : between start end_ d' = true -> between start' end_ d' = true).
  { unfold between. rewrite !andb_true_iff, !Z.leb_le. lia. }
  destruct (u' =? user_id); cbn [andb]; [|exact IH].
  destruct (between start end_ d') eqn:E.
  - rewrite Himp by reflexivity. cbn [map key_sum fst snd]. lia.
  - destruct (between start' end_ d'); cbn [map key_sum fst snd]; [|exact IH].
    destruct (key_eqb a' a); lia.
Qed.

Lemma key_sum_daily_of_user_le_daily_sum user_id a start end_ s :
  Forall (fun r => 0 <= snd r) (daily_totals s) ->
  key_sum a (daily_of_user user_id start end_ s) <= daily_sum s user_id a.
Proof.
  intros Hnn. unfold daily_of_user, daily_sum.
  induction Hnn as [|[[[u' a'] d'] v'] tl Hv _ IH]; [reflexivity|].
  simpl in Hv. cbn [filter map key_sum fst snd].
  cbn [key_eqb Key_pair Key_Z Key_string fst snd].
  destruct (u' =? user_id); cbn [andb].
  - destruct (between start end_ d'); cbn [map key_sum fst snd].
    + cbn [key_eqb Key_string]. lia.
    + destruct (String.eqb a' a); lia.
  - lia.
Qed.

Lemma positive_rows_nonneg {K} (t : rows K) :
  positive_rows t -> Forall (fun r => 0 <= snd r) t.
Proof. apply Forall_impl. intros r. lia. Qed.

(** X9.  The windows nest.  Let the second reading of the clock that a
    query takes fall on a local day no more than six days after that of
    the first (as it does on a clock that runs forward, across local
    midnight too), with the day 29 days before it a date; and let the
    store have positive counters, one row per key in [totals], and totals
    equal to the sums of the daily counters.  Then for every user the
    results of [top_activities] for "today", "week", "month" and "all" are,
    for every limit, four rankings cut to the limit, and for every
    activity the ranking for "today" shows at most what that for "week"
    shows, that for "week" at most what that for "month" shows, and that
    for "month" at most what that for "all" shows. *)
Theorem windows_nest (utcoffset : time -> Z) (w : world)
  (user_id : Z) (activity : string) :
  29 < reading_date utcoffset w 1 <= MAXORDINAL ->
  reading_date utcoffset w 1 - 6 <= reading_date utcoffset w 0 ->
  positive_store (store w) ->
  NoDup (map fst (totals (store w))) ->
  (forall u a, total_seconds (store w) u a = daily_sum (store w) u a) ->
  exists r_today r_week r_month r_all,
    (forall limit,
       eval (top_activities utcoffset user_id "today" limit) w =
       Returns (sql_limit limit r_today)) /\
    (forall limit,
       eval (top_activities utcoffset user_id "week" limit) w =
       Returns (sql_limit limit r_week)) /\
    (forall limit,
       eval (top_activities utcoffset user_id "month" limit) w =
       Returns (sql_limit limit r_month)) /\
    (forall limit,
       eval (top_activities utcoffset user_id "all" limit) w =
       Returns (sql_limit limit r_all)) /\
    key_sum activity r_today <= key_sum activity r_week /\
    key_sum activity r_week <= key_sum activity r_month /\
    key_sum activity r_month <= key_sum activity r_all.
Proof.
  intros Hr Hclose [Hpt Hpd] Hnd Hinv.
  assert (Hl : -1 < 0) by lia.
  assert (Hr6 : 6 < reading_date utcoffset w 1 <= MAXORDINAL) by lia.
  exists (top_window user_id (reading_date utcoffset w 0)
            (reading_date utcoffset w 0) (-1) (store w)),
         (top_window user_id (reading_date utcoffset w 1 - 6)
            (reading_date utcoffset w 0) (-1) (store w)),
         (top_window user_id (reading_date utcoffset w 1 - 29)
            (reading_date utcoffset w 0) (-1) (store w)),
         (top_all user_id (-1) (store w)).
  split.
  { intros limit. rewrite eval_top_activities_window by discriminate.
    rewrite query_window_today. cbn [outcome_map fst snd].
    now rewrite <- top_window_limit. }
  split.
  { intros limit. rewrite eval_top_activities_window by discriminate.
    rewrite (query_window_week_readings utcoffset w Hr6).
    cbn [outcome_map fst snd]. now rewrite <- top_window_limit. }
  split.
  { intros limit. rewrite eval_top_activities_window by discriminate.
    rewrite (query_window_month_readings utcoffset w Hr).
    cbn [outcome_map fst snd]. now rewrite <- top_window_limit. }
  split.
  { intros limit. rewrite eval_top_activities_all. unfold top_all.
    now rewrite <- ranked_limit. }
  unfold top_window, top_all.
  rewrite !key_sum_ranked_group by exact Hl.
  rewrite (key_sum_Permutation activity _ _ (ranked_unlimited (-1) _ Hl)).
  pose proof (positive_rows_nonneg _ Hpd) as Hnn.
  split; [|split].
  - apply key_sum_daily_of_user_wider; [exact Hnn|lia].
  - apply key_sum_daily_of_user_wider; [exact Hnn|lia].
  - rewrite key_sum_totals_of_user.
    rewrite (key_sum_seconds_of (user_id, activity) (totals (store w)) Hnd).
    change (seconds_of (user_id, activity) (totals (store w)))
      with (total_seconds (store w) user_id activity).
    rewrite Hinv. now apply key_sum_daily_of_user_le_daily_sum.
Qed.

(* ------------------------------------------------------------------ *)
(** ** A credit, read back *)

(** An upsert seen through a selection and a projection of the key. *)
Lemma key_sum_select_upsert_add {K' K} `{KeyOk K'} `{KeyOk K}
  (f : K' -> bool) (p : K' -> K) (k : K) (k' : K') v (t : rows K') :
  key_sum k (map (fun r => (p (fst r), snd r))
               (filter (fun r => f (fst r)) (upsert_add k' v t))) =
  key_sum k (map (fun r => (p (fst r), snd r))
               (filter (fun r => f (fst r)) t))
  + (if f k' && key_eqb (p k') k then v else 0).
Proof.
  induction t as [|[k0 v0] tl IH]; cbn [upsert_add filter fst snd].
  - destruct (f k'); cbn [map key_sum fst snd andb]; [|reflexivity].
    destruct (key_eqb (p k') k); lia.
  - destruct (key_eqb_spec k0 k') as [->|Hne]; cbn [filter fst snd].
    + destruct (f k'); cbn [map key_sum fst snd andb]; [|lia].
      destruct (key_eqb (p k') k); lia.
    + destruct (f k0); cbn [map key_sum fst snd]; rewrite IH; lia.
Qed.

Section CreditReadBack.
Variable utcoffset : time -> Z.

Lemma top_all_after_credit user_id username activity seconds when w a limit :
  0 < seconds -> limit < 0 ->
  key_sum a (top_all user_id limit
               (store (exec (add_time utcoffset user_id username activity
                               seconds when) w))) =
  key_sum a (top_all user_id limit (store w))
  + (if String.eqb activity a then seconds else 0).
Proof.
  intros Hpos Hl. unfold top_all.
  rewrite !(key_sum_Permutation a _ _ (ranked_unlimited limit _ Hl)).
  rewrite (store_add_time_at utcoffset _ _ _ _ _ _ Hpos).
  unfold totals_of_user. cbn [totals].
  rewrite (key_sum_select_upsert_add
             (fun k : Z * string => Z.eqb (fst k) user_id)
             (fun k : Z * string => snd k)).
  cbn [fst snd]. now rewrite Z.eqb_refl.
Qed.

Lemma top_window_after_credit user_id username activity seconds when w a
  start end_ limit :
  0 < seconds -> limit < 0 ->
  key_sum a (top_window user_id start end_ limit
               (store (exec (add_time utcoffset user_id username activity
                               seconds when) w))) =
  key_sum a (top_window user_id start end_ limit (store w))
  + (if between start end_ (credit_date utcoffset when w) && String.eqb activity a
     then seconds else 0).
Proof.
  intros Hpos Hl. unfold top_window.
  rewrite !key_sum_ranked_group by exact Hl.
  rewrite (store_add_time_at utcoffset _ _ _ _ _ _ Hpos).
  unfold daily_of_user. cbn [daily_totals].
  rewrite (key_sum_select_upsert_add
             (fun k : Z * string * day =>
                Z.eqb (fst (fst k)) user_id && between start end_ (snd k))
             (fun k : Z * string * day => snd (fst k))).
  cbn [fst snd]. now rewrite Z.eqb_refl.
Qed.

End CreditReadBack.

(** X10.  A credit is read back at once.  After a call of [add_time] with
    positive [seconds] and no [when], [top_activities] for that user, with
    no bound on the number of rows, reports for the credited activity
    exactly [seconds] more than the store before the credit gives, and for
    every other activity the same as before: for the period "all" always,
    and for the period "today" when the query is made on the local date
    the credit was made on. *)
Theorem credit_read_back (utcoffset : time -> Z) (w : world) (user_id : Z)
  (username activity : string) (seconds limit : Z) :
  0 < seconds -> limit < 0 ->
  let w' := exec (add_time utcoffset user_id username activity seconds None) w in
  let d := credit_date utcoffset None w in
  (exists res,
     eval (top_activities utcoffset user_id "all" limit) w' = Returns res /\
     key_sum activity res =
       key_sum activity (top_all user_id limit (store w)) + seconds /\
     forall a, a <> activity ->
       key_sum a res = key_sum a (top_all user_id limit (store w))) /\
  (reading_date utcoffset w' 0 = d ->
   exists res,
     eval (top_activities utcoffset user_id "today" limit) w' = Returns res /\
     key_sum activity res =
       key_sum activity (top_window user_id d d limit (store w)) + seconds /\
     forall a, a <> activity ->
       key_sum a res = key_sum a (top_window user_id d d limit (store w))).
Proof.
  intros Hpos Hl w' d. split.
  - rewrite eval_top_activities_all. eexists. split; [reflexivity|].
    subst w'. split.
    + rewrite top_all_after_credit by assumption.
      now rewrite String.eqb_refl.
    + intros a Ha. rewrite top_all_after_credit by assumption.
      apply not_eq_sym, String.eqb_neq in Ha. rewrite Ha. lia.
  - intros Hd.
    rewrite eval_top_activities_window by discriminate.
    rewrite (query_window_today utcoffset w'), Hd. simpl.
    eexists. split; [reflexivity|]. subst w'. split.
    + rewrite top_window_after_credit by assumption. fold d.
      assert (Hb : between d d d = true).
      { unfold between. now rewrite Z.leb_refl. }
      now rewrite Hb, String.eqb_refl.
    + intros a Ha. rewrite top_window_after_credit by assumption.
      apply not_eq_sym, String.eqb_neq in Ha. rewrite Ha, andb_false_r. lia.
Qed.

(* ------------------------------------------------------------------ *)
(** ** Presence updates *)

Lemma taken_start_new u a w :
  started_at u a w = None -> taken (exec (start u a) w) = S (taken w).
Proof.
  unfold started_at, start. unfold_m.
  rewrite get_setdefault_same.
  destruct (Dict.get u (active w)) as [s|] eqn:Hu; intros Hs.
  - unfold Dict.contains. now rewrite Hs.
  - reflexivity.
Qed.

Lemma clock_stop u a w : clock (exec (stop u a) w) = clock w.
Proof.
  unfold stop. unfold_m.
  destruct (Dict.get u (active w)) as [d|]; [|reflexivity].
  now destruct (Dict.get a d).
Qed.

Section Presence.
Variable utcoffset : time -> Z.

Lemma clock_close_previous user_id username before_name w :
  clock (exec (close_previous utcoffset user_id username before_name) w) =
  clock w.
Proof.
  unfold close_previous. destruct before_name as [b|]; [|reflexivity].
  destruct (truthy (Some b)); [|reflexivity].
  rewrite exec_bind.
  destruct (0 <? eval (stop user_id b) w).
  - now rewrite clock_add_time, clock_stop.
  - unfold exec at 1. simpl. apply clock_stop.
Qed.

Lemma started_at_close_previous_same user_id username b w :
  truthy (Some b) = true ->
  started_at user_id b
    (exec (close_previous utcoffset user_id username (Some b)) w) = None.
Proof.
  intros Hb. unfold close_previous. rewrite Hb, exec_bind.
  destruct (0 <? eval (stop user_id b) w).
  - unfold started_at. rewrite active_add_time. apply started_at_stop.
  - unfold exec at 1. simpl. apply started_at_stop.
Qed.

Lemma started_at_open_current_same user_id b w :
  truthy (Some b) = true ->
  started_at user_id b (exec (open_current user_id (Some b)) w) <> None.
Proof.
  intros Hb. unfold open_current. rewrite Hb, started_at_start. discriminate.
Qed.

Lemma started_at_open_current_other u a user_id after_name w :
  (user_id, after_name) <> (u, Some a) ->
  started_at u a (exec (open_current user_id after_name) w) = started_at u a w.
Proof.
  intros Hne. unfold open_current.
  destruct after_name as [x|]; [|reflexivity].
  destruct (truthy (Some x)); [|reflexivity].
  apply started_at_start_other. congruence.
Qed.

(** What the closing part credits: nothing but the counter of the activity
    it closes. *)
Lemma total_seconds_close_previous_other user_id username before_name w u a :
  (user_id, before_name) <> (u, Some a) ->
  total_seconds
    (store (exec (close_previous utcoffset user_id username before_name) w)) u a =
  total_seconds (store w) u a.
Proof.
  intros Hne. unfold close_previous.
  destruct before_name as [b|]; [|reflexivity].
  destruct (truthy (Some b)); [|reflexivity].
  rewrite exec_bind.
  destruct (0 <? eval (stop user_id b) w).
  - destruct (add_time_counters utcoffset user_id username b
                (eval (stop user_id b) w) None (exec (stop user_id b) w) u a)
      as [-> _].
    rewrite store_stop.
    destruct (key_eqb_spec (user_id, b) (u, a)) as [E|_].
    + exfalso. apply Hne. congruence.
    + rewrite andb_false_r. lia.
  - unfold exec at 1. simpl. now rewrite store_stop.
Qed.

End Presence.

(** X11.  What a presence update does to the sessions.  When the tracked
    activity name of the member is the same before and after, nothing
    changes.  When it differs: the previous activity, if any, has no
    session afterwards; the current activity, if any, has one; and the
    sessions of every other user, and of the same user in any other
    activity, are as they were. *)
Theorem presence_update_sessions (utcoffset : time -> Z) (w : world)
  (before after : Member) :
  let u := member_id after in
  let w' := exec (on_presence_update utcoffset before after) w in
  (get_playing_name before = get_playing_name after -> w' = w) /\
  (get_playing_name before <> get_playing_name after ->
   (forall a, get_playing_name before = Some a -> started_at u a w' = None) /\
   (forall b, get_playing_name after = Some b -> started_at u b w' <> None) /\
   (forall u' a',
      (u', Some a') <> (u, get_playing_name before) ->
      (u', Some a') <> (u, get_playing_name after) ->
      started_at u' a' w' = started_at u' a' w)).
Proof.
  intros u w'. subst u w'. rewrite on_presence_update_unfold. split.
  - intros E. apply option_string_eqb_eq in E. now rewrite E.
  - intros Hne.
    destruct (option_string_eqb (get_playing_name before)
                                (get_playing_name after)) eqn:E.
    { apply option_string_eqb_eq in E. contradiction. }
    split; [|split].
    + intros a Ha. rewrite started_at_open_current_other.
      * rewrite Ha. apply started_at_close_previous_same.
        now apply get_playing_name_truthy with before.
      * intros E'. inversion E' as [E'']. apply Hne. congruence.
    + intros b Hb. rewrite Hb. apply started_at_open_current_same.
      now apply get_playing_name_truthy with after.
    + intros u' a' Hb Ha.
      rewrite started_at_open_current_other by congruence.
      apply started_at_close_previous. congruence.
Qed.

(** X12.  What a presence update credits.  It touches one counter at
    most, that of the member and the previous activity: every other
    counter of [totals] is as it was.  When a session of the previous
    activity is active and the activity has changed, that counter grows by
    the whole seconds between the stored timestamp and the reading of the
    clock, if they are positive, and not at all otherwise (less than a
    second, or a clock that went back). *)
Theorem presence_update_credit (utcoffset : time -> Z) (w : world)
  (before after : Member) :
  let u := member_id after in
  let w' := exec (on_presence_update utcoffset before after) w in
  (forall u' a',
     (u', Some a') <> (u, get_playing_name before) ->
     total_seconds (store w') u' a' = total_seconds (store w) u' a') /\
  (forall a t,
     get_playing_name before = Some a ->
     get_playing_name after <> Some a ->
     started_at u a w = Some t ->
     total_seconds (store w') u a =
     total_seconds (store w) u a
     + Z.max 0 (whole_seconds (clock w (taken w) - t))).
Proof.
  intros u w'. subst u w'. split.
  - intros u' a' Hne. rewrite on_presence_update_unfold.
    destruct (option_string_eqb _ _); [reflexivity|].
    rewrite store_open_current.
    apply total_seconds_close_previous_other. congruence.
  - intros a t Hb Ha Hs.
    rewrite (total_seconds_close utcoffset (member_id after) a t before after
               w eq_refl Hb Ha Hs).
    now rewrite (stop_present _ _ _ _ Hs).
Qed.

(** X13.  [start] then [stop].  With no session active for a user and an
    activity, [start] followed by [stop] returns the whole seconds between
    the two readings of the clock, leaves no session for that user and
    activity, leaves every other session and the store as they were, and
    keeps the user's (now possibly empty) entry in [active]. *)
Theorem start_then_stop (w : world) (u : Z) (a : string) :
  started_at u a w = None ->
  let w1 := exec (start u a) w in
  let w2 := exec (stop u a) w1 in
  eval (stop u a) w1 =
    whole_seconds (clock w (S (taken w)) - clock w (taken w)) /\
  started_at u a w2 = None /\
  (forall u' a', (u', a') <> (u, a) ->
     started_at u' a' w2 = started_at u' a' w) /\
  store w2 = store w /\
  Dict.get u (active w2) <> None.
Proof.
  intros Hnone w1 w2.
  assert (Hs1 : started_at u a w1 = Some (clock w (taken w))).
  { subst w1. rewrite started_at_start. now rewrite Hnone. }
  split; [|split; [|split; [|split]]].
  - rewrite (stop_present _ _ _ _ Hs1). subst w1.
    now rewrite clock_start, taken_start_new.
  - apply started_at_stop.
  - intros u' a' Hne. subst w2 w1.
    rewrite started_at_stop_other by congruence.
    apply started_at_start_other. congruence.
  - subst w2 w1. now rewrite store_stop, store_start.
  - subst w2. unfold started_at in Hs1. unfold stop. unfold_m.
    destruct (Dict.get u (active w1)) as [s|] eqn:Hu; [|discriminate].
    destruct (Dict.get a s); simpl; rewrite get_setitem_same; discriminate.
Qed.

(* ------------------------------------------------------------------ *)
(** ** [get_playing_name] *)

(** An activity [get_playing_name] stops at: an instance of
    [discord.Activity] whose type is tracked and whose name is not empty. *)
Definition tracked (act : PresenceActivity) : Prop :=
  is_Activity act = true /\ In (act_type act) TRACK_ACTIVITY_TYPES /\
  exists n, act_name act = Some n /\ n <> EmptyString.

Lemma ActivityType_eqb_eq a b : ActivityType_eqb a b = true <-> a = b.
Proof. destruct a, b; simpl; split; congruence. Qed.

Lemma tracked_test act :
  is_Activity act
  && existsb (ActivityType_eqb (act_type act)) TRACK_ACTIVITY_TYPES
  && truthy (act_name act) = true <-> tracked act.
Proof.
  unfold tracked. rewrite !andb_true_iff, existsb_exists.
  split.
  - intros [[Hc (t & Hin & Ht)] Hn]. apply ActivityType_eqb_eq in Ht. subst t.
    split; [exact Hc|]. split; [exact Hin|].
    destruct (act_name act) as [n|]; [|discriminate].
    exists n. split; [reflexivity|]. simpl in Hn.
    intros ->. discriminate.
  - intros (Hc & Hin & n & Hn & Hne). split; [split; [exact Hc|]|].
    + exists (act_type act). split; [exact Hin|]. now apply ActivityType_eqb_eq.
    + rewrite Hn. simpl. apply String.eqb_neq in Hne. now rewrite Hne.
Qed.

(** X14.  [get_playing_name] returns the name of the first activity of the
    member that is an instance of [discord.Activity], of type playing, and
    has a non-empty name; activities before it that fail one of the three
    are passed over.  It returns [None] exactly when the member has no
    such activity, and never returns an empty name. *)
Theorem get_playing_name_first_tracked (member : Member) :
  (forall n,
     get_playing_name member = Some n <->
     exists before act after,
       member_activities member = before ++ act :: after /\
       Forall (fun x => ~ tracked x) before /\
       tracked act /\ act_name act = Some n) /\
  (get_playing_name member = None <->
   Forall (fun x => ~ tracked x) (member_activities member)) /\
  get_playing_name member <> Some EmptyString.
Proof.
  unfold get_playing_name.
  induction (member_activities member) as [|act tl IH];
    cbn [get_playing_name_in].
  - split; [|split].
    + intros n. split; [discriminate|].
      intros (b & x & a & E & _). destruct b; discriminate.
    + split; [constructor|reflexivity].
    + discriminate.
  - destruct IH as (IHsome & IHnone & IHempty).
    destruct (is_Activity act
              && existsb (ActivityType_eqb (act_type act)) TRACK_ACTIVITY_TYPES
              && truthy (act_name act)) eqn:E.
    + apply tracked_test in E. split; [|split].
      * intros n. split.
        -- intros Hn. exists [], act, tl.
           split; [reflexivity|]. split; [constructor|]. now split.
        -- intros ([|x b] & y & a & El & Hb & Hy & Hn).
           ++ simpl in El. inversion El. now subst.
           ++ simpl in El. inversion El. subst.
              inversion Hb. contradiction.
      * split.
        -- intros Hn. destruct E as (_ & _ & n & Hname & _). congruence.
        -- intros Hall. inversion Hall. contradiction.
      * destruct E as (_ & _ & n & Hname & Hne). rewrite Hname. congruence.
    + assert (Hnot : ~ tracked act).
      { intros Ht. apply tracked_test in Ht. congruence. }
      split; [|split].
      * intros n. rewrite IHsome. split.
        -- intros (b & y & a & El & Hb & Hy & Hn).
           exists (act :: b), y, a. rewrite El.
           split; [reflexivity|]. split; [now constructor|]. now split.
        -- intros ([|x b] & y & a & El & Hb & Hy & Hn).
           ++ simpl in El. inversion El. subst. contradiction.
           ++ simpl in El. inversion El. subst.
              exists b, y, a. inversion Hb.
              split; [reflexivity|]. split; [assumption|]. now split.
      * rewrite IHnone. split.
        -- intros Hall. now constructor.
        -- intros Hall. now inversion Hall.
      * exact IHempty.
Qed.

(* ================================================================== *)
(** * Formatting *)

From Stdlib Require Import Ascii DecimalString DecimalZ DecimalPos.

(** [str(z)] of a Python [int], as an f-string places it. *)
Definition str_of_int (z : Z) : string := NilZero.string_of_int (Z.to_int z).

Definition is_empty {A} (l : list A) : bool :=
  match l with [] => true | _ => false end.

(** [divmod] is floor division and its remainder, as [/] and [mod] on [Z]
    for a positive divisor; [" ".join(parts) or "0m"] gives "0m" when the
    joined text is empty. *)
Definition fmt_duration (seconds : Z) : string :=
  let h := seconds / 3600 in
  let rem := seconds mod 3600 in
  let m := rem / 60 in
  let s := rem mod 60 in
  let parts := [] in
  let parts := if h =? 0 then parts else parts ++ [str_of_int h ++ "h"]%string in
  let parts := if m =? 0 then parts else parts ++ [str_of_int m ++ "m"]%string in
  let parts :=
    if negb (s =? 0) && is_empty parts
    then parts ++ [str_of_int s ++ "s"]%string else parts in
  let joined := String.concat " " parts in
  if String.eqb joined EmptyString then "0m"%string else joined.

Lemma append_nonempty (s : string) (c : ascii) (t : string) :
  String.eqb (s ++ String c t) EmptyString = false.
Proof. destruct s; reflexivity. Qed.

Lemma string_append_assoc (s t u : string) :
  ((s ++ t) ++ u = s ++ (t ++ u))%string.
Proof. induction s as [|c s IH]; simpl; [reflexivity|]. now rewrite IH. Qed.

(** The five texts [fmt_duration] can give. *)
Lemma fmt_duration_cases seconds :
  let h := seconds / 3600 in
  let m := seconds mod 3600 / 60 in
  let s := seconds mod 3600 mod 60 in
  fmt_duration seconds =
  if h =? 0 then
    if m =? 0 then
      if s =? 0 then "0m"%string else (str_of_int s ++ "s")%string
    else (str_of_int m ++ "m")%string
  else
    if m =? 0 then (str_of_int h ++ "h")%string
    else (str_of_int h ++ "h" ++ " " ++ str_of_int m ++ "m")%string.
Proof.
  intros h m s. unfold fmt_duration. fold h. fold m. fold s.
  destruct (h =? 0), (m =? 0), (s =? 0); cbn [negb andb is_empty app String.concat];
    rewrite ?append_nonempty; try reflexivity.
  - rewrite !string_append_assoc. cbn [append]. now rewrite append_nonempty.
  - rewrite !string_append_assoc. cbn [append]. now rewrite append_nonempty.
Qed.

(** The hours, minutes and seconds [fmt_duration] computes. *)
Lemma hms_of_seconds n :
  0 <= n ->
  let h := n / 3600 in
  let m := n mod 3600 / 60 in
  let s := n mod 3600 mod 60 in
  n = 3600 * h + 60 * m + s /\ 0 <= h /\ 0 <= m < 60 /\ 0 <= s < 60 /\
  n mod 60 = s.
Proof.
  intros Hn h m s. subst h m s.
  pose proof (Z.div_mod n 3600 ltac:(lia)) as H1.
  pose proof (Z.mod_pos_bound n 3600 ltac:(lia)) as H2.
  pose proof (Z.div_mod (n mod 3600) 60 ltac:(lia)) as H3.
  pose proof (Z.mod_pos_bound (n mod 3600) 60 ltac:(lia)) as H4.
  assert (H5 : 0 <= n / 3600) by (apply Z.div_pos; lia).
  assert (H6 : 0 <= n mod 3600 / 60 < 60).
  { split; [apply Z.div_pos; lia|apply Z.div_lt_upper_bound; lia]. }
  repeat split; try lia.
  rewrite H1 at 1.
  replace (3600 * (n / 3600) + n mod 3600)
    with (n mod 3600 + (60 * (n / 3600)) * 60) by lia.
  now rewrite Z.mod_add by lia.
Qed.

Lemma hms_unique n h m s :
  n = 3600 * h + 60 * m + s -> 0 <= m < 60 -> 0 <= s < 60 ->
  n / 3600 = h /\ n mod 3600 / 60 = m /\ n mod 3600 mod 60 = s.
Proof.
  intros Hn Hm Hs.
  assert (Hq : n / 3600 = h).
  { symmetry. apply (Z.div_unique _ 3600 _ (60 * m + s)); lia. }
  assert (Hr : n mod 3600 = 60 * m + s).
  { symmetry. apply (Z.mod_unique _ 3600 h); lia. }
  rewrite Hr. split; [exact Hq|]. split.
  - symmetry. apply (Z.div_unique _ 60 _ s); lia.
  - symmetry. apply (Z.mod_unique _ 60 m); lia.
Qed.

(** From one minute on, the text is that of the whole minutes. *)
Lemma fmt_duration_whole_minutes n :
  60 <= n -> fmt_duration n = fmt_duration (n - n mod 60).
Proof.
  intros Hn.
  destruct (hms_of_seconds n ltac:(lia)) as (Hsum & Hh & Hm & Hs & Hmod).
  destruct (hms_unique (n - n mod 60) (n / 3600) (n mod 3600 / 60) 0
              ltac:(lia) Hm ltac:(lia)) as (Eh & Em & Es).
  rewrite !fmt_duration_cases. rewrite Eh, Em, Es.
  destruct (Z.eqb_spec (n / 3600) 0) as [E0|]; [|reflexivity].
  destruct (Z.eqb_spec (n mod 3600 / 60) 0) as [E1|]; [|reflexivity].
  lia.
Qed.

(** X15.  What [fmt_duration] shows of a duration that is not negative:
    "0m" for zero; the seconds, with "s", below one minute; the minutes
    alone, with "m", below one hour; from one hour on the hours, with "h",
    followed by the minutes unless they are zero.  From one minute on the
    seconds are not shown: the text is that of the duration cut to whole
    minutes. *)
Theorem fmt_duration_shape (n : Z) :
  0 <= n ->
  (n = 0 -> fmt_duration n = "0m"%string) /\
  (0 < n < 60 -> fmt_duration n = (str_of_int n ++ "s")%string) /\
  (60 <= n < 3600 -> fmt_duration n = (str_of_int (n / 60) ++ "m")%string) /\
  (3600 <= n -> n mod 3600 < 60 ->
   fmt_duration n = (str_of_int (n / 3600) ++ "h")%string) /\
  (3600 <= n -> 60 <= n mod 3600 ->
   fmt_duration n =
   (str_of_int (n / 3600) ++ "h " ++ str_of_int (n mod 3600 / 60) ++ "m")%string) /\
  (60 <= n -> fmt_duration n = fmt_duration (n - n mod 60)).
Proof.
  intros Hn.
  destruct (hms_of_seconds n Hn) as (Hsum & Hh & Hm & Hs & Hmod).
  pose proof (Z.mod_pos_bound n 3600 ltac:(lia)) as Hrem.
  pose proof (Z.div_mod (n mod 3600) 60 ltac:(lia)) as Hrem'.
  repeat split.
  - intros ->. reflexivity.
  - intros Hr. rewrite fmt_duration_cases.
    destruct (hms_unique n 0 0 n ltac:(lia) ltac:(lia) ltac:(lia))
      as (-> & -> & ->).
    simpl (0 =? 0). cbv iota.
    destruct (Z.eqb_spec n 0); [lia|reflexivity].
  - intros Hr. rewrite fmt_duration_cases.
    assert (Eh : n / 3600 = 0) by (apply Z.div_small; lia).
    assert (Em : n mod 3600 / 60 = n / 60).
    { now rewrite (Z.mod_small n 3600) by lia. }
    rewrite Eh, Em. simpl (0 =? 0). cbv iota.
    destruct (Z.eqb_spec (n / 60) 0); [lia|reflexivity].
  - intros Hr Hlt. rewrite fmt_duration_cases.
    destruct (Z.eqb_spec (n / 3600) 0); [lia|].
    rewrite (Z.div_small (n mod 3600) 60) by lia. reflexivity.
  - intros Hr Hge. rewrite fmt_duration_cases.
    destruct (Z.eqb_spec (n / 3600) 0); [lia|].
    destruct (Z.eqb_spec (n mod 3600 / 60) 0); [lia|reflexivity].
  - apply fmt_duration_whole_minutes.
Qed.

(* ------------------------------------------------------------------ *)
(** ** Reading a duration back from its text *)

Definition is_digit (c : ascii) : bool :=
  (48 <=? nat_of_ascii c)%nat && (nat_of_ascii c <=? 57)%nat.

Fixpoint all_digits (s : string) : bool :=
  match s with
  | EmptyString => true
  | String c t => is_digit c && all_digits t
  end.

(** What the text of a duration still tells of it: the seconds below one
    minute, the whole minutes from there on. *)
Definition shown (n : Z) : Z := if n <? 60 then n else n - n mod 60.

Lemma all_digits_uint d : all_digits (NilEmpty.string_of_uint d) = true.
Proof. induction d; simpl; auto. Qed.

Lemma all_digits_str_of_int z : 0 <= z -> all_digits (str_of_int z) = true.
Proof.
  intros Hz. destruct z as [|p|p]; [reflexivity| |lia].
  unfold str_of_int. simpl. unfold NilZero.string_of_uint.
  destruct (Pos.to_uint p) eqn:E; try reflexivity; rewrite <- E;
    apply all_digits_uint.
Qed.

Lemma to_int_not_nil z : Z.to_int z <> Decimal.Pos Decimal.Nil /\
                         Z.to_int z <> Decimal.Neg Decimal.Nil.
Proof.
  destruct z as [|p|p]; simpl; split; intros E; try discriminate;
    inversion E as [E']; now apply DecimalPos.Unsigned.to_uint_nonnil in E'.
Qed.

Lemma str_of_int_inj x y : str_of_int x = str_of_int y -> x = y.
Proof.
  unfold str_of_int. intros E.
  apply (f_equal NilZero.int_of_string) in E.
  destruct (to_int_not_nil x) as [Hx1 Hx2].
  destruct (to_int_not_nil y) as [Hy1 Hy2].
  rewrite !NilZero.isi in E by assumption.
  inversion E as [E'].
  now rewrite <- (DecimalZ.of_to x), <- (DecimalZ.of_to y), E'.
Qed.

(** Digits followed by something that is not a digit: the text splits in
    one way only. *)
Lemma digits_split d1 d2 c1 c2 r1 r2 :
  all_digits d1 = true -> all_digits d2 = true ->
  is_digit c1 = false -> is_digit c2 = false ->
  (d1 ++ String c1 r1 = d2 ++ String c2 r2)%string ->
  d1 = d2 /\ c1 = c2 /\ r1 = r2.
Proof.
  revert d2. induction d1 as [|a d1 IH]; intros [|b d2]; simpl;
    intros H1 H2 Hc1 Hc2 E.
  - inversion E. auto.
  - inversion E. subst. apply andb_prop in H2 as [H2 _]. congruence.
  - inversion E. subst. apply andb_prop in H1 as [H1 _]. congruence.
  - inversion E. subst.
    apply andb_prop in H1 as [_ H1]. apply andb_prop in H2 as [_ H2].
    destruct (IH d2 H1 H2 Hc1 Hc2 ltac:(assumption)) as (-> & -> & ->). auto.
Qed.

Lemma str_split x y c1 c2 r1 r2 :
  0 <= x -> 0 <= y ->
  is_digit c1 = false -> is_digit c2 = false ->
  (str_of_int x ++ String c1 r1 = str_of_int y ++ String c2 r2)%string ->
  x = y /\ c1 = c2 /\ r1 = r2.
Proof.
  intros Hx Hy Hc1 Hc2 E.
  apply digits_split in E; trivial; try now apply all_digits_str_of_int.
  destruct E as (E & -> & ->). apply str_of_int_inj in E. auto.
Qed.

(** The hours, the minutes, and the seconds when they are shown. *)
Definition shown_parts (n : Z) : Z * Z * Z :=
  let h := n / 3600 in
  let m := n mod 3600 / 60 in
  let s := n mod 3600 mod 60 in
  (h, m, if (h =? 0) && (m =? 0) then s else 0).

Lemma shown_of_parts n :
  0 <= n ->
  shown n = 3600 * fst (fst (shown_parts n)) + 60 * snd (fst (shown_parts n))
            + snd (shown_parts n).
Proof.
  intros Hn. unfold shown, shown_parts. cbn [fst snd].
  destruct (hms_of_seconds n Hn) as (Hsum & Hh & Hm & Hs & Hmod).
  destruct (Z.eqb_spec (n / 3600) 0) as [E0|E0];
    destruct (Z.eqb_spec (n mod 3600 / 60) 0) as [E1|E1]; cbn [andb];
    destruct (Z.ltb_spec n 60); lia.
Qed.

Lemma fmt_duration_parts a b :
  0 <= a -> 0 <= b ->
  fmt_duration a = fmt_duration b -> shown_parts a = shown_parts b.
Proof.
  intros Ha Hb. rewrite !fmt_duration_cases. unfold shown_parts.
  destruct (hms_of_seconds a Ha) as (_ & Hah & Ham & Has & _).
  destruct (hms_of_seconds b Hb) as (_ & Hbh & Hbm & Hbs & _).
  change "0m"%string with (str_of_int 0 ++ String "m" EmptyString)%string.
  destruct (Z.eqb_spec (a / 3600) 0) as [Eah|Eah];
    destruct (Z.eqb_spec (a mod 3600 / 60) 0) as [Eam|Eam];
    try destruct (Z.eqb_spec (a mod 3600 mod 60) 0) as [Eas|Eas];
    destruct (Z.eqb_spec (b / 3600) 0) as [Ebh|Ebh];
    destruct (Z.eqb_spec (b mod 3600 / 60) 0) as [Ebm|Ebm];
    try destruct (Z.eqb_spec (b mod 3600 mod 60) 0) as [Ebs|Ebs];
    cbn [andb append]; intros E;
    apply str_split in E; try lia; try reflexivity;
    destruct E as (E1 & E2 & E3);
    try discriminate E2; try discriminate E3;
    try (inversion E3 as [E4]; apply str_split in E4; try lia; try reflexivity;
         destruct E4 as (E5 & _ & _));
    repeat (apply (f_equal2 pair)); lia.
Qed.

(** X16.  The text of a duration tells the duration as far as it is shown.
    Two durations that are not negative get the same text from
    [fmt_duration] exactly when they agree in what is shown of them: when
    both are below one minute and equal, or both are of one minute or more
    and have the same number of whole minutes. *)
Theorem fmt_duration_tells_shown (a b : Z) :
  0 <= a -> 0 <= b ->
  (fmt_duration a = fmt_duration b <-> shown a = shown b).
Proof.
  intros Ha Hb.
  assert (Hshown : forall n, 0 <= n -> fmt_duration n = fmt_duration (shown n)).
  { intros n Hn. unfold shown. destruct (Z.ltb_spec n 60); [reflexivity|].
    now apply fmt_duration_whole_minutes. }
  split.
  - intros E. rewrite !shown_of_parts by assumption.
    now rewrite (fmt_duration_parts a b Ha Hb E).
  - intros E. rewrite (Hshown a Ha), (Hshown b Hb). now rewrite E.
Qed.

(* ================================================================== *)
(** * Slash commands *)

(** The choices a command offers for [period]. *)
Inductive Period := choice_today | choice_week | choice_month | choice_all.

(** [choice.value] *)
Definition period_value (c : Period) : string :=
  match c with
  | choice_today => "today"
  | choice_week => "week"
  | choice_month => "month"
  | choice_all => "all"
  end.

(** [(period.value if period else "week")] *)
Definition period_or_week (period : option Period) : string :=
  match period with
  | Some c => period_value c
  | None => "week"
  end.

Definition newline : string := String (ascii_of_nat 10) EmptyString.

Fixpoint spaces (n : nat) : string :=
  match n with
  | O => EmptyString
  | S n => String " " (spaces n)
  end.

(** [f"{i:>2}"]: right-aligned in a field of width 2. *)
Definition right2 (i : Z) : string :=
  let s := str_of_int i in (spaces (2 - String.length s) ++ s)%string.

(** [enumerate(l, start=i)] *)
Fixpoint enumerate {A} (i : Z) (l : list A) : list (Z * A) :=
  match l with
  | [] => []
  | x :: tl => (i, x) :: enumerate (i + 1) tl
  end.

(** A message sent with [interaction.response.send_message]. *)
Record Reply := mkReply {
  content : string;
  ephemeral : bool
}.

(** A member of [interaction.guild], for what [leaderboard] reads of it. *)
Record GuildMember := mkGuildMember {
  gm_id : Z;
  gm_bot : bool
}.

(** [for x in l: ys.append(body(x))] *)
Fixpoint collect {A B} (l : list A) (body : A -> M B) : M (list B) :=
  match l with
  | [] => ret []
  | x :: tl => y <- body x ;; ys <- collect tl body ;; ret (y :: ys)
  end.

Section Commands.
Variable utcoffset : time -> Z.

(** [str.lower]. *)
Variable lower : string -> string.

(** The [total] of [playtime] when an activity is asked for: the seconds of
    the first row whose activity matches it, case folded; 0 without one. *)
Definition playtime_total (rows_ : list (string * Z)) (activity : string) : Z :=
  match find (fun r => String.eqb (lower (fst r)) (lower activity)) rows_ with
  | Some r => snd r
  | None => 0
  end.

Definition playtime_line (ir : Z * (string * Z)) : string :=
  ("`" ++ right2 (fst ir) ++ ".` **" ++ fst (snd ir) ++ "** — "
   ++ fmt_duration (snd (snd ir)))%string.

Definition no_playtime : string :=
  "No playtime recorded yet. Start a game while I'm online!".

(** The [lines] of [playtime] when no activity is asked for. *)
Definition playtime_lines (rows_ : list (string * Z)) : list string :=
  let lines := map playtime_line (enumerate 1 (firstn 10 rows_)) in
  if is_empty lines then [no_playtime] else lines.

(** [playtime], for the user's id and [user.mention]; what it gives back is
    the text it sends. *)
Definition playtime (user_id : Z) (mention : string) (period : option Period)
  (activity : option string) : M (outcome string) :=
  let p := period_or_week period in
  rows_ <- top_activities utcoffset user_id p 25 ;;
  match rows_ with
  | Raises e => ret (Raises e)
  | Returns rows_ =>
      match activity with
      | Some a =>
          if truthy activity then
            ret (Returns ("**" ++ mention ++ "** — "
                          ++ fmt_duration (playtime_total rows_ a)
                          ++ " in **" ++ a ++ "** (" ++ p ++ ").")%string)
          else ret (Returns (String.concat newline (playtime_lines rows_)))
      | None => ret (Returns (String.concat newline (playtime_lines rows_)))
      end
  end.

Definition leaderboard_line (ir : Z * (Z * string * Z)) : string :=
  ("`" ++ right2 (fst ir) ++ ".` **" ++ snd (fst (snd ir)) ++ "** — "
   ++ fmt_duration (snd (snd ir)))%string.

(** The text of the [leaderboard] command for the rows of the query. *)
Definition leaderboard_text (p : string) (activity : option string)
  (rows_ : list (Z * string * Z)) : string :=
  let header :=
    ("Leaderboard (" ++ p
     ++ (match activity with
         | Some a => if truthy activity then " • " ++ a else EmptyString
         | None => EmptyString
         end)
     ++ ")")%string in
  let lines := [("**" ++ header ++ "**")%string] in
  let lines :=
    if is_empty rows_ then lines ++ ["No data yet."%string]
    else lines ++ map leaderboard_line (enumerate 1 rows_) in
  String.concat newline lines.

(** The ids the [leaderboard] command asks for: the members that are not
    bots. *)
Definition member_ids (members : list GuildMember) : list Z :=
  map gm_id (filter (fun m => negb (gm_bot m)) members).

(** The [leaderboard] command, for [interaction.guild] ([None] outside a
    server) given by its members. *)
Definition leaderboard_command (guild : option (list GuildMember))
  (period : option Period) (activity : option string) : M (outcome Reply) :=
  match guild with
  | None =>
      ret (Returns (mkReply "This command can only be used in a server." true))
  | Some members =>
      let p := period_or_week period in
      rows_ <- leaderboard utcoffset (member_ids members) activity p 15 ;;
      match rows_ with
      | Raises e => ret (Raises e)
      | Returns rows_ =>
          ret (Returns (mkReply (leaderboard_text p activity rows_) false))
      end
  end.

Definition not_tracking : string := "Not tracking anything for you right now.".

Definition nowplaying_line (session : string * time) : M string :=
  t <- now_utc ;;
  ret ("• **" ++ fst session ++ "** — "
       ++ fmt_duration (whole_seconds (t - snd session)) ++ " so far")%string.

(** [nowplaying], for the user's id; what it gives back is the text it
    sends. *)
Definition nowplaying (user_id : Z) : M string :=
  a <- get_active ;;
  let sessions := sessions_of a user_id in
  if is_empty sessions then ret not_tracking
  else
    lines <- collect sessions nowplaying_line ;;
    ret (String.concat newline ("Currently tracking:"%string :: lines)).

End Commands.

(* ------------------------------------------------------------------ *)
(** ** What the commands send *)

Lemma concat_starts c (x : string) sep (tl : list string) :
  exists rest, String.concat sep (String c x :: tl) = String c rest.
Proof. destruct tl; simpl; eauto. Qed.

Lemma sorted_find_first {A} (f : A * Z -> bool) (l : list (A * Z)) r :
  StronglySorted by_seconds_desc l ->
  find f l = Some r ->
  In r l /\ f r = true /\
  forall r', In r' l -> f r' = true -> snd r' <= snd r.
Proof.
  induction 1 as [|x tl Hs IH Hx]; simpl; [discriminate|].
  destruct (f x) eqn:E.
  - intros E'. inversion E'. subst. split; [now left|]. split; [exact E|].
    intros r' [<-|Hin] _; [lia|].
    rewrite Forall_forall in Hx. now apply Hx.
  - intros Hfind. destruct (IH Hfind) as (Hin & Hf & Hmax).
    split; [now right|]. split; [exact Hf|].
    intros r' [<-|Hin'] Hr'; [congruence|]. now apply Hmax.
Qed.

Section QueriesReadOnly.
Variable utcoffset : time -> Z.

Lemma window_start_reads_only period end_ w :
  store (exec (window_start utcoffset period end_) w) = store w /\
  active (exec (window_start utcoffset period end_) w) = active w.
Proof.
  unfold window_start.
  destruct (String.eqb period "today"); [now split|].
  destruct (String.eqb period "week"); [now split|].
  destruct (String.eqb period "month"); now split.
Qed.

Lemma top_activities_reads_only user_id period limit w :
  store (exec (top_activities utcoffset user_id period limit) w) = store w /\
  active (exec (top_activities utcoffset user_id period limit) w) = active w.
Proof.
  unfold top_activities.
  destruct (String.eqb period "all"); [now split|].
  rewrite !exec_bind.
  set (w1 := exec (iso_date_local utcoffset a_None) w).
  set (end_ := eval (iso_date_local utcoffset a_None) w).
  destruct (window_start_reads_only period end_ w1) as [Hs Ha].
  destruct (eval (window_start utcoffset period end_) w1); unfold_m;
    rewrite ?Hs, ?Ha; now split.
Qed.

Lemma leaderboard_reads_only ids activity period limit w :
  store (exec (leaderboard utcoffset ids activity period limit) w) = store w /\
  active (exec (leaderboard utcoffset ids activity period limit) w) = active w.
Proof.
  unfold leaderboard. destruct ids as [|id ids]; [now split|].
  destruct (String.eqb period "all"); [now split|].
  rewrite !exec_bind.
  set (w1 := exec (iso_date_local utcoffset a_None) w).
  set (end_ := eval (iso_date_local utcoffset a_None) w).
  destruct (window_start_reads_only period end_ w1) as [Hs Ha].
  destruct (eval (window_start utcoffset period end_) w1); unfold_m;
    rewrite ?Hs, ?Ha; now split.
Qed.

(** What holds of the rows [leaderboard] returns. *)
Lemma leaderboard_result_facts ids activity period limit w res :
  eval (leaderboard utcoffset ids activity period limit) w = Returns res ->
  StronglySorted by_seconds_desc res /\
  (0 <= limit -> Z.of_nat (List.length res) <= limit) /\
  (forall row, In row res -> In (fst (fst row)) ids).
Proof.
  intros Hres. destruct ids as [|id ids].
  { rewrite eval_leaderboard_empty in Hres. inversion Hres. subst.
    split; [constructor|]. split; [simpl; lia|]. intros row []. }
  assert (Hne : id :: ids <> []) by discriminate.
  assert (Hshape : (exists l, res = ranked limit l) /\
                   forall row, In row res -> In (fst (fst row)) (id :: ids)).
  { destruct (String.eqb_spec period "all") as [->|Hp].
    - rewrite eval_leaderboard_all in Hres by exact Hne.
      inversion Hres. split.
      + apply leaderboard_all_ranked.
      + intros row. apply leaderboard_all_user.
    - rewrite eval_leaderboard_window in Hres by assumption.
      destruct (query_window utcoffset period w) as [[start end_]|e];
        simpl in Hres; [|discriminate].
      inversion Hres. split.
      + apply leaderboard_window_ranked.
      + intros row. apply leaderboard_window_user. }
  destruct Hshape as [[l ->] Husers].
  split; [apply ranked_sorted|]. split; [apply ranked_length|exact Husers].
Qed.

End QueriesReadOnly.

Lemma playtime_line_starts ir :
  exists rest, playtime_line ir = String "`" rest.
Proof. unfold playtime_line. cbn [append]. eauto. Qed.

Lemma enumerate_length {A} i (l : list A) :
  List.length (enumerate i l) = List.length l.
Proof. revert i. induction l; intros i; simpl; auto. Qed.

(** X17.  What [playtime] sends.  It changes neither the store nor the
    sessions.  When an activity is asked for, the figure in the text is
    that of one row among the (at most 25) most played activities of the
    period whose name equals the one asked for up to case, and of the one
    with the most seconds among these: rows that differ in case only are
    not added up; without such a row the figure is that of 0 seconds.  When
    no activity is asked for, the text has a line for each of the first
    ten rows at most, and is the "No playtime recorded yet" notice exactly
    when the query returned no row. *)
Theorem playtime_sends (utcoffset : time -> Z) (lower : string -> string)
  (w : world) (user_id : Z) (mention : string) (period : option Period)
  (rows_ : list (string * Z)) :
  let p := period_or_week period in
  eval (top_activities utcoffset user_id p 25) w = Returns rows_ ->
  (forall activity,
     store (exec (playtime utcoffset lower user_id mention period activity) w) =
       store w /\
     active (exec (playtime utcoffset lower user_id mention period activity) w) =
       active w) /\
  (forall a, a <> EmptyString ->
     let total := playtime_total lower rows_ a in
     eval (playtime utcoffset lower user_id mention period (Some a)) w =
       Returns ("**" ++ mention ++ "** — " ++ fmt_duration total
                ++ " in **" ++ a ++ "** (" ++ p ++ ").")%string /\
     ((exists r, In r rows_ /\ lower (fst r) = lower a /\ snd r = total /\
                 forall r', In r' rows_ -> lower (fst r') = lower a ->
                            snd r' <= snd r) \/
      (total = 0 /\ forall r, In r rows_ -> lower (fst r) <> lower a))) /\
  (eval (playtime utcoffset lower user_id mention period None) w =
     Returns (String.concat newline (playtime_lines rows_)) /\
   (List.length (playtime_lines rows_) <= 10)%nat /\
   (String.concat newline (playtime_lines rows_) = no_playtime <->
    rows_ = [])).
Proof.
  intros p Hrows.
  assert (Hsorted : StronglySorted by_seconds_desc rows_).
  { now apply (top_activities_sorted utcoffset user_id p 25 w). }
  split; [|split].
  - intros activity. unfold playtime. fold p. rewrite !exec_bind, Hrows.
    destruct (top_activities_reads_only utcoffset user_id p 25 w) as [Hs Ha].
    destruct activity as [a|]; [destruct (truthy (Some a))|];
      unfold ret, exec at 1 3; simpl; now split.
  - intros a Ha total. split.
    + unfold playtime. fold p. rewrite eval_bind, Hrows.
      cbn [truthy]. apply String.eqb_neq in Ha. now rewrite Ha.
    + subst total. unfold playtime_total.
      destruct (find _ rows_) as [r0|] eqn:Hfind.
      * left. destruct (sorted_find_first _ _ _ Hsorted Hfind)
          as (Hin & Hf & Hmax).
        exists r0. split; [exact Hin|]. split; [now apply String.eqb_eq|].
        split; [reflexivity|].
        intros r' Hin' Hr'. apply Hmax; [exact Hin'|]. now apply String.eqb_eq.
      * right. split; [reflexivity|]. intros r Hin Hr.
        apply (find_none _ _ Hfind) in Hin. apply String.eqb_eq in Hr.
        congruence.
  - split; [|split].
    + unfold playtime. fold p. now rewrite eval_bind, Hrows.
    + unfold playtime_lines.
      destruct (is_empty _) eqn:E; [simpl; lia|].
      rewrite length_map, enumerate_length.
      apply firstn_le_length.
    + unfold playtime_lines. split.
      * destruct rows_ as [|r tl]; [reflexivity|].
        cbn [firstn enumerate map is_empty].
        destruct (playtime_line_starts (1, r)) as [rest ->].
        match goal with
        | |- String.concat ?sep (String ?c ?x :: ?l) = _ -> _ =>
            destruct (concat_starts c x sep l) as [rest' ->]
        end.
        discriminate.
      * intros ->. reflexivity.
Qed.

Lemma member_ids_not_bots members u :
  In u (member_ids members) ->
  exists m, In m members /\ gm_id m = u /\ gm_bot m = false.
Proof.
  unfold member_ids. rewrite in_map_iff. intros (m & E & Hin).
  apply filter_In in Hin as [Hin Hb]. exists m.
  split; [exact Hin|]. split; [exact E|]. now destruct (gm_bot m).
Qed.

(** X18.  What the [leaderboard] command sends.  Outside a server it sends
    the notice, to the caller only, and does nothing else.  In a server it
    changes neither the store nor the sessions, and its text is that of at
    most 15 rows, ordered non-increasing by seconds, each for a member of
    the server that is not a bot. *)
Theorem leaderboard_command_sends (utcoffset : time -> Z) (w : world)
  (period : option Period) (activity : option string) :
  leaderboard_command utcoffset None period activity w =
    (Returns (mkReply "This command can only be used in a server." true), w) /\
  (forall members reply,
     eval (leaderboard_command utcoffset (Some members) period activity) w =
       Returns reply ->
     let w' := exec (leaderboard_command utcoffset (Some members) period
                       activity) w in
     ephemeral reply = false /\ store w' = store w /\ active w' = active w /\
     exists rows_,
       content reply = leaderboard_text (period_or_week period) activity rows_ /\
       (List.length rows_ <= 15)%nat /\
       StronglySorted by_seconds_desc rows_ /\
       forall row, In row rows_ ->
         exists m, In m members /\ gm_id m = fst (fst row) /\ gm_bot m = false).
Proof.
  split; [reflexivity|].
  intros members reply. unfold leaderboard_command.
  rewrite eval_bind, exec_bind.
  destruct (leaderboard_reads_only utcoffset (member_ids members) activity
              (period_or_week period) 15 w) as [Hs Ha].
  destruct (eval (leaderboard utcoffset (member_ids members) activity
                    (period_or_week period) 15) w) as [rows_|e] eqn:Hrows;
    [|discriminate].
  unfold ret, eval at 1, exec at 1. simpl. intros E. inversion E. subst reply.
  destruct (leaderboard_result_facts utcoffset _ _ _ _ _ _ Hrows)
    as (Hsorted & Hlen & Husers).
  simpl. split; [reflexivity|]. split; [exact Hs|]. split; [exact Ha|].
  exists rows_. split; [reflexivity|]. split; [specialize (Hlen ltac:(lia)); lia|].
  split; [exact Hsorted|].
  intros row Hin. apply member_ids_not_bots. now apply Husers.
Qed.

Lemma collect_nowplaying_lines (sessions : Dict.dict string time) w :
  let w' := exec (collect sessions nowplaying_line) w in
  store w' = store w /\ active w' = active w /\
  taken w' = (taken w + List.length sessions)%nat.
Proof.
  revert w. induction sessions as [|x tl IH]; intros w; cbn [collect].
  - unfold exec, ret. simpl. repeat split. lia.
  - rewrite !exec_bind.
    set (w1 := exec (nowplaying_line x) w).
    destruct (IH w1) as (Hs & Ha & Ht).
    unfold ret, exec at 1 3 5. simpl. rewrite Hs, Ha, Ht.
    subst w1. unfold nowplaying_line. unfold_m. repeat split. lia.
Qed.

Lemma nowplaying_unfold user_id w :
  nowplaying user_id w =
  let sessions := sessions_of (active w) user_id in
  if is_empty sessions then (not_tracking, w)
  else
    (String.concat newline
       ("Currently tracking:"%string
        :: eval (collect sessions nowplaying_line) w),
     exec (collect sessions nowplaying_line) w).
Proof.
  unfold nowplaying, bind, get_active, ret, eval, exec. simpl.
  destruct (is_empty (sessions_of (active w) user_id)); [reflexivity|].
  now destruct (collect (sessions_of (active w) user_id) nowplaying_line w).
Qed.

(** X19.  What [nowplaying] sends.  It changes neither the store nor the
    sessions, and reads the clock once for each session of the user.  Its
    text is the "Not tracking anything" notice exactly when the user has no
    active session, also when [active] still holds an entry for the user
    whose sessions have all been stopped. *)
Theorem nowplaying_sends (w : world) (user_id : Z) :
  let w' := exec (nowplaying user_id) w in
  store w' = store w /\ active w' = active w /\
  taken w' = (taken w + List.length (sessions_of (active w) user_id))%nat /\
  (eval (nowplaying user_id) w = not_tracking <->
   forall a, started_at user_id a w = None).
Proof.
  intros w'. subst w'. unfold exec at 1 2 3, eval at 1.
  rewrite nowplaying_unfold. cbv zeta.
  assert (Hsess : forall a, started_at user_id a w =
                            Dict.get a (sessions_of (active w) user_id)).
  { intros a. unfold started_at, sessions_of.
    now destruct (Dict.get user_id (active w)). }
  destruct (collect_nowplaying_lines (sessions_of (active w) user_id) w)
    as (Hs & Ha & Ht).
  destruct (sessions_of (active w) user_id) as [|[a0 t0] tl] eqn:E.
  - simpl. repeat split; try lia.
    intros _ a. now rewrite Hsess.
  - cbn [is_empty fst snd].
    split; [exact Hs|]. split; [exact Ha|]. split; [exact Ht|].
    split.
    + match goal with
      | |- String.concat ?sep (String ?c ?x :: ?l) = _ -> _ =>
          destruct (concat_starts c x sep l) as [rest ->]
      end.
      discriminate.
    + intros Hnone. specialize (Hnone a0). rewrite Hsess in Hnone.
      simpl in Hnone. rewrite String.eqb_refl in Hnone. discriminate.
Qed.

(* ------------------------------------------------------------------ *)
(** ** The leaderboard and the list of activities agree *)




Section Agreement.
Variables (ids : list Z) (s : Store) (u : Z) (name : string) (updated_at : time).
Hypothesis Hids : In u ids.
Hypothesis Hname : Dict.get u (guild_usernames s) = Some (name, updated_at).





End Agreement.


(* ------------------------------------------------------------------ *)
(** ** The further properties on runs of the program *)

(** The credits of [Run.played], as calls. *)
Definition played_calls : list call :=
  [call_add_time (mkCredit 1 "alice#0001" "Chess" 60 (Some Run.a_day));
   call_add_time (mkCredit 1 "alice#0001" "Go" 60 (Some (Run.a_day - Run.days 7)));
   call_add_time (mkCredit 2 "bob#0002" "Go" 60 (Some (Run.a_day - Run.days 6)))].

Lemma played_by_calls :
  Run.played = exec (run_calls Run.utc played_calls) (Run.fresh [Run.a_day]).
Proof. reflexivity. Qed.

Lemma played_counters_match u a :
  total_seconds (store Run.played) u a = daily_sum (store Run.played) u a.
Proof.
  rewrite played_by_calls. revert u a.
  apply (run_calls_keeps Run.utc
           (fun s => forall u a, total_seconds s u a = daily_sum s u a)).
  - intros w0 user_id username activity seconds when Hinv u a.
    destruct (add_time_counters Run.utc user_id username activity seconds when
                w0 u a) as [-> ->].
    now rewrite Hinv.
  - reflexivity.
Qed.

Lemma played_positive : positive_store (store Run.played).
Proof. split; repeat constructor. Qed.

Lemma played_one_row_per_key : NoDup (map fst (totals (store Run.played))).
Proof.
  change (NoDup [(1, "Chess"%string); (1, "Go"%string); (2, "Go"%string)]).
  repeat constructor; simpl; intuition discriminate.
Qed.

Lemma add_time_writes_its_own_rows_witness :
  0 < 60 /\
  total_seconds
    (store (exec (add_time Run.utc 1 "alice#0001" "Chess" 60 None) Run.played))
    1 "Chess" = total_seconds (store Run.played) 1 "Chess" + 60 /\
  total_seconds
    (store (exec (add_time Run.utc 1 "alice#0001" "Chess" 60 None) Run.played))
    2 "Go" = total_seconds (store Run.played) 2 "Go".
Proof.
  assert (H : 0 < 60) by lia.
  pose proof (add_time_writes_its_own_rows Run.utc Run.played 1 "alice#0001"
                "Chess" 60 None H) as (Ht & _ & Ho & _).
  split; [exact H|]. split; [exact Ht|].
  apply Ho. discriminate.
Defined.

Lemma leaderboard_shows_latest_name_witness :
  0 < 60 /\
  eval (leaderboard Run.utc [1; 2] None "all" 10)
       (exec (add_time Run.utc 1 "alice" "Chess" 60 None) Run.played) =
    Returns [(1, "alice"%string, 180); (2, "bob#0002"%string, 60)] /\
  forall row,
    In row [(1, "alice"%string, 180); (2, "bob#0002"%string, 60)] ->
    fst (fst row) = 1 -> snd (fst row) = "alice"%string.
Proof.
  assert (H : 0 < 60) by lia.
  assert (He : eval (leaderboard Run.utc [1; 2] None "all" 10)
                 (exec (add_time Run.utc 1 "alice" "Chess" 60 None) Run.played) =
               Returns [(1, "alice"%string, 180); (2, "bob#0002"%string, 60)])
    by reflexivity.
  split; [exact H|]. split; [exact He|].
  exact (leaderboard_shows_latest_name Run.utc Run.played 1 "alice" "Chess" 60
           None [1; 2] None "all" 10 _ H He).
Defined.

Lemma recorded_seconds_are_positive_witness :
  positive_store (store Run.played) /\
  positive_store (store (exec (run_calls Run.utc Run.other_calls) Run.played)).
Proof.
  split; [exact played_positive|].
  exact (proj1 (recorded_seconds_are_positive Run.utc Run.played Run.other_calls
                  played_positive)).
Defined.

Lemma totals_match_daily_after_calls_witness :
  (forall u a, total_seconds (store Run.played) u a =
               daily_sum (store Run.played) u a) /\
  total_seconds (store (exec (run_calls Run.utc Run.other_calls) Run.played))
    1 "Chess" =
  daily_sum (store (exec (run_calls Run.utc Run.other_calls) Run.played))
    1 "Chess".
Proof.
  split; [exact played_counters_match|].
  exact (totals_match_daily_after_calls Run.utc Run.played Run.other_calls
           played_counters_match 1 "Chess"%string).
Defined.

Lemma leaderboard_all_lists_user_total_witness :
  In 1 [1; 2] /\
  Dict.get 1 (guild_usernames (store Run.played)) =
    Some ("alice#0001"%string, Run.a_day) /\
  In ((1, "Go"%string), 60) (totals (store Run.played)) /\
  -1 < 0 /\
  exists res,
    eval (leaderboard Run.utc [1; 2] None "all" (-1)) Run.played = Returns res /\
    In ((1, "alice#0001"%string), user_total 1 (store Run.played)) res.
Proof.
  assert (H1 : In 1 [1; 2]) by (left; reflexivity).
  assert (H2 : Dict.get 1 (guild_usernames (store Run.played)) =
               Some ("alice#0001"%string, Run.a_day)) by reflexivity.
  assert (H3 : In ((1, "Go"%string), 60) (totals (store Run.played)))
    by (right; left; reflexivity).
  assert (H4 : -1 < 0) by lia.
  repeat (split; [assumption|]).
  exact (leaderboard_all_lists_user_total Run.utc Run.played [1; 2] (-1) 1
           "alice#0001" Run.a_day "Go" 60 H1 H2 H3 H4).
Defined.

Lemma top_activities_result_shape_witness :
  NoDup (map fst (totals (store Run.played))) /\
  eval (top_activities Run.utc 1 "all" 10) Run.played =
    Returns [("Chess"%string, 60); ("Go"%string, 60)] /\
  StronglySorted by_seconds_desc [("Chess"%string, 60); ("Go"%string, 60)] /\
  NoDup (map fst [("Chess"%string, 60); ("Go"%string, 60)]).
Proof.
  assert (He : eval (top_activities Run.utc 1 "all" 10) Run.played =
               Returns [("Chess"%string, 60); ("Go"%string, 60)]) by reflexivity.
  pose proof (top_activities_result_shape Run.utc Run.played 1 "all" 10 _
                played_one_row_per_key He) as (Hs & _ & Hn & _).
  split; [exact played_one_row_per_key|]. split; [exact He|].
  split; [exact Hs|exact Hn].
Defined.

Lemma leaderboard_lists_each_user_once_witness :
  NoDup (map fst (totals (store Run.played))) /\
  eval (leaderboard Run.utc [1; 2] None "all" 10) Run.played =
    Returns [(1, "alice#0001"%string, 120); (2, "bob#0002"%string, 60)] /\
  NoDup (map (fun row : Z * string * Z => fst (fst row))
           [(1, "alice#0001"%string, 120); (2, "bob#0002"%string, 60)]).
Proof.
  assert (He : eval (leaderboard Run.utc [1; 2] None "all" 10) Run.played =
               Returns [(1, "alice#0001"%string, 120); (2, "bob#0002"%string, 60)])
    by reflexivity.
  split; [exact played_one_row_per_key|]. split; [exact He|].
  exact (leaderboard_lists_each_user_once Run.utc Run.played [1; 2] None "all"
           10 _ played_one_row_per_key He).
Defined.

Lemma month_window_boundary_witness :
  29 < reading_date Run.utc (Run.fresh [Run.a_day]) 1 <= MAXORDINAL /\
  reading_date Run.utc (Run.fresh [Run.a_day]) 0 = 739163 /\
  reading_date Run.utc (Run.fresh [Run.a_day]) 1 = 739163 /\
  eval (top_activities Run.utc 1 "month" 10)
       (with_daily (Run.fresh [Run.a_day])
          ([] ++ ((1, "Go"%string, 739163 - 30), 60) :: [])) =
  eval (top_activities Run.utc 1 "month" 10)
       (with_daily (Run.fresh [Run.a_day]) ([] ++ [])) /\
  (exists full full0,
     eval (top_activities Run.utc 1 "month" 10)
          (with_daily (Run.fresh [Run.a_day])
             ([] ++ ((1, "Go"%string, 739163 - 29), 60) :: [])) =
       Returns (sql_limit 10 full) /\
     eval (top_activities Run.utc 1 "month" 10)
          (with_daily (Run.fresh [Run.a_day]) ([] ++ [])) =
       Returns (sql_limit 10 full0) /\
     In "Go"%string (map fst full) /\
     forall v, In ("Go"%string, v) full ->
               v = key_sum "Go"%string full0 + 60) /\
  eval (top_activities Run.utc 1 "month" 10)
       (with_daily (Run.fresh [Run.a_day])
          ([] ++ ((1, "Go"%string, 739163 - 29), 60) :: [])) =
    Returns [("Go"%string, 60)].
Proof.
  assert (Hr : 29 < reading_date Run.utc (Run.fresh [Run.a_day]) 1 <= MAXORDINAL)
    by (vm_compute; split; [reflexivity|discriminate]).
  split; [exact Hr|]. split; [reflexivity|]. split; [reflexivity|].
  split.
  { refine (proj1 (proj1 (month_window_boundary Run.utc (Run.fresh [Run.a_day])
                            1 "Go" (739163 - 30) 60 [] [] Hr) _) 1 10).
    left. vm_compute. reflexivity. }
  split; [|reflexivity].
  destruct (proj2 (month_window_boundary Run.utc (Run.fresh [Run.a_day]) 1
                     "Go" (739163 - 29) 60 [] [] Hr)) as [Htop _].
  { vm_compute. split; discriminate. }
  destruct Htop as (full & full0 & Hf & Hf0 & Hlisted & Hcounts).
  exists full, full0. split; [apply Hf|]. split; [apply Hf0|].
  split; [exact Hlisted|exact Hcounts].
Defined.

(** The credits of [Run.played], asked for across local midnight. *)
Definition played_at_midnight : world :=
  mkWorld (Run.clock_of across_midnight) 0 (store Run.played) [].

Lemma windows_nest_witness :
  reading_date Run.utc played_at_midnight 0 = 739163 /\
  reading_date Run.utc played_at_midnight 1 = 739164 /\
  positive_store (store played_at_midnight) /\
  exists r_today r_week r_month r_all,
    (forall limit,
       eval (top_activities Run.utc 1 "today" limit) played_at_midnight =
       Returns (sql_limit limit r_today)) /\
    (forall limit,
       eval (top_activities Run.utc 1 "week" limit) played_at_midnight =
       Returns (sql_limit limit r_week)) /\
    (forall limit,
       eval (top_activities Run.utc 1 "month" limit) played_at_midnight =
       Returns (sql_limit limit r_month)) /\
    (forall limit,
       eval (top_activities Run.utc 1 "all" limit) played_at_midnight =
       Returns (sql_limit limit r_all)) /\
    key_sum "Go"%string r_today <= key_sum "Go"%string r_week /\
    key_sum "Go"%string r_week <= key_sum "Go"%string r_month /\
    key_sum "Go"%string r_month <= key_sum "Go"%string r_all.
Proof.
  assert (Hr : 29 < reading_date Run.utc played_at_midnight 1 <= MAXORDINAL)
    by (vm_compute; split; [reflexivity|discriminate]).
  assert (Hc : reading_date Run.utc played_at_midnight 1 - 6 <=
               reading_date Run.utc played_at_midnight 0)
    by (vm_compute; discriminate).
  split; [reflexivity|]. split; [reflexivity|].
  split; [exact played_positive|].
  exact (windows_nest Run.utc played_at_midnight 1 "Go" Hr Hc
           played_positive played_one_row_per_key played_counters_match).
Defined.

Lemma credit_read_back_witness :
  0 < 60 /\ -1 < 0 /\
  exists res,
    eval (top_activities Run.utc 1 "all" (-1))
         (exec (add_time Run.utc 1 "alice#0001" "Chess" 60 None) Run.played) =
      Returns res /\
    key_sum "Chess"%string res =
      key_sum "Chess"%string (top_all 1 (-1) (store Run.played)) + 60.
Proof.
  assert (H : 0 < 60) by lia.
  assert (Hl : -1 < 0) by lia.
  split; [exact H|]. split; [exact Hl|].
  destruct (credit_read_back Run.utc Run.played 1 "alice#0001" "Chess" 60 (-1)
              H Hl) as [(res & He & Hk & _) _].
  exists res. split; [exact He|exact Hk].
Defined.

Lemma presence_update_sessions_witness :
  get_playing_name (Run.alice_playing "Chess") <> get_playing_name Run.alice /\
  started_at 1 "Chess" Run.after_tick = Some (Run.seconds 0) /\
  started_at 1 "Chess"
    (exec (on_presence_update Run.utc (Run.alice_playing "Chess") Run.alice)
       Run.after_tick) = None.
Proof.
  assert (H : get_playing_name (Run.alice_playing "Chess") <>
              get_playing_name Run.alice) by discriminate.
  split; [exact H|]. split; [reflexivity|].
  destruct (presence_update_sessions Run.utc Run.after_tick
              (Run.alice_playing "Chess") Run.alice) as [_ Hd].
  destruct (Hd H) as (Hclosed & _).
  apply Hclosed. reflexivity.
Defined.

Lemma presence_update_credit_witness :
  started_at 1 "Chess" Run.after_tick = Some (Run.seconds 0) /\
  total_seconds
    (store (exec (on_presence_update Run.utc (Run.alice_playing "Chess")
                    Run.alice) Run.after_tick)) 1 "Chess" =
  total_seconds (store Run.after_tick) 1 "Chess"
  + Z.max 0 (whole_seconds (clock Run.after_tick (taken Run.after_tick)
                            - Run.seconds 0)).
Proof.
  assert (Hs : started_at 1 "Chess" Run.after_tick = Some (Run.seconds 0))
    by reflexivity.
  split; [exact Hs|].
  destruct (presence_update_credit Run.utc Run.after_tick
              (Run.alice_playing "Chess") Run.alice) as [_ Hc].
  apply (Hc "Chess"%string (Run.seconds 0)); [reflexivity|discriminate|exact Hs].
Defined.

Lemma start_then_stop_witness :
  started_at 1 "Chess" (Run.fresh [Run.seconds 0; Run.seconds 90]) = None /\
  eval (stop 1 "Chess")
       (exec (start 1 "Chess") (Run.fresh [Run.seconds 0; Run.seconds 90])) =
    whole_seconds (Run.seconds 90 - Run.seconds 0).
Proof.
  assert (H : started_at 1 "Chess" (Run.fresh [Run.seconds 0; Run.seconds 90]) =
              None) by reflexivity.
  split; [exact H|].
  exact (proj1 (start_then_stop (Run.fresh [Run.seconds 0; Run.seconds 90]) 1
                  "Chess" H)).
Defined.

Lemma fmt_duration_shape_witness :
  0 <= 3725 /\ 3600 <= 3725 /\ 60 <= 3725 mod 3600 /\
  fmt_duration 3725 =
    (str_of_int (3725 / 3600) ++ "h " ++ str_of_int (3725 mod 3600 / 60) ++ "m")%string.
Proof.
  assert (H0 : 0 <= 3725) by lia.
  assert (H1 : 3600 <= 3725) by lia.
  assert (H2 : 60 <= 3725 mod 3600) by (vm_compute; discriminate).
  repeat (split; [assumption|]).
  destruct (fmt_duration_shape 3725 H0) as (_ & _ & _ & _ & Hhm & _).
  exact (Hhm H1 H2).
Defined.

Lemma fmt_duration_tells_shown_witness :
  0 <= 3725 /\ 0 <= 3750 /\ fmt_duration 3725 = fmt_duration 3750.
Proof.
  assert (Ha : 0 <= 3725) by lia.
  assert (Hb : 0 <= 3750) by lia.
  split; [exact Ha|]. split; [exact Hb|].
  apply (proj2 (fmt_duration_tells_shown 3725 3750 Ha Hb)). reflexivity.
Defined.

Lemma playtime_sends_witness :
  eval (top_activities Run.utc 1 (period_or_week None) 25) Run.played =
    Returns [("Chess"%string, 60)] /\
  eval (playtime Run.utc (fun s => s) 1 "alice" None (Some "Chess"%string))
       Run.played =
    Returns ("**" ++ "alice" ++ "** — "
             ++ fmt_duration (playtime_total (fun s => s)
                                [("Chess"%string, 60)] "Chess")
             ++ " in **" ++ "Chess" ++ "** (" ++ period_or_week None ++ ").")%string /\
  store (exec (playtime Run.utc (fun s => s) 1 "alice" None None) Run.played) =
    store Run.played.
Proof.
  assert (He : eval (top_activities Run.utc 1 (period_or_week None) 25)
                 Run.played = Returns [("Chess"%string, 60)]) by reflexivity.
  split; [exact He|].
  destruct (playtime_sends Run.utc (fun s => s) Run.played 1 "alice" None _ He)
    as (Hro & Hone & _).
  split.
  - apply (Hone "Chess"%string). discriminate.
  - apply (Hro None).
Defined.

Lemma leaderboard_command_sends_witness :
  exists reply,
    eval (leaderboard_command Run.utc
            (Some [mkGuildMember 1 false; mkGuildMember 2 true]) None None)
         Run.played = Returns reply /\
    ephemeral reply = false /\
    store (exec (leaderboard_command Run.utc
                   (Some [mkGuildMember 1 false; mkGuildMember 2 true]) None
                   None) Run.played) = store Run.played.
Proof.
  destruct (leaderboard_command_sends Run.utc Run.played None None) as [_ H].
  eexists. split; [reflexivity|].
  destruct (H [mkGuildMember 1 false; mkGuildMember 2 true] _ eq_refl)
    as (Hp & Hs & _).
  split; [exact Hp|exact Hs].
Defined.

